(** * SwiftSpace: invoice lifecycle and payment reconciliation

    A shallow embedding of the Supabase edge functions of the repository
    ([buy], [evm-notify], [solana-receipt], [confirmations],
    [invoice-public]) over an explicit relational store, together with the
    properties the specification states about them.

    Conventions.
    - A JavaScript [number] is modelled by an exact rational extended with
      [NaN] and the two infinities: IEEE-754 rounding and the sign of zero
      are not represented.
    - A table is the list of its rows; a query is a filter over that list,
      an update maps over it, exactly as the [.eq]/[.in] predicates of the
      source read.
    - Everything the platform supplies (clock, generated uuids, RPC and
      price-oracle answers) is an explicit argument. *)

From Stdlib Require Import ZArith QArith Qround Qabs Qpower List String Ascii Bool Lia Lqa Permutation.
Import ListNotations.

(* ====================================================================== *)
(** * JavaScript values and the built-ins the sources call                 *)
(* ====================================================================== *)

Module JS.

Local Open Scope Q_scope.

(** [number]: a double, abstracted to an exact rational plus the three
    non-finite values. *)
Inductive number : Type :=
| NaN
| PInf
| NInf
| Fin (q : Q).

Definition isNaN (n : number) : bool :=
  match n with NaN => true | _ => false end.

Definition isFinite (n : number) : bool :=
  match n with Fin _ => true | _ => false end.

(** [!n] for a number: true for [0] and [NaN]. *)
Definition falsy (n : number) : bool :=
  match n with
  | NaN => true
  | Fin q => Qeq_bool q 0
  | _ => false
  end.

Definition Qlt_bool (x y : Q) : bool := negb (Qle_bool y x).

Definition Qsgn (q : Q) : Z := Z.sgn (Qnum q).

Definition sign (n : number) : Z :=
  match n with
  | NaN => 0%Z
  | PInf => 1%Z
  | NInf => (-1)%Z
  | Fin q => Qsgn q
  end.

Definition inf_of_sign (s : Z) : number :=
  if (s =? 0)%Z then NaN else if (s <? 0)%Z then NInf else PInf.

Definition add (a b : number) : number :=
  match a, b with
  | NaN, _ | _, NaN => NaN
  | Fin x, Fin y => Fin (x + y)
  | PInf, NInf | NInf, PInf => NaN
  | PInf, _ | _, PInf => PInf
  | NInf, _ | _, NInf => NInf
  end.

Definition mul (a b : number) : number :=
  match a, b with
  | NaN, _ | _, NaN => NaN
  | Fin x, Fin y => Fin (x * y)
  | _, _ => inf_of_sign (sign a * sign b)
  end.

(** Division; a zero divisor is read as [+0]. *)
Definition div (a b : number) : number :=
  match a, b with
  | NaN, _ | _, NaN => NaN
  | Fin x, Fin y => if Qeq_bool y 0 then inf_of_sign (Qsgn x) else Fin (x / y)
  | Fin _, _ => Fin 0
  | _, Fin y => inf_of_sign (sign a * (if (Qsgn y <? 0)%Z then -1 else 1))
  | _, _ => NaN
  end.

(** [a < b]; every comparison with [NaN] is false. *)
Definition ltb (a b : number) : bool :=
  match a, b with
  | NaN, _ | _, NaN => false
  | Fin x, Fin y => Qlt_bool x y
  | NInf, NInf => false
  | NInf, _ => true
  | _, PInf => match a with PInf => false | _ => true end
  | _, _ => false
  end.

(** [a <= b]. *)
Definition leb (a b : number) : bool :=
  match a, b with
  | NaN, _ | _, NaN => false
  | Fin x, Fin y => Qle_bool x y
  | NInf, _ => true
  | _, PInf => true
  | _, _ => false
  end.


(** [Math.pow(10, d)] at an integral exponent. *)
Definition pow10 (d : Z) : Q := (10 # 1) ^ d.

(** [Math.round]: to the nearest integer, ties toward [+Infinity]. *)
Definition Math_round (x : Q) : Z := Qfloor (x + (1 # 2)).

(** The value of [parseFloat(x.toFixed(dec))].  [toFixed] works on the
    magnitude: it takes the integer [n] for which [n / 10^dec - |x|] is
    closest to zero, the larger [n] of two, and restores the sign; from
    [10^21] on it falls back to [String(x)], which parses back to [x]. *)
Definition toFixed_value (dec : Z) (x : number) : number :=
  match x with
  | Fin q =>
      if Qle_bool (pow10 21) (Qabs q) then Fin q
      else
        let n := Qfloor (Qabs q * pow10 dec + (1 # 2)) in
        Fin (inject_Z (Qsgn q * n) / pow10 dec)
  | _ => x
  end.

(** ** Strings *)

Local Open Scope char_scope.

Definition is_digit (c : ascii) : bool :=
  let n := nat_of_ascii c in (48 <=? n)%nat && (n <=? 57)%nat.

Definition is_upper (c : ascii) : bool :=
  let n := nat_of_ascii c in (65 <=? n)%nat && (n <=? 90)%nat.

Definition is_lower (c : ascii) : bool :=
  let n := nat_of_ascii c in (97 <=? n)%nat && (n <=? 122)%nat.

Definition lower_char (c : ascii) : ascii :=
  if is_upper c then ascii_of_nat (nat_of_ascii c + 32) else c.

Definition upper_char (c : ascii) : ascii :=
  if is_lower c then ascii_of_nat (nat_of_ascii c - 32) else c.

Fixpoint smap (f : ascii -> ascii) (s : string) : string :=
  match s with
  | EmptyString => EmptyString
  | String c r => String (f c) (smap f r)
  end.

(** [toLowerCase] / [toUpperCase] on the ASCII letters. *)
Definition toLowerCase : string -> string := smap lower_char.
Definition toUpperCase : string -> string := smap upper_char.

(** Truthiness of a string: non-empty. *)
Definition nonempty (s : string) : bool :=
  match s with EmptyString => false | _ => true end.

Fixpoint sall (p : ascii -> bool) (s : string) : bool :=
  match s with
  | EmptyString => true
  | String c r => p c && sall p r
  end.

(** [/^\d+$/.test(s)] *)
Definition all_digits (s : string) : bool := nonempty s && sall is_digit s.

Definition is_hex (c : ascii) : bool :=
  is_digit c
  || (let n := nat_of_ascii (lower_char c) in (97 <=? n)%nat && (n <=? 102)%nat).

Definition digit_val (c : ascii) : Z :=
  let n := Z.of_nat (nat_of_ascii (lower_char c)) in
  if is_digit c then (n - 48)%Z else (n - 87)%Z.

(** Value of a digit string in the given base, most significant first. *)
Fixpoint digits_val (base : Z) (acc : Z) (s : string) : Z :=
  match s with
  | EmptyString => acc
  | String c r => digits_val base (acc * base + digit_val c)%Z r
  end.

Definition is_space (c : ascii) : bool :=
  let n := nat_of_ascii c in
  ((9 <=? n)%nat && (n <=? 13)%nat) || (n =? 32)%nat.

Fixpoint drop_spaces (s : string) : string :=
  match s with
  | String c r => if is_space c then drop_spaces r else s
  | EmptyString => EmptyString
  end.

Fixpoint srev_onto (s acc : string) : string :=
  match s with
  | EmptyString => acc
  | String c r => srev_onto r (String c acc)
  end.

Definition srev (s : string) : string := srev_onto s EmptyString.

(** [trim] on the ASCII white space. *)
Definition trim (s : string) : string :=
  srev (drop_spaces (srev (drop_spaces s))).

(** Longest prefix of characters satisfying [p], and the rest. *)
Fixpoint span (p : ascii -> bool) (s : string) : string * string :=
  match s with
  | String c r =>
      if p c then let '(a, b) := span p r in (String c a, b) else (EmptyString, s)
  | EmptyString => (EmptyString, EmptyString)
  end.

Local Open Scope string_scope.

(** [ExponentPart_opt] at the end of a decimal literal: [None] when the
    text is not an exponent part. *)
Definition parse_exponent (s : string) : option Z :=
  match s with
  | EmptyString => Some 0%Z
  | String c r =>
      if (Ascii.eqb c "e" || Ascii.eqb c "E")%char then
        let '(neg, ds) :=
          match r with
          | String "-"%char r' => (true, r')
          | String "+"%char r' => (false, r')
          | _ => (false, r)
          end in
        if all_digits ds
        then Some (if neg then - digits_val 10 0 ds else digits_val 10 0 ds)%Z
        else None
      else None
  end.

(** [StrUnsignedDecimalLiteral] other than [Infinity]. *)
Definition parse_unsigned_decimal (s : string) : option Q :=
  let '(ip, r1) := span is_digit s in
  let '(fp, r2) :=
    match r1 with
    | String "."%char r => span is_digit r
    | _ => (EmptyString, r1)
    end in
  if nonempty ip || nonempty fp then
    match parse_exponent r2 with
    | Some e =>
        let k := Z.of_nat (String.length fp) in
        Some (inject_Z (digits_val 10 (digits_val 10 0 ip) fp) * pow10 (e - k))%Q
    | None => None
    end
  else None.

Definition parse_radix (base : Z) (ok : ascii -> bool) (ds : string) : number :=
  if nonempty ds && sall ok ds then Fin (inject_Z (digits_val base 0 ds)) else NaN.

Definition is_bin (c : ascii) : bool := (Ascii.eqb c "0" || Ascii.eqb c "1")%char.
Definition is_oct (c : ascii) : bool :=
  let n := nat_of_ascii c in (48 <=? n)%nat && (n <=? 55)%nat.

(** [Number(s)] for a string [s] (ECMAScript [StringToNumber]). *)
Definition StringToNumber (s : string) : number :=
  let t := trim s in
  match t with
  | EmptyString => Fin 0
  | String "0"%char (String x ds) =>
      if (Ascii.eqb x "x" || Ascii.eqb x "X")%char then parse_radix 16 is_hex ds
      else if (Ascii.eqb x "o" || Ascii.eqb x "O")%char then parse_radix 8 is_oct ds
      else if (Ascii.eqb x "b" || Ascii.eqb x "B")%char then parse_radix 2 is_bin ds
      else match parse_unsigned_decimal t with Some q => Fin q | None => NaN end
  | String "-"%char r =>
      if String.eqb r "Infinity" then NInf
      else match parse_unsigned_decimal r with Some q => Fin (- q) | None => NaN end
  | String "+"%char r =>
      if String.eqb r "Infinity" then PInf
      else match parse_unsigned_decimal r with Some q => Fin q | None => NaN end
  | _ =>
      if String.eqb t "Infinity" then PInf
      else match parse_unsigned_decimal t with Some q => Fin q | None => NaN end
  end.

(** A JSON scalar as a handler sees it; [VUndef] is a missing field. *)
Inductive value : Type :=
| VUndef
| VNull
| VBool (b : bool)
| VNum (n : number)
| VStr (s : string).

(** [a ?? b] *)
Definition nullish (a b : value) : value :=
  match a with VUndef | VNull => b | _ => a end.

(** [a ?? b] where [None] stands for [undefined] and [null] alike. *)
Definition orElse {A} (a : option A) (b : option A) : option A :=
  match a with Some _ => a | None => b end.

Definition withDefault {A} (a : option A) (d : A) : A :=
  match a with Some x => x | None => d end.

End JS.

(* ====================================================================== *)
(** * The relational store                                                 *)
(* ====================================================================== *)

Module Store.

Local Open Scope string_scope.

(** [invoices.status], constrained by the table's [check] to five values. *)
Inductive invoice_status : Type := draft | pending | paid | confirmed | expired.

Definition status_eqb (a b : invoice_status) : bool :=
  match a, b with
  | draft, draft | pending, pending | paid, paid
  | confirmed, confirmed | expired, expired => true
  | _, _ => false
  end.

(** Timestamps are instants on a linear clock. *)
Definition timestamp := Z.

Record invoice : Type := mkInvoice {
  inv_id : string;
  user_id : string;
  amount : Q;
  currency : string;
  to_address : string;
  reference : option string;
  status : invoice_status;
  network : option string;
  confirmations_required : option Z;
  detected_tx_hash : option string;
  detected_at : option timestamp;
  confirmed_at : option timestamp;
  created_at : timestamp;
  expires_at : option timestamp;
  public_token : string
}.

Record payment : Type := mkPayment {
  pay_invoice_id : string;
  chain : string;
  tx_hash : string;
  pay_amount : JS.number;
  confirmations : Z
}.

Record merchant : Type := mkMerchant {
  merchant_id : string;
  plan_tier : string;
  trial_ends_at : option timestamp
}.

Record wallet : Type := mkWallet {
  wallet_user_id : string;
  wallet_currency : string;
  address : string
}.

(** A calendar month, the key [yyyy-mm-01] of [merchant_usage_monthly]:
    the year and the month number 1..12. *)
Definition month_key := (Z * Z)%type.

Record usage_row : Type := mkUsage {
  usage_merchant_id : string;
  month : month_key;
  gmv_cents : Z
}.

Record ledger_row : Type := mkLedger {
  ledger_merchant_id : string;
  ledger_invoice_id : string;
  ledger_currency : string;
  amount_crypto : Q;
  amount_usd_cents : Z
}.

Record DB : Type := mkDB {
  invoices : list invoice;
  payments : list payment;
  merchants : list merchant;
  wallets : list wallet;
  usage : list usage_row;
  ledger : list ledger_row
}.

Definition with_invoices (l : list invoice) (db : DB) : DB :=
  mkDB l (payments db) (merchants db) (wallets db) (usage db) (ledger db).
Definition with_payments (l : list payment) (db : DB) : DB :=
  mkDB (invoices db) l (merchants db) (wallets db) (usage db) (ledger db).
Definition with_merchants (l : list merchant) (db : DB) : DB :=
  mkDB (invoices db) (payments db) l (wallets db) (usage db) (ledger db).
Definition with_usage (l : list usage_row) (db : DB) : DB :=
  mkDB (invoices db) (payments db) (merchants db) (wallets db) l (ledger db).
Definition with_ledger (l : list ledger_row) (db : DB) : DB :=
  mkDB (invoices db) (payments db) (merchants db) (wallets db) (usage db) l.

Definition opt_string_eqb (a b : option string) : bool :=
  match a, b with
  | Some x, Some y => String.eqb x y
  | None, None => true
  | _, _ => false
  end.

(** [.eq(col, v)] on a nullable text column: [NULL] equals nothing. *)
Definition col_eq (col : option string) (v : string) : bool :=
  match col with Some x => String.eqb x v | None => false end.

Definition month_eqb (a b : month_key) : bool :=
  ((fst a =? fst b) && (snd a =? snd b))%Z.

(** [update invoices set ... where p]: every row satisfying [p] is rewritten. *)
Definition update_invoices (p : invoice -> bool) (f : invoice -> invoice) (db : DB) : DB :=
  with_invoices (map (fun i => if p i then f i else i) (invoices db)) db.

(** [{ status: 'paid', detected_tx_hash, detected_at }] *)
Definition set_paid (hash : option string) (at_ : option timestamp) (i : invoice) : invoice :=
  mkInvoice (inv_id i) (user_id i) (amount i) (currency i) (to_address i) (reference i)
    paid (network i) (confirmations_required i) hash at_ (confirmed_at i)
    (created_at i) (expires_at i) (public_token i).

(** [{ status: 'paid', detected_tx_hash }] *)
Definition set_paid_signature (sig : string) (i : invoice) : invoice :=
  mkInvoice (inv_id i) (user_id i) (amount i) (currency i) (to_address i) (reference i)
    paid (network i) (confirmations_required i) (Some sig) (detected_at i) (confirmed_at i)
    (created_at i) (expires_at i) (public_token i).

(** [{ status: 'confirmed', confirmed_at }] *)
Definition set_confirmed (at_ : timestamp) (i : invoice) : invoice :=
  mkInvoice (inv_id i) (user_id i) (amount i) (currency i) (to_address i) (reference i)
    confirmed (network i) (confirmations_required i) (detected_tx_hash i) (detected_at i)
    (Some at_) (created_at i) (expires_at i) (public_token i).

(** The answer of [.maybeSingle()]: more than one row is an error. *)
Inductive single (A : Type) : Type :=
| NoRow
| OneRow (a : A)
| ManyRows.
Arguments NoRow {A}.
Arguments OneRow {A} a.
Arguments ManyRows {A}.

Definition maybeSingle {A} (rows : list A) : single A :=
  match rows with
  | [] => NoRow
  | [a] => OneRow a
  | _ => ManyRows
  end.

(** [order by created_at desc]: a stable insertion sort, newest first. *)
Fixpoint insert_desc (i : invoice) (l : list invoice) : list invoice :=
  match l with
  | [] => [i]
  | j :: r => if (created_at j <? created_at i)%Z then i :: l else j :: insert_desc i r
  end.

Fixpoint order_created_desc (l : list invoice) : list invoice :=
  match l with
  | [] => []
  | i :: r => insert_desc i (order_created_desc r)
  end.

(** The primary key of [invoices]. *)
Definition unique_ids (db : DB) : Prop := NoDup (map inv_id (invoices db)).

(** ** Store programs

    A handler is a sequence of [await]ed store calls.  Each call is one
    atomic action on the store; between two of them other invocations may
    run. *)
Inductive prog (R : Type) : Type :=
| Ret (r : R)
| Atomic {A : Type} (act : DB -> A * DB) (k : A -> prog R).
Arguments Ret {R} r.
Arguments Atomic {R A} act k.

(** A read: the store is left as it is. *)
Definition query {R A} (f : DB -> A) (k : A -> prog R) : prog R :=
  Atomic (fun db => (f db, db)) k.

(** A write whose answer the handler does not look at. *)
Definition exec {R} (f : DB -> DB) (k : prog R) : prog R :=
  Atomic (fun db => (tt, f db)) (fun _ => k).

(** Sequencing: [p], then [k] on its result. *)
Fixpoint bind {R S} (p : prog R) (k : R -> prog S) : prog S :=
  match p with
  | Ret r => k r
  | Atomic act k' => Atomic act (fun a => bind (k' a) k)
  end.

(** One invocation running alone, from its first store call to its return. *)
Fixpoint run {R} (p : prog R) (db : DB) : R * DB :=
  match p with
  | Ret r => (r, db)
  | Atomic act k => let '(a, db') := act db in run (k a) db'
  end.




(** The number of store calls an invocation makes. *)
Fixpoint calls {R} (p : prog R) (db : DB) : nat :=
  match p with
  | Ret _ => O
  | Atomic act k => let '(a, db') := act db in S (calls (k a) db')
  end.

End Store.

(* ====================================================================== *)
(** * evm-notify: the provider webhook listener                            *)
(* ====================================================================== *)

Module EvmNotify.
Import JS Store.
Local Open Scope string_scope.

(** One webhook event.  The address, hash, symbol and network fields are
    strings when present, the decimals fields integers; [None] is a field
    that is missing or [null].  The value fields are arbitrary scalars. *)
Record event : Type := mkEvent {
  e_to : option string;
  e_toAddress : option string;
  e_to_address : option string;
  e_hash : option string;
  e_txHash : option string;
  e_tx_hash : option string;
  e_decimals : option Z;
  e_tokenDecimals : option Z;
  e_value : value;
  e_amount : value;
  e_tokenValue : value;
  e_asset : option string;
  e_currency : option string;
  e_symbol : option string;
  e_contractAddress : option string;
  e_contract : option string;
  e_network : option string;
  e_chain : option string;
  e_confirmations : option Z
}.

Definition normalizeAmount (v : value) (decimals : option Z) : number :=
  match v with
  | VUndef | VNull => Fin 0
  | VNum n => n
  | VStr s =>
      match decimals with
      | Some d =>
          if all_digits s then div (StringToNumber s) (Fin (pow10 d))
          else let n := StringToNumber s in if isNaN n then Fin 0 else n
      | None => let n := StringToNumber s in if isNaN n then Fin 0 else n
      end
  | VBool _ => Fin 0
  end.

Record fields : Type := mkFields {
  f_to : string;
  f_txHash : string;
  f_amount : number;
  f_currency : string;
  f_network : string;
  f_confirmations : Z
}.

Definition extractFields (e : event) : fields :=
  let to := toLowerCase
              (withDefault (orElse (e_to e) (orElse (e_toAddress e) (e_to_address e))) "") in
  let txHash := withDefault (orElse (e_hash e) (orElse (e_txHash e) (e_tx_hash e))) "" in
  let decimals := withDefault (orElse (e_decimals e) (e_tokenDecimals e)) 18%Z in
  let amount :=
    normalizeAmount (nullish (e_value e) (nullish (e_amount e) (e_tokenValue e)))
                    (Some decimals) in
  let currencyRaw :=
    withDefault (orElse (e_asset e) (orElse (e_currency e) (e_symbol e))) "" in
  let contract := withDefault (orElse (e_contractAddress e) (e_contract e)) "" in
  let network := toLowerCase (withDefault (orElse (e_network e) (e_chain e)) "ethereum") in
  let currency :=
    if nonempty currencyRaw then toUpperCase currencyRaw
    else if nonempty contract then "USDT" else "ETH" in
  let confirmations := withDefault (e_confirmations e) 0%Z in
  mkFields to txHash amount currency network confirmations.

(** The [where] clause of the invoice lookup. *)
Definition open_match (to cur net : string) (i : invoice) : bool :=
  String.eqb (to_address i) to
  && String.eqb (currency i) cur
  && col_eq (network i) net
  && (status_eqb (status i) pending || status_eqb (status i) draft).

(** [order created_at desc, limit 1, maybeSingle]. *)
Definition select_open_invoice (to cur net : string) (db : DB) : option invoice :=
  match order_created_desc (filter (open_match to cur net) (invoices db)) with
  | [] => None
  | i :: _ => Some i
  end.

(** [upsert(row, { onConflict: 'tx_hash' })] *)
Definition upsert_payment (p : payment) (db : DB) : DB :=
  if existsb (fun r => String.eqb (tx_hash r) (tx_hash p)) (payments db)
  then with_payments
         (map (fun r => if String.eqb (tx_hash r) (tx_hash p) then p else r) (payments db)) db
  else with_payments (payments db ++ [p]) db.

(** What the platform hands to one [processEvent] call: the clock reading
    of [new Date()] and the value of [crypto.randomUUID()]. *)
Record platform : Type := mkPlatform { now : timestamp; randomUUID : string }.

(** The tolerance test: true when the event is turned away. *)
Definition underpaid (amount : number) (inv : invoice) : bool :=
  let expected := Fin (Store.amount inv) in
  let tolerance := mul expected (Fin (5 # 1000)) in
  ltb (add amount tolerance) expected.

Definition processEvent (pf : platform) (evt : event) : prog unit :=
  let f := extractFields evt in
  if negb (nonempty (f_to f)) || falsy (f_amount f) || negb (nonempty (f_currency f))
  then Ret tt
  else
    query (select_open_invoice (f_to f) (f_currency f) (f_network f)) (fun found =>
    match found with
    | None => Ret tt
    | Some inv =>
        if underpaid (f_amount f) inv then Ret tt
        else
          exec (upsert_payment
                  (mkPayment (inv_id inv) (f_network f)
                     (if nonempty (f_txHash f) then f_txHash f else randomUUID pf)
                     (f_amount f) 0)) (
          exec (update_invoices
                  (fun i => String.eqb (inv_id i) (inv_id inv))
                  (set_paid (if nonempty (f_txHash f) then Some (f_txHash f) else None)
                            (Some (now pf)))) (
          Ret tt))
    end).

(** The request loop: every extracted event in turn. *)
Fixpoint processEvents (evts : list (platform * event)) : prog unit :=
  match evts with
  | [] => Ret tt
  | (pf, e) :: r => bind (processEvent pf e) (fun _ => processEvents r)
  end.

Inductive response : Type :=
| Preflight
| MethodNotAllowed
| Unauthorized
| InvalidJSON
| Processed (n : nat).

Definition http_status (r : response) : Z :=
  match r with
  | Preflight => 200
  | MethodNotAllowed => 405
  | Unauthorized => 401
  | InvalidJSON => 400
  | Processed _ => 200
  end.

(** A delivery: the method, the [x-webhook-secret] header, and the events
    of the body ([None] when the body is not JSON). *)
Record request : Type := mkRequest {
  method : string;
  secret_header : option string;
  body_events : option (list (platform * event))
}.

Definition serve (WEBHOOK_SECRET : option string) (req : request) : prog response :=
  if String.eqb (method req) "OPTIONS" then Ret Preflight
  else if negb (String.eqb (method req) "POST") then Ret MethodNotAllowed
  else
    let provided := withDefault (secret_header req) "" in
    let expected := withDefault WEBHOOK_SECRET "" in
    if negb (nonempty expected) || negb (String.eqb provided expected) then Ret Unauthorized
    else
      match body_events req with
      | None => Ret InvalidJSON
      | Some evts =>
          bind (processEvents evts) (fun _ => Ret (Processed (List.length evts)))
      end.

End EvmNotify.

(* ====================================================================== *)
(** * Tokens and signatures                                                *)
(* ====================================================================== *)

Module Format.
Import JS.
Local Open Scope char_scope.

(** A string against a sequence of character classes, one per position. *)
Fixpoint matches (classes : list (ascii -> bool)) (s : string) : bool :=
  match classes, s with
  | [], EmptyString => true
  | p :: ps, String c r => p c && matches ps r
  | _, _ => false
  end.

Definition dash (c : ascii) : bool := Ascii.eqb c "-".
Definition is_1_5 (c : ascii) : bool :=
  let n := nat_of_ascii c in (49 <=? n)%nat && (n <=? 53)%nat.
Definition is_89ab (c : ascii) : bool :=
  let l := lower_char c in
  Ascii.eqb l "8" || Ascii.eqb l "9" || Ascii.eqb l "a" || Ascii.eqb l "b".

(** [/^[0-9a-f]{8}-[0-9a-f]{4}-[1-5][0-9a-f]{3}-[89ab][0-9a-f]{3}-[0-9a-f]{12}$/i] *)
Definition isUuid (v : string) : bool :=
  matches (repeat is_hex 8 ++ [dash] ++ repeat is_hex 4 ++ [dash]
           ++ [is_1_5] ++ repeat is_hex 3 ++ [dash]
           ++ [is_89ab] ++ repeat is_hex 3 ++ [dash] ++ repeat is_hex 12) v.

(** The class [[1-9A-HJ-NP-Za-km-z]]. *)
Definition is_base58 (c : ascii) : bool :=
  let n := nat_of_ascii c in
  ((49 <=? n)%nat && (n <=? 57)%nat)
  || ((65 <=? n)%nat && (n <=? 72)%nat)
  || ((74 <=? n)%nat && (n <=? 78)%nat)
  || ((80 <=? n)%nat && (n <=? 90)%nat)
  || ((97 <=? n)%nat && (n <=? 107)%nat)
  || ((109 <=? n)%nat && (n <=? 122)%nat).

(** [/^[1-9A-HJ-NP-Za-km-z]{32,100}$/] *)
Definition isBase58 (v : string) : bool :=
  sall is_base58 v
  && (32 <=? String.length v)%nat && (String.length v <=? 100)%nat.

End Format.

(* ====================================================================== *)
(** * solana-receipt: the client-submitted receipt                         *)
(* ====================================================================== *)

Module SolanaReceipt.
Import JS Store Format.
Local Open Scope string_scope.

(** The body of a POST: the [t] and [signature] fields as strings ([""]
    for a missing one); [None] when the body does not parse. *)
Record request : Type := mkRequest {
  method : string;
  body : option (string * string)
}.

Inductive response : Type :=
| Preflight
| Ok200
| Error (code : Z) (message : string).

Definition http_status (r : response) : Z :=
  match r with
  | Preflight => 200
  | Ok200 => 200
  | Error code _ => code
  end.

Definition select_by_token (t : string) (db : DB) : single invoice :=
  maybeSingle (filter (fun i => String.eqb (public_token i) t) (invoices db)).

Definition serve (req : request) : prog response :=
  if String.eqb (method req) "OPTIONS" then Ret Preflight
  else if negb (String.eqb (method req) "POST") then Ret (Error 405 "Method not allowed")
  else
    match body req with
    | None => Ret (Error 500 "Internal error")
    | Some (t0, sig0) =>
        let t := trim t0 in
        let signature := trim sig0 in
        if negb (isUuid t) then Ret (Error 400 "Invalid token")
        else if negb (isBase58 signature) then Ret (Error 400 "Invalid signature")
        else
          query (select_by_token t) (fun found =>
          match found with
          | ManyRows => Ret (Error 500 "multiple rows returned")
          | NoRow => Ret (Error 404 "Invoice not found")
          | OneRow inv =>
              if negb (status_eqb (status inv) pending) then Ret Ok200
              else
                exec (update_invoices
                        (fun i => String.eqb (public_token i) t)
                        (set_paid_signature signature)) (
                Ret Ok200)
          end)
    end.

End SolanaReceipt.

(* ====================================================================== *)
(** * confirmations: the reconciler sweep and usage recording              *)
(* ====================================================================== *)

Module Confirmations.
Import JS Store.
Local Open Scope string_scope.

(** The answer of a remote call: the [fetch] or the JSON decoding threw,
    or a value came back. *)
Inductive remote (A : Type) : Type :=
| Threw
| Answer (a : A).
Arguments Threw {A}.
Arguments Answer {A} a.

(** What one sweep sees of the outside world. *)
Record world : Type := mkWorld {
  (** [ALCHEMY_HTTP || QUICKNODE_HTTP] is set *)
  RPC_URL : bool;
  (** [parseInt(json.result, 16)] of [eth_blockNumber] *)
  eth_blockNumber : remote Z;
  (** per hash: the block number of the receipt, [None] when there is no
      receipt or it carries no block number *)
  eth_getTransactionReceipt : string -> remote (option Z);
  (** per signature: whether [confirmationStatus] is ['finalized'] *)
  getSignatureStatuses : string -> remote bool;
  (** per CoinGecko id: [Number(json?.[id]?.usd)] *)
  coingecko_usd : string -> remote number;
  (** [new Date()] while the given invoice is handled, and its UTC month *)
  clock : string -> timestamp;
  clock_month : string -> month_key
}.

Definition SYMBOL_TO_ID (sym : string) : option string :=
  if String.eqb sym "SOL" then Some "solana"
  else if String.eqb sym "USDC" then Some "usd-coin"
  else if String.eqb sym "USDT" then Some "tether"
  else None.

(** [getUsdPrice]: a finite price, or [null]. *)
Definition getUsdPrice (w : world) (symbol : string) : option Q :=
  let sym := toUpperCase symbol in
  if String.eqb sym "USDC" || String.eqb sym "USDT" then Some 1%Q
  else
    match SYMBOL_TO_ID sym with
    | None => None
    | Some id =>
        match coingecko_usd w id with
        | Answer (Fin v) => Some v
        | _ => None
        end
    end.

(** [upsert({ id }, { onConflict: 'id' })] on [merchants]. *)
Definition ensure_merchant (mid : string) (db : DB) : DB :=
  if existsb (fun m => String.eqb (merchant_id m) mid) (merchants db) then db
  else with_merchants (merchants db ++ [mkMerchant mid "trial" None]) db.

Definition select_usage (mid : string) (mk : month_key) (db : DB) : option usage_row :=
  find (fun u => String.eqb (usage_merchant_id u) mid && month_eqb (month u) mk) (usage db).

(** [upsert(row, { onConflict: 'merchant_id,month' })] *)
Definition upsert_usage (row : usage_row) (db : DB) : DB :=
  let same u :=
    String.eqb (usage_merchant_id u) (usage_merchant_id row)
    && month_eqb (month u) (month row) in
  if existsb same (usage db)
  then with_usage (map (fun u => if same u then row else u) (usage db)) db
  else with_usage (usage db ++ [row]) db.

Definition insert_ledger (row : ledger_row) (db : DB) : DB :=
  with_ledger (ledger db ++ [row]) db.

Definition recordUsage (w : world) (inv : invoice) : prog unit :=
  let merchantId := user_id inv in
  if negb (nonempty merchantId) then Ret tt
  else
    let amountCrypto := amount inv in
    let cur := toUpperCase (currency inv) in
    if Qeq_bool amountCrypto 0 || negb (nonempty cur) then Ret tt
    else
      match getUsdPrice w cur with
      | None => Ret tt
      | Some price =>
          if Qeq_bool price 0 then Ret tt
          else
            let usd := (amountCrypto * price)%Q in
            let usdCents := Math_round (usd * (100 # 1))%Q in
            let monthStr := clock_month w (inv_id inv) in
            exec (ensure_merchant merchantId) (
            query (select_usage merchantId monthStr) (fun found =>
            let prev := match found with Some u => gmv_cents u | None => 0%Z end in
            let next := (prev + usdCents)%Z in
            exec (upsert_usage (mkUsage merchantId monthStr next)) (
            exec (insert_ledger
                    (mkLedger merchantId (inv_id inv) cur amountCrypto usdCents)) (
            Ret tt))))
      end.

(** [select ... where status = 'paid' and detected_tx_hash is not null limit 50] *)
Definition select_paid (db : DB) : list invoice :=
  firstn 50
    (filter (fun i => status_eqb (status i) paid
                      && match detected_tx_hash i with Some _ => true | None => false end)
            (invoices db)).

Definition by_id (inv : invoice) (i : invoice) : bool := String.eqb (inv_id i) (inv_id inv).

(** [update payments set confirmations = n where invoice_id = id] *)
Definition update_payment_confirmations (id : string) (n : Z) (db : DB) : DB :=
  with_payments
    (map (fun p => if String.eqb (pay_invoice_id p) id
                   then mkPayment (pay_invoice_id p) (chain p) (tx_hash p) (pay_amount p) n
                   else p)
         (payments db)) db.

Definition is_evm (net : option string) : bool :=
  col_eq net "ethereum" || col_eq net "polygon" || col_eq net "bsc".

(** The body of the [for] loop for one invoice of the batch.  The result
    is [false] when an exception leaves the loop, [true] when the loop goes
    on to the next invoice. *)
Definition visit (w : world) (tip : Z) (inv : invoice) : prog bool :=
  let hash := withDefault (detected_tx_hash inv) "" in
  if col_eq (network inv) "solana" then
    match getSignatureStatuses w hash with
    | Answer true =>
        exec (update_invoices (by_id inv) (set_confirmed (clock w (inv_id inv)))) (
        bind (recordUsage w inv) (fun _ =>
        Ret true))
    | _ => Ret true
    end
  else if is_evm (network inv) then
    if negb (RPC_URL w) then Ret true
    else
      match eth_getTransactionReceipt w hash with
      | Threw => Ret false
      | Answer None => Ret true
      | Answer (Some txBlock) =>
          let confs := Z.max 0 (tip - txBlock + 1) in
          if (confs >=? withDefault (confirmations_required inv) 1)%Z then
            exec (update_invoices (by_id inv) (set_confirmed (clock w (inv_id inv)))) (
            exec (update_payment_confirmations (inv_id inv) confs) (
            bind (recordUsage w inv) (fun _ =>
            Ret true)))
          else
            exec (update_payment_confirmations (inv_id inv) confs) (
            Ret true)
      end
  else Ret true.

(** The [for] loop over the batch; [false] when an exception ended it. *)
Fixpoint sweep (w : world) (tip : Z) (batch : list invoice) : prog bool :=
  match batch with
  | [] => Ret true
  | inv :: rest =>
      bind (visit w tip inv) (fun goes_on =>
      if goes_on then sweep w tip rest else Ret false)
  end.

Inductive response : Type :=
| Checked (n : nat)
| Uncaught.

Definition serve (w : world) : prog response :=
  query select_paid (fun batch =>
  match batch with
  | [] => Ret (Checked 0)
  | _ =>
      match (if RPC_URL w then eth_blockNumber w else Answer 0%Z) with
      | Threw => Ret Uncaught
      | Answer tip =>
          bind (sweep w tip batch) (fun completed =>
          Ret (if completed then Checked (List.length batch) else Uncaught))
      end
  end).

End Confirmations.

(* ====================================================================== *)
(** * invoice-public: the public invoice read                              *)
(* ====================================================================== *)

Module InvoicePublic.
Import JS Store Format.
Local Open Scope string_scope.

(** The token as the handler reads it: the [t] query parameter of a GET,
    the [t] field of a POST body, [""] when absent. *)
Record request : Type := mkRequest {
  method : string;
  token : string
}.

Record sibling : Type := mkSibling {
  sibling_currency : string;
  sibling_public_token : string
}.

Inductive response : Type :=
| Preflight
| Error (code : Z) (message : string)
| Found (inv : invoice) (siblings : list sibling).

Definition in_view (s : invoice_status) : bool :=
  status_eqb s pending || status_eqb s paid || status_eqb s confirmed.

(** The [where] clause of the sibling query. *)
Definition sibling_of (data : invoice) (i : invoice) : bool :=
  String.eqb (user_id i) (user_id data)
  && Qeq_bool (amount i) (amount data)
  && in_view (status i)
  && opt_string_eqb (reference i) (reference data).

Definition select_siblings (data : invoice) (db : DB) : list sibling :=
  map (fun r => mkSibling (currency r) (public_token r))
      (order_created_desc (filter (sibling_of data) (invoices db))).

Definition serve (req : request) : prog response :=
  if String.eqb (method req) "OPTIONS" then Ret Preflight
  else if negb (String.eqb (method req) "GET" || String.eqb (method req) "POST")
  then Ret (Error 405 "Method not allowed")
  else if negb (nonempty (token req)) || negb (isUuid (token req))
  then Ret (Error 400 "Invalid token")
  else
    query (SolanaReceipt.select_by_token (token req)) (fun found =>
    match found with
    | ManyRows => Ret (Error 500 "multiple rows returned")
    | NoRow => Ret (Error 404 "Not found")
    | OneRow data =>
        query (select_siblings data) (fun siblings =>
        Ret (Found data siblings))
    end).

End InvoicePublic.

(* ====================================================================== *)
(** * buy: invoice issuance behind the entitlement check                   *)
(* ====================================================================== *)

Module Buy.
Import JS Store.
Import Confirmations(remote, Threw, Answer).
Local Open Scope string_scope.

Definition DEFAULT_NETWORK (c : string) : option string :=
  if String.eqb c "SOL" || String.eqb c "USDC" || String.eqb c "USDT"
  then Some "solana" else None.

Definition SYMBOL_TO_COINGECKO_ID (c : string) : option string :=
  if String.eqb c "SOL" then Some "solana"
  else if String.eqb c "USDC" then Some "usd-coin"
  else if String.eqb c "USDT" then Some "tether"
  else None.

Definition SYMBOL_DECIMALS (c : string) : option Z :=
  if String.eqb c "SOL" || String.eqb c "USDC" || String.eqb c "USDT"
  then Some 6%Z else None.

Definition supported (c : string) : bool :=
  String.eqb c "SOL" || String.eqb c "USDC" || String.eqb c "USDT".

(** The query string: [m], [c], [r], [u] as [searchParams.get] returns them
    ([None] for an absent parameter), [parseFloat] of [a], and whether
    [usd] is present. *)
Record request : Type := mkRequest {
  q_m : option string;
  q_a : number;
  q_c : option string;
  q_r : option string;
  q_u : option string;
  q_usd : bool
}.

(** The environment of one invocation. *)
Record world : Type := mkWorld {
  (** [PROJECT_URL] and [SERVICE_ROLE_KEY] are both set *)
  configured : bool;
  SUBSCRIPTIONS_ENABLED : option string;
  (** [new Date()] and the first day of its UTC month *)
  now : timestamp;
  now_month : month_key;
  (** per CoinGecko id: [Number(priceJson?.[id]?.usd)] *)
  coingecko_usd : string -> remote number;
  (** the defaults the store gives the inserted row *)
  new_id : string;
  new_public_token : string
}.

Inductive response : Type :=
| Text (code : Z) (message : string)
| Denied (code : string)
| RedirectBilling (base : string)
| RedirectInvoice (base : string) (token : string) (usd : option number)
| Created (token : string).

Definition http_status (r : response) : Z :=
  match r with
  | Text code _ => code
  | Denied _ => 402
  | RedirectBilling _ => 302
  | RedirectInvoice _ _ _ => 302
  | Created _ => 200
  end.

Definition select_merchant (mid : string) (db : DB) : option merchant :=
  find (fun m => String.eqb (merchant_id m) mid) (merchants db).

Definition select_gmv (mid : string) (mk : month_key) (db : DB) : option usage_row :=
  find (fun u => String.eqb (usage_merchant_id u) mid && month_eqb (month u) mk) (usage db).

(** [null] (here [None]) lets the request through. *)
Definition assertMerchantEntitled (w : world) (merchantId : string)
  : prog (option response) :=
  let enabled := String.eqb (trim (withDefault (SUBSCRIPTIONS_ENABLED w) "")) "1" in
  if negb enabled then Ret None
  else if negb (nonempty merchantId) then Ret None
  else
    query (select_merchant merchantId) (fun found =>
    match found with
    | None => Ret None
    | Some merchant =>
        let tier := if nonempty (plan_tier merchant) then plan_tier merchant else "trial" in
        let trial_running :=
          match trial_ends_at merchant with
          | Some trialEnds => (now w <? trialEnds)%Z
          | None => false
          end in
        if trial_running then Ret None
        else if String.eqb tier "pro_100" then Ret None
        else if String.eqb tier "canceled" || String.eqb tier "past_due"
        then Ret (Some (Denied "entitlement_blocked"))
        else if String.eqb tier "basic_50" || String.eqb tier "trial" then
          query (select_gmv merchantId (now_month w)) (fun usage =>
          let gmvCents := match usage with Some u => gmv_cents u | None => 0%Z end in
          if (gmvCents >=? 1000000)%Z then Ret (Some (Denied "upgrade_required"))
          else Ret None)
        else Ret None
    end).

Definition select_wallet (m c : string) (db : DB) : option wallet :=
  find (fun x => String.eqb (wallet_user_id x) m && String.eqb (wallet_currency x) c)
       (wallets db).

Definition insert_invoice (i : invoice) (db : DB) : DB :=
  with_invoices (invoices db ++ [i]) db.

(** [u.endsWith('/') ? u.slice(0, -1) : u] *)
Definition strip_slash (u : string) : string :=
  match srev u with
  | String "/"%char r => srev r
  | _ => u
  end.

(** The USD branch of the handler: the crypto amount to persist, or the
    response that ends the request. *)
Inductive conversion : Type :=
| Converted (amountCrypto : number)
| Failed (resp : response).

Definition convert (w : world) (a : number) (c : string) (aIsUsd : bool) : conversion :=
  if aIsUsd then
    match SYMBOL_TO_COINGECKO_ID c with
    | None => Failed (Text 400 "Unsupported currency for USD conversion")
    | Some id =>
        match coingecko_usd w id with
        | Threw => Failed (Text 502 "Price fetch failed")
        | Answer usdPrice =>
            if falsy usdPrice || negb (isFinite usdPrice)
            then Failed (Text 502 "Failed to fetch price")
            else
              let dec := withDefault (SYMBOL_DECIMALS c) 6%Z in
              Converted (toFixed_value dec (div a usdPrice))
        end
    end
  else Converted a.

Definition serve (w : world) (req : request) : prog response :=
  let m := trim (withDefault (q_m req) "") in
  let a := q_a req in
  let c := toUpperCase (trim (withDefault (q_c req) "")) in
  let r := trim (withDefault (q_r req) "") in
  let u := trim (withDefault (q_u req) "") in
  let aIsUsd := q_usd req in
  if negb (nonempty m) then Ret (Text 400 "Missing merchant id (m)")
  else if falsy a || isNaN a || leb a (Fin 0) then Ret (Text 400 "Invalid amount (a)")
  else if negb (nonempty c) then Ret (Text 400 "Missing currency (c)")
  else if negb (supported c) then Ret (Text 400 "Unsupported currency")
  else if negb (configured w) then Ret (Text 500 "Missing PROJECT_URL or SERVICE_ROLE_KEY")
  else
    bind (assertMerchantEntitled w m) (fun entitlement =>
    match entitlement with
    | Some resp =>
        if (http_status resp =? 402)%Z && nonempty u
        then Ret (RedirectBilling (strip_slash u))
        else Ret resp
    | None =>
        query (select_wallet m c) (fun found =>
        match found with
        | None => Ret (Text 400 "Merchant has no wallet for currency")
        | Some wlt =>
            let toAddress := address wlt in
            match convert w a c aIsUsd with
            | Failed resp => Ret resp
            | Converted (Fin amountCrypto) =>
                exec (insert_invoice
                        (mkInvoice (new_id w) m amountCrypto c toAddress
                           (if nonempty r then Some r else None)
                           pending (DEFAULT_NETWORK c) (Some 1%Z) None None None
                           (now w) None (new_public_token w))) (
                if nonempty u
                then Ret (RedirectInvoice (strip_slash u) (new_public_token w)
                            (if aIsUsd then Some a else None))
                else Ret (Created (new_public_token w)))
            | Converted _ =>
                (* a non-finite amount serialises to [null]; the insert is refused *)
                Ret (Text 500 "null value in column amount")
            end
        end)
    end).

End Buy.

(* ====================================================================== *)
(** * buy, the earlier handler: issuance with a processing fee             *)
(* ====================================================================== *)

Module BuyWithFee.
Import JS Store.
Import Confirmations(remote, Threw, Answer).
Local Open Scope string_scope.

(** The earlier handler has the request, the environment, the wallet lookup
    and the tables of the later one; it has no entitlement check, and its
    redirect also carries the USD total, [vt]. *)
Inductive response : Type :=
| Text (code : Z) (message : string)
| RedirectInvoice (base : string) (token : string) (usd : option (number * number))
| Created (token : string).

Definition http_status (r : response) : Z :=
  match r with
  | Text code _ => code
  | RedirectInvoice _ _ _ => 302
  | Created _ => 200
  end.

Inductive conversion : Type :=
| Converted (amountCrypto : number)
| Failed (resp : response).

Definition convert (w : Buy.world) (a : number) (c : string) (aIsUsd : bool) : conversion :=
  if aIsUsd then
    match Buy.SYMBOL_TO_COINGECKO_ID c with
    | None => Failed (Text 400 "Unsupported currency for USD conversion")
    | Some id =>
        match Buy.coingecko_usd w id with
        | Threw => Failed (Text 502 "Price fetch failed")
        | Answer usdPrice =>
            if falsy usdPrice || negb (isFinite usdPrice)
            then Failed (Text 502 "Failed to fetch price")
            else
              let dec := withDefault (Buy.SYMBOL_DECIMALS c) 6%Z in
              Converted (toFixed_value dec (div a usdPrice))
        end
    end
  else Converted a.

(** [amountCrypto * 1.01], to the decimals of the currency. *)
Definition with_fee (c : string) (amountCrypto : number) : number :=
  let dec := withDefault (Buy.SYMBOL_DECIMALS c) 6%Z in
  toFixed_value dec (mul amountCrypto (Fin (101 # 100))).

Definition serve (w : Buy.world) (req : Buy.request) : prog response :=
  let m := trim (withDefault (Buy.q_m req) "") in
  let a := Buy.q_a req in
  let c := toUpperCase (trim (withDefault (Buy.q_c req) "")) in
  let r := trim (withDefault (Buy.q_r req) "") in
  let u := trim (withDefault (Buy.q_u req) "") in
  let aIsUsd := Buy.q_usd req in
  if negb (nonempty m) then Ret (Text 400 "Missing merchant id (m)")
  else if falsy a || isNaN a || leb a (Fin 0) then Ret (Text 400 "Invalid amount (a)")
  else if negb (nonempty c) then Ret (Text 400 "Missing currency (c)")
  else if negb (Buy.supported c) then Ret (Text 400 "Unsupported currency")
  else if negb (Buy.configured w) then Ret (Text 500 "Missing PROJECT_URL or SERVICE_ROLE_KEY")
  else
    query (Buy.select_wallet m c) (fun found =>
    match found with
    | None => Ret (Text 400 "Merchant has no wallet for currency")
    | Some wlt =>
        let toAddress := address wlt in
        match convert w a c aIsUsd with
        | Failed resp => Ret resp
        | Converted amountCrypto =>
            match with_fee c amountCrypto with
            | Fin amountWithFee =>
                exec (Buy.insert_invoice
                        (mkInvoice (Buy.new_id w) m amountWithFee c toAddress
                           (if nonempty r then Some r else None)
                           pending (Buy.DEFAULT_NETWORK c) (Some 1%Z) None None None
                           (Buy.now w) None (Buy.new_public_token w))) (
                if nonempty u
                then Ret (RedirectInvoice (Buy.strip_slash u) (Buy.new_public_token w)
                            (if aIsUsd
                             then Some (a, toFixed_value 2 (mul a (Fin (101 # 100))))
                             else None))
                else Ret (Created (Buy.new_public_token w)))
            | _ =>
                (* a non-finite amount serialises to [null]; the insert is refused *)
                Ret (Text 500 "null value in column amount")
            end
        end
    end).

End BuyWithFee.

(* ====================================================================== *)
(** * confirmations, the earlier sweep: no usage recording                 *)
(* ====================================================================== *)

Module ConfirmationsBare.
Import JS Store.
Import Confirmations(remote, Threw, Answer, world, RPC_URL, eth_blockNumber,
                     eth_getTransactionReceipt, getSignatureStatuses, clock,
                     select_paid, by_id, update_payment_confirmations, is_evm,
                     response, Checked, Uncaught).
Local Open Scope string_scope.

Definition visit (w : world) (tip : Z) (inv : invoice) : prog bool :=
  let hash := withDefault (detected_tx_hash inv) "" in
  if col_eq (network inv) "solana" then
    match getSignatureStatuses w hash with
    | Answer true =>
        exec (update_invoices (by_id inv) (set_confirmed (clock w (inv_id inv)))) (
        Ret true)
    | _ => Ret true
    end
  else if is_evm (network inv) then
    if negb (RPC_URL w) then Ret true
    else
      match eth_getTransactionReceipt w hash with
      | Threw => Ret false
      | Answer None => Ret true
      | Answer (Some txBlock) =>
          let confs := Z.max 0 (tip - txBlock + 1) in
          if (confs >=? withDefault (confirmations_required inv) 1)%Z then
            exec (update_invoices (by_id inv) (set_confirmed (clock w (inv_id inv)))) (
            exec (update_payment_confirmations (inv_id inv) confs) (
            Ret true))
          else
            exec (update_payment_confirmations (inv_id inv) confs) (
            Ret true)
      end
  else Ret true.

Fixpoint sweep (w : world) (tip : Z) (batch : list invoice) : prog bool :=
  match batch with
  | [] => Ret true
  | inv :: rest =>
      bind (visit w tip inv) (fun goes_on =>
      if goes_on then sweep w tip rest else Ret false)
  end.

Definition serve (w : world) : prog response :=
  query select_paid (fun batch =>
  match batch with
  | [] => Ret (Checked 0)
  | _ =>
      match (if RPC_URL w then eth_blockNumber w else Answer 0%Z) with
      | Threw => Ret Uncaught
      | Answer tip =>
          bind (sweep w tip batch) (fun completed =>
          Ret (if completed then Checked (List.length batch) else Uncaught))
      end
  end).

End ConfirmationsBare.

(* ====================================================================== *)
(** * billing-webhook: subscription state from Stripe events               *)
(* ====================================================================== *)

Module BillingWebhook.
Import JS.
Import Store(timestamp, single, NoRow, OneRow, ManyRows, maybeSingle).
Local Open Scope string_scope.

(** A row of [merchants], with the columns this handler writes.  Instants
    are milliseconds since the epoch. *)
Record merchant_row : Type := mkRow {
  id : string;
  stripe_customer_id : option string;
  stripe_subscription_id : option string;
  plan_tier : string;
  trial_ends_at : option timestamp;
  current_period_start : option timestamp;
  current_period_end : option timestamp
}.

(** The secrets, each [Deno.env.get(...) || '']. *)
Record env : Type := mkEnv {
  STRIPE_SECRET_KEY : string;
  STRIPE_WEBHOOK_SECRET : string;
  PRICE_BASIC_50 : string;
  PRICE_PRO_100 : string
}.

(** [o === v] for a string [v]. *)
Definition equals (o : option string) (v : string) : bool :=
  match o with Some s => String.eqb s v | None => false end.

(** [o || null] *)
Definition truthy (o : option string) : option string :=
  match o with
  | Some s => if nonempty s then Some s else None
  | None => None
  end.

(** [String(o || '')] for an id that is a string when present. *)
Definition str (o : option string) : string := withDefault (truthy o) "".

(** [n || null] *)
Definition nonzero (o : option Z) : option Z :=
  match o with
  | Some n => if (n =? 0)%Z then None else Some n
  | None => None
  end.

Definition tierMatchesEnv (envValue : string) (priceId productId : option string) : bool :=
  if negb (nonempty envValue) then false
  else if String.prefix "price_" envValue then equals priceId envValue
  else if String.prefix "prod_" envValue then equals productId envValue
  else equals priceId envValue || equals productId envValue.

Definition priceToTier (e : env) (priceId productId : option string) : option string :=
  if tierMatchesEnv (PRICE_PRO_100 e) priceId productId then Some "pro_100"
  else if tierMatchesEnv (PRICE_BASIC_50 e) priceId productId then Some "basic_50"
  else None.

Record params : Type := mkParams {
  merchantId : option string;
  stripeCustomerId : option string;
  stripeSubscriptionId : option string;
  planTier : option string;
  trialEndsAt : option Z;
  periodStart : option Z;
  periodEnd : option Z
}.

(** The object handed to [upsert]: the key and the columns that are set. *)
Record patch : Type := mkPatch {
  set_id : string;
  set_stripe_customer_id : option string;
  set_stripe_subscription_id : option string;
  set_plan_tier : option string;
  set_trial_ends_at : option timestamp;
  set_current_period_start : option timestamp;
  set_current_period_end : option timestamp
}.

(** [on conflict (id) do update]: the columns of the patch replace the
    row's, the others stay. *)
Definition merge (p : patch) (r : merchant_row) : merchant_row :=
  mkRow (id r)
    (orElse (set_stripe_customer_id p) (stripe_customer_id r))
    (orElse (set_stripe_subscription_id p) (stripe_subscription_id r))
    (withDefault (set_plan_tier p) (plan_tier r))
    (orElse (set_trial_ends_at p) (trial_ends_at r))
    (orElse (set_current_period_start p) (current_period_start r))
    (orElse (set_current_period_end p) (current_period_end r)).

(** The row a patch inserts: [plan_tier] defaults to ['trial'], the other
    columns to [null]. *)
Definition inserted (p : patch) : merchant_row :=
  mkRow (set_id p) (set_stripe_customer_id p) (set_stripe_subscription_id p)
    (withDefault (set_plan_tier p) "trial")
    (set_trial_ends_at p) (set_current_period_start p) (set_current_period_end p).

(** [upsert(row, { onConflict: 'id' })] *)
Definition upsert (p : patch) (rows : list merchant_row) : list merchant_row :=
  if existsb (fun r => String.eqb (id r) (set_id p)) rows
  then map (fun r => if String.eqb (id r) (set_id p) then merge p r else r) rows
  else rows ++ [inserted p].

Definition select_by_customer (c : string) (rows : list merchant_row) : single merchant_row :=
  maybeSingle (filter (fun r => equals (stripe_customer_id r) c) rows).

(** [new Date(seconds * 1000).toISOString()]: [None] when the instant is
    outside the range of [Date] and [toISOString] throws. *)
Definition toISOString (seconds : Z) : option timestamp :=
  let ms := (seconds * 1000)%Z in
  if (Z.abs ms <=? 8640000000000000)%Z then Some ms else None.

(** A column set from an optional epoch second: [None] when the conversion
    throws, [Some None] when the column is left out. *)
Definition column (seconds : option Z) : option (option timestamp) :=
  match seconds with
  | None => Some None
  | Some s => match toISOString s with Some t => Some (Some t) | None => None end
  end.

(** [upsertMerchantState]: the table afterwards, [None] when it throws
    (before anything is written). *)
Definition upsertMerchantState (randomUUID : string) (p : params)
  (rows : list merchant_row) : option (list merchant_row) :=
  let customer := truthy (stripeCustomerId p) in
  let id0 := truthy (merchantId p) in
  let id1 :=
    match id0, customer with
    | None, Some c =>
        match select_by_customer c rows with
        | OneRow r => truthy (Some (id r))
        | _ => None
        end
    | _, _ => id0
    end in
  let id2 :=
    match id1, customer with
    | None, Some _ => Some randomUUID
    | _, _ => id1
    end in
  match column (trialEndsAt p), column (periodStart p), column (periodEnd p) with
  | Some trial, Some pstart, Some pend =>
      match truthy id2 with
      | None => Some rows
      | Some key =>
          Some (upsert (mkPatch key customer (truthy (stripeSubscriptionId p))
                          (planTier p) trial pstart pend) rows)
      end
  | _, _, _ => None
  end.

(** [item.price.product]: an id, or an expanded object with its [id] (also
    standing for no product at all). *)
Inductive product : Type :=
| ProductId (s : string)
| ProductObject (id : option string).

(** What the handler reads of a [Stripe.Subscription]; the price and the
    product are those of the first item. *)
Record subscription : Type := mkSubscription {
  sub_customer : option string;
  sub_id : string;
  sub_status : option string;
  sub_price_id : option string;
  sub_product : product;
  sub_trial_end : option Z;
  sub_current_period_start : option Z;
  sub_current_period_end : option Z
}.

(** A verified event, by [event.type]; the three [customer.subscription.*]
    types share one case. *)
Inductive event : Type :=
| checkout_session_completed (customer subscription merchant_id : option string)
| customer_subscription (sub : subscription)
| invoice_paid (subscription customer : option string)
| invoice_payment_failed (subscription customer : option string)
| other.

(** The plan tier a subscription event writes; [None] leaves the column. *)
Definition subscription_tier (e : env) (sub : subscription) : option string :=
  let status := str (sub_status sub) in
  let priceId := truthy (sub_price_id sub) in
  let productId :=
    match sub_product sub with
    | ProductId s => Some s
    | ProductObject o => truthy o
    end in
  let planTier := priceToTier e priceId productId in
  let planTier :=
    if String.eqb status "trialing" then Some (withDefault planTier "basic_50")
    else planTier in
  let planTier :=
    if String.eqb status "active" then Some (withDefault planTier "basic_50")
    else planTier in
  let planTier :=
    if String.eqb status "past_due" || String.eqb status "unpaid" then Some "past_due"
    else planTier in
  let planTier :=
    if String.eqb status "canceled" || String.eqb status "incomplete_expired"
    then Some "canceled"
    else planTier in
  planTier.

(** The [switch] over the event type. *)
Definition handle (e : env) (randomUUID : string) (ev : event)
  (rows : list merchant_row) : option (list merchant_row) :=
  match ev with
  | checkout_session_completed customer sub merchant_id =>
      upsertMerchantState randomUUID
        (mkParams (truthy merchant_id) (Some (str customer)) (Some (str sub))
                  None None None None) rows
  | customer_subscription sub =>
      upsertMerchantState randomUUID
        (mkParams None (Some (str (sub_customer sub))) (Some (sub_id sub))
                  (subscription_tier e sub)
                  (nonzero (sub_trial_end sub))
                  (nonzero (sub_current_period_start sub))
                  (nonzero (sub_current_period_end sub))) rows
  | invoice_paid sub customer =>
      upsertMerchantState randomUUID
        (mkParams None (Some (str customer)) (Some (str sub)) None None None None) rows
  | invoice_payment_failed sub customer =>
      upsertMerchantState randomUUID
        (mkParams None (Some (str customer)) (Some (str sub)) (Some "past_due")
                  None None None) rows
  | other => Some rows
  end.

(** A delivery: the method, the event [constructEventAsync] returns
    ([None] when it throws), and the value of [crypto.randomUUID()]. *)
Record request : Type := mkRequest {
  method : string;
  verified : option event;
  randomUUID : string
}.

Inductive response : Type :=
| Error (code : Z) (message : string)
| Received.

Definition http_status (r : response) : Z :=
  match r with
  | Error code _ => code
  | Received => 200
  end.

Definition serve (e : env) (req : request) (rows : list merchant_row)
  : response * list merchant_row :=
  if negb (String.eqb (method req) "POST") then (Error 405 "Method not allowed", rows)
  else if negb (nonempty (STRIPE_SECRET_KEY e)) || negb (nonempty (STRIPE_WEBHOOK_SECRET e))
  then (Error 500 "Stripe not configured", rows)
  else
    match verified req with
    | None => (Error 400 "Invalid signature", rows)
    | Some ev =>
        match handle e (randomUUID req) ev rows with
        | None => (Error 500 "Webhook handler failed", rows)
        | Some rows' => (Received, rows')
        end
    end.

End BillingWebhook.

(* ====================================================================== *)
(** * solana-pay: amounts in minor units                                   *)
(* ====================================================================== *)

Module SolanaPay.
Import JS.
Local Open Scope string_scope.

(** The text up to the first dot, and what follows that dot if there is one. *)
Fixpoint until_dot (s : string) : string * option string :=
  match s with
  | EmptyString => (EmptyString, None)
  | String c r =>
      if Ascii.eqb c "."%char then (EmptyString, Some r)
      else let '(a, b) := until_dot r in (String c a, b)
  end.

(** [const [i, f = ''] = s.split('.')] *)
Definition split_dot (s : string) : string * string :=
  let '(i, rest) := until_dot s in
  match rest with
  | None => (i, "")
  | Some r => (i, fst (until_dot r))
  end.

(** ['0'.repeat(n)] *)
Fixpoint zeros (n : nat) : string :=
  match n with
  | O => EmptyString
  | S k => String "0"%char (zeros k)
  end.

(** [s.slice(0, n)] *)
Fixpoint take (n : nat) (s : string) : string :=
  match n, s with
  | S k, String c r => String c (take k r)
  | _, _ => EmptyString
  end.

Definition radix_literal (base : Z) (ok : ascii -> bool) (ds : string) : option Z :=
  if nonempty ds && sall ok ds then Some (digits_val base 0 ds) else None.

(** [BigInt(s)] for a string (ECMAScript [StringToBigInt]); [None] is the
    [SyntaxError]. *)
Definition StringToBigInt (s : string) : option Z :=
  let t := trim s in
  let decimal (sign : Z) (ds : string) :=
    if all_digits ds then Some (sign * digits_val 10 0 ds)%Z else None in
  match t with
  | EmptyString => Some 0%Z
  | String "0"%char (String x ds) =>
      if (Ascii.eqb x "x" || Ascii.eqb x "X")%char then radix_literal 16 is_hex ds
      else if (Ascii.eqb x "o" || Ascii.eqb x "O")%char then radix_literal 8 is_oct ds
      else if (Ascii.eqb x "b" || Ascii.eqb x "B")%char then radix_literal 2 is_bin ds
      else decimal 1%Z t
  | String "-"%char r => decimal (-1)%Z r
  | String "+"%char r => decimal 1%Z r
  | _ => decimal 1%Z t
  end.

(** [toMinorUnits(amount, decimals)], on [s = String(amount)]. *)
Definition toMinorUnits (s : string) (decimals : nat) : option Z :=
  let '(i, f) := split_dot s in
  let frac := take decimals (f ++ zeros decimals) in
  StringToBigInt ((if nonempty i then i else "0") ++ (if nonempty frac then frac else "")).

Definition MAX_SAFE_INTEGER : Z := 2 ^ 53 - 1.

(** [bigToNumberSafe]: [None] is the ['Amount too large'] error. *)
Definition bigToNumberSafe (v : Z) : option Z :=
  if (v >? MAX_SAFE_INTEGER)%Z then None else Some v.

End SolanaPay.

(* ====================================================================== *)
(** * Vocabulary of the specification                                      *)
(* ====================================================================== *)

Module Spec.
Import JS Store.
Local Open Scope string_scope.

(** ** Life cycle *)



(** Two states of the [invoices] table, row by row. *)
Definition rows_related (R : invoice -> invoice -> Prop) (db db' : DB) : Prop :=
  Forall2 R (invoices db) (invoices db').



(** One ingestion write: the row is kept, or it was open and is now paid. *)
Definition paid_step (i i' : invoice) : Prop :=
  i' = i
  \/ ((status i = pending \/ status i = draft)
      /\ inv_id i' = inv_id i /\ status i' = paid).

(** One client-receipt write: the row is kept, or it was pending and now
    is paid with the submitted signature. *)
Definition receipt_step (i i' : invoice) : Prop :=
  i' = i \/ (status i = pending /\ exists sig, i' = set_paid_signature sig i).



(** ** The webhook *)

(** The value an event carries: [value ?? amount ?? tokenValue]. *)
Definition value_of (evt : EvmNotify.event) : value :=
  nullish (EvmNotify.e_value evt)
          (nullish (EvmNotify.e_amount evt) (EvmNotify.e_tokenValue evt)).

(** The value is missing, [null], or a string that is not a number. *)
Definition value_unusable (evt : EvmNotify.event) : Prop :=
  value_of evt = VUndef \/ value_of evt = VNull
  \/ exists s, value_of evt = VStr s /\ StringToNumber s = NaN.


(** The [Payment] row an accepted event leaves behind. *)
Definition payment_of (pf : EvmNotify.platform) (evt : EvmNotify.event) (inv : invoice)
  : payment :=
  let f := EvmNotify.extractFields evt in
  mkPayment (inv_id inv) (EvmNotify.f_network f)
    (if nonempty (EvmNotify.f_txHash f) then EvmNotify.f_txHash f
     else EvmNotify.randomUUID pf)
    (EvmNotify.f_amount f) 0.

(** The hash an accepted event records on the invoice: [txHash || null]. *)
Definition hash_of (evt : EvmNotify.event) : option string :=
  let f := EvmNotify.extractFields evt in
  if nonempty (EvmNotify.f_txHash f) then Some (EvmNotify.f_txHash f) else None.


(** ** Races *)



(** A receipt request that passes validation, for token [t] and
    signature [s]. *)
Definition valid_receipt (req : SolanaReceipt.request) (t s : string) : Prop :=
  SolanaReceipt.method req = "POST"
  /\ exists t0 s0,
       SolanaReceipt.body req = Some (t0, s0)
       /\ trim t0 = t /\ trim s0 = s
       /\ Format.isUuid t = true /\ Format.isBase58 s = true.

(** The store once the invoice of token [t] has been signed with [s]. *)
Definition signed (t s : string) (db : DB) : DB :=
  update_invoices (fun i => String.eqb (public_token i) t) (set_paid_signature s) db.




(** ** The reconciler *)


(** What the store holds about one invoice: its rows of [invoices], its
    [payments] and its [payments_ledger] entries. *)
Definition invoices_of (id : string) (db : DB) : list invoice :=
  filter (fun i => String.eqb (inv_id i) id) (invoices db).
Definition payments_of (id : string) (db : DB) : list payment :=
  filter (fun p => String.eqb (pay_invoice_id p) id) (payments db).
Definition ledger_of (id : string) (db : DB) : list ledger_row :=
  filter (fun r => String.eqb (ledger_invoice_id r) id) (ledger db).


(** The ledger row usage recording writes for an invoice, if it writes
    one: the invoice must name its merchant, have a non-zero amount and a
    currency, and the currency must have a non-zero USD price. *)
Definition ledger_entry (w : Confirmations.world) (inv : invoice) : option ledger_row :=
  let cur := toUpperCase (currency inv) in
  if nonempty (user_id inv) && negb (Qeq_bool (amount inv) 0) && nonempty cur then
    match Confirmations.getUsdPrice w cur with
    | Some price =>
        if Qeq_bool price 0 then None
        else Some (mkLedger (user_id inv) (inv_id inv) cur (amount inv)
                     (Math_round (amount inv * price * (100 # 1))%Q))
    | None => None
    end
  else None.

Definition opt_list {A} (o : option A) : list A :=
  match o with Some a => [a] | None => [] end.

(** ** Siblings *)


(** A sibling as the specification words it: same merchant, amount and
    reference, a status in view, and - unless it is the requested invoice
    itself - another currency. *)
Definition stated_sibling (data i : invoice) : Prop :=
  user_id i = user_id data
  /\ (amount i == amount data)%Q
  /\ reference i = reference data
  /\ InvoicePublic.in_view (status i) = true
  /\ (i = data \/ currency i <> currency data).

(** The list returned is exactly the siblings so worded. *)
Definition returns_stated_siblings (db : DB) (data : invoice)
  (sibs : list InvoicePublic.sibling) : Prop :=
  forall s, In s sibs <->
    exists i, In i (invoices db) /\ stated_sibling data i
              /\ s = InvoicePublic.mkSibling (currency i) (public_token i).

(** ** Entitlement *)

(** The tier the entitlement check works with: [plan_tier], read as
    [trial] when empty. *)
Definition tier (m : merchant) : string :=
  if nonempty (plan_tier m) then plan_tier m else "trial".


(** [gmv_cents] of the merchant for the current calendar month, [0] when
    there is no usage row. *)
Definition gmv_this_month (w : Buy.world) (mid : string) (db : DB) : Z :=
  match Buy.select_gmv mid (Buy.now_month w) db with
  | Some u => gmv_cents u
  | None => 0%Z
  end.

(** The feature flag [SUBSCRIPTIONS_ENABLED] is on. *)
Definition subscriptions_on (w : Buy.world) : bool :=
  String.eqb (trim (withDefault (Buy.SUBSCRIPTIONS_ENABLED w) "")) "1".

(** ** Conversion *)




End Spec.

(* ====================================================================== *)
(** * Vocabulary of the further properties                                 *)
(* ====================================================================== *)

Module Laws.
Import JS Store.
Local Open Scope string_scope.

(** ** The webhook *)


(** An invoice as the webhook can address it: the address and the network
    in lower case, the currency in upper case. *)
Definition canonical (i : invoice) : Prop :=
  toLowerCase (to_address i) = to_address i
  /\ toUpperCase (currency i) = currency i
  /\ exists n, network i = Some n /\ toLowerCase n = n.

(** A row after webhook deliveries: it keeps its id, and is either kept
    as it was or was a canonical one. *)
Definition kept_unless_canonical (a b : invoice) : Prop :=
  inv_id b = inv_id a /\ (b = a \/ canonical a).

(** The open invoices an event can be matched to. *)
Definition open_matches (evt : EvmNotify.event) (db : DB) : list invoice :=
  let f := EvmNotify.extractFields evt in
  filter (EvmNotify.open_match (EvmNotify.f_to f) (EvmNotify.f_currency f)
            (EvmNotify.f_network f)) (invoices db).

(** The unique index on [payments.tx_hash]. *)
Definition tx_hashes_unique (db : DB) : Prop := NoDup (map tx_hash (payments db)).

(** The Payment rows recorded under a transaction hash. *)
Definition payments_by_hash (h : string) (db : DB) : list payment :=
  filter (fun p => String.eqb (tx_hash p) h) (payments db).

(** ** The reconciler *)

(** The network is one the sweep has a branch for. *)
Definition on_watched_network (i : invoice) : Prop :=
  col_eq (network i) "solana" = true \/ Confirmations.is_evm (network i) = true.

(** An invoice the sweep can act on. *)
Definition reconcilable (i : invoice) : Prop :=
  status i = paid /\ detected_tx_hash i <> None /\ on_watched_network i.

(** A row after a sweep: kept, or it was reconcilable and has been
    confirmed, all its other columns unchanged. *)
Definition confirmed_from (a b : invoice) : Prop :=
  b = a \/ (reconcilable a /\ exists t, b = set_confirmed t a).

(** The same when there is no EVM node to ask. *)
Definition confirmed_on_solana (a b : invoice) : Prop :=
  b = a \/ (col_eq (network a) "solana" = true /\ exists t, b = set_confirmed t a).

(** A row while a batch is swept: kept, or it bears the id of a batch
    member that satisfies [ok] and has been confirmed. *)
Definition swept (ok : invoice -> Prop) (batch : list invoice) (a b : invoice) : Prop :=
  b = a
  \/ exists j t, In j batch /\ inv_id a = inv_id j /\ ok j /\ b = set_confirmed t a.

(** The branch of the loop body that can write, for a given world. *)
Definition has_branch (w : Confirmations.world) (j : invoice) : Prop :=
  col_eq (network j) "solana" = true
  \/ (Confirmations.is_evm (network j) = true /\ Confirmations.RPC_URL w = true).

(** ** Usage accounting *)

Definition sumZ (l : list Z) : Z := fold_right Z.add 0%Z l.

(** The primary key of [merchant_usage_monthly]. *)
Definition usage_key (u : usage_row) : string * month_key :=
  (usage_merchant_id u, month u).

Definition usage_keys_unique (db : DB) : Prop := NoDup (map usage_key (usage db)).

(** What [merchant_usage_monthly] holds for a merchant and a month, [0]
    when there is no row. *)
Definition gmv_of_month (m : string) (k : month_key) (db : DB) : Z :=
  match Confirmations.select_usage m k db with
  | Some u => gmv_cents u
  | None => 0%Z
  end.

(** A merchant's usage over all months, and the total of its ledger. *)
Definition merchant_gmv (m : string) (db : DB) : Z :=
  sumZ (map gmv_cents (filter (fun u => String.eqb (usage_merchant_id u) m) (usage db))).

Definition merchant_ledger (m : string) (db : DB) : Z :=
  sumZ (map amount_usd_cents
          (filter (fun r => String.eqb (ledger_merchant_id r) m) (ledger db))).

(** The books of two stores agree: each merchant's usage has moved by as
    much as its ledger, and the usage key has stayed unique. *)
Definition books_follow (db db' : DB) : Prop :=
  usage_keys_unique db'
  /\ forall m,
       (merchant_gmv m db' - merchant_gmv m db
        = merchant_ledger m db' - merchant_ledger m db)%Z.

(** ** Order *)


(** ** Issuance *)



(** ** Subscription state *)

(** The columns of [merchants] that the entitlement check of [buy] selects. *)
Definition entitlement_view (rows : list BillingWebhook.merchant_row) : list merchant :=
  map (fun r => mkMerchant (BillingWebhook.id r) (BillingWebhook.plan_tier r)
                  (BillingWebhook.trial_ends_at r)) rows.

(** The primary key of [merchants]. *)
Definition merchant_ids_unique (rows : list BillingWebhook.merchant_row) : Prop :=
  NoDup (map BillingWebhook.id rows).

(** The events that carry no plan: a completed checkout and a paid invoice. *)
Definition carries_no_plan (ev : BillingWebhook.event) : Prop :=
  match ev with
  | BillingWebhook.checkout_session_completed _ _ _ => True
  | BillingWebhook.invoice_paid _ _ => True
  | BillingWebhook.other => True
  | _ => False
  end.

(** ** From payment to confirmation *)

(** The invoices a sweep selects from, before its limit of 50. *)
Definition awaiting_confirmation (db : DB) : list invoice :=
  filter (fun i => status_eqb (status i) paid
                   && match detected_tx_hash i with Some _ => true | None => false end)
         (invoices db).

(** The tip a sweep works with: [eth_blockNumber] when an RPC URL is set,
    [0] otherwise; [Threw] when the call fails. *)
Definition tip_of (w : Confirmations.world) : Confirmations.remote Z :=
  if Confirmations.RPC_URL w then Confirmations.eth_blockNumber w
  else Confirmations.Answer 0%Z.

(** No receipt lookup of the batch fails on the network. *)
Definition lookups_answer (w : Confirmations.world) (batch : list invoice) : Prop :=
  forall j, In j batch -> Confirmations.is_evm (network j) = true ->
    Confirmations.eth_getTransactionReceipt w (withDefault (detected_tx_hash j) "")
      <> Confirmations.Threw.

(** What a visit does to the rows, Payment rows and ledger entries of its
    own invoice. *)
Definition visit_does (w : Confirmations.world) (tip : Z) (inv : invoice)
    (F : list invoice -> list invoice) (G : list payment -> list payment)
    (L : list ledger_row -> list ledger_row) : Prop :=
  forall d,
    let out := run (Confirmations.visit w tip inv) d in
    fst out = true
    /\ Spec.invoices_of (inv_id inv) (snd out) = F (Spec.invoices_of (inv_id inv) d)
    /\ Spec.payments_of (inv_id inv) (snd out) = G (Spec.payments_of (inv_id inv) d)
    /\ Spec.ledger_of (inv_id inv) (snd out) = L (Spec.ledger_of (inv_id inv) d).

End Laws.
(* ====================================================================== *)
(** * Scenarios: concrete stores, events and requests                      *)
(* ====================================================================== *)

Module Scenario.
Import JS Store.
Local Open Scope string_scope.

Definition token1 : string := "11111111-1111-4111-8111-111111111111".

(** A pending invoice for 1000 USDT on Ethereum that asks for three
    confirmations. *)
Definition inv_usdt : invoice :=
  mkInvoice "inv-1" "m-1" (1000 # 1) "USDT" "0xabc" None pending (Some "ethereum")
    (Some 3%Z) None None None 10%Z None token1.

Definition db_usdt : DB := mkDB [inv_usdt] [] [] [] [] [].

(** A transfer to [0xABC] of the given value of USDT, hash [0xfeed]. *)
Definition transfer (v : value) : EvmNotify.event :=
  EvmNotify.mkEvent (Some "0xABC") None None (Some "0xfeed") None None
    (Some 6%Z) None v VUndef VUndef (Some "usdt") None None None None None None None.

Definition at100 : EvmNotify.platform := EvmNotify.mkPlatform 100%Z "uuid-100".

(** A pending invoice for 2.5 SOL. *)
Definition inv_sol : invoice :=
  mkInvoice "inv-2" "m-1" (5 # 2) "SOL" "9xQeWvG816bUx9EPjHmaT23yvVM2ZWbrrpZb9PusVFin" None
    pending (Some "solana") (Some 1%Z) None None None 20%Z None token1.

Definition db_sol : DB := mkDB [inv_sol] [] [] [] [] [].

Definition sigA : string :=
  "5VERv8NMvzbJMEkV8xnrLkEaWRtSz9CosKDYjCJjBRnbJLgp8uirBgmQpjKhoR4tjF3ZpRzrFmBV6UjKdiSZkQUW".

(** Two receipts for the same invoice, with different signatures. *)
Definition receiptA : SolanaReceipt.request :=
  SolanaReceipt.mkRequest "POST" (Some (token1, sigA)).

(** The same invoice still in draft. *)
Definition inv_sol_draft : invoice :=
  mkInvoice "inv-2" "m-1" (5 # 2) "SOL" "9xqewvg816bux9epjhmat23yvvm2zwbrrpzb9pusvfin" None
    draft (Some "solana") (Some 1%Z) None None None 20%Z None token1.

Definition db_draft : DB := mkDB [inv_sol_draft] [] [] [] [] [].

(** A webhook event paying 2.5 SOL to that address. *)
Definition sol_transfer : EvmNotify.event :=
  EvmNotify.mkEvent (Some "9xQeWvG816bUx9EPjHmaT23yvVM2ZWbrrpZb9PusVFin") None None
    (Some "0xbeef") None None None None (VNum (Fin (5 # 2))) VUndef VUndef
    (Some "SOL") None None None None (Some "solana") None None.

(** A world with an EVM node whose tip is block 100 and which knows the
    receipts of [0xaaa] (block 99) and [0xbbb] (block 98); the lookup of
    [0xdead] fails on the network. *)
Definition node_at_100 : Confirmations.world :=
  Confirmations.mkWorld true (Confirmations.Answer 100%Z)
    (fun h => if String.eqb h "0xdead" then Confirmations.Threw
              else if String.eqb h "0xaaa" then Confirmations.Answer (Some 99%Z)
              else if String.eqb h "0xbbb" then Confirmations.Answer (Some 98%Z)
              else Confirmations.Answer None)
    (fun _ => Confirmations.Threw)
    (fun _ => Confirmations.Threw)
    (fun _ => 500%Z)
    (fun _ => (2026, 11)%Z).

(** A paid invoice on Ethereum asking for three confirmations. *)
Definition paid_evm (id cur hash : string) : invoice :=
  mkInvoice id "m-1" (1000 # 1) cur "0xabc" None paid (Some "ethereum")
    (Some 3%Z) (Some hash) (Some 100%Z) None 10%Z None token1.


(** The same in USDT, with its Payment row. *)
Definition db_paid_usdt : DB :=
  mkDB [paid_evm "inv-usdt" "USDT" "0xbbb"]
       [mkPayment "inv-usdt" "ethereum" "0xbbb" (Fin (1000 # 1)) 0] [] [] [] [].

(** Two paid invoices; the receipt lookup of the first fails on the
    network, the transaction of the second has its three confirmations. *)
Definition db_two : DB :=
  mkDB [paid_evm "inv-a" "USDT" "0xdead"; paid_evm "inv-b" "USDT" "0xbbb"] [] [] [] [] [].

(** The same two, the first one's transaction simply not mined yet. *)
Definition db_two_missing : DB :=
  mkDB [paid_evm "inv-a" "USDT" "0xccc"; paid_evm "inv-b" "USDT" "0xbbb"] [] [] [] [] [].

Definition token2 : string := "22222222-2222-4222-8222-222222222222".
Definition token3 : string := "33333333-3333-4333-8333-333333333333".

(** An order of 25 units by merchant [m-1] under reference [order-7]. *)
Definition order7 (id cur tok : string) (st : invoice_status) (at_ : Z) : invoice :=
  mkInvoice id "m-1" (25 # 1) cur "9xQeWvG816bUx9EPjHmaT23yvVM2ZWbrrpZb9PusVFin"
    (Some "order-7") st (Some "solana") (Some 1%Z) None None None at_ None tok.


(** Three invoices for the order, one per currency, and a fourth, expired. *)
Definition db_three : DB :=
  mkDB [order7 "inv-1" "USDC" token1 pending 10%Z;
        order7 "inv-2" "USDT" token2 paid 20%Z;
        order7 "inv-3" "SOL" token3 confirmed 30%Z;
        order7 "inv-4" "SOL" "44444444-4444-4444-8444-444444444444" expired 40%Z]
       [] [] [] [] [].

(** A deployment with subscriptions on, in November 2026, whose oracle
    quotes SOL at 1000/7 = 142.857... USD and has no quote for USDT. *)
Definition shop : Buy.world :=
  Buy.mkWorld true (Some "1") 1000%Z (2026, 11)%Z
    (fun id => if String.eqb id "solana" then Confirmations.Answer (Fin (1000 # 7))
               else if String.eqb id "usd-coin" then Confirmations.Answer (Fin 1)
               else Confirmations.Threw)
    "inv-new" token3.

(** A Basic merchant past its trial, with the given usage this month, and
    its SOL and USDT wallets. *)
Definition db_basic (gmv : Z) : DB :=
  mkDB [] [] [mkMerchant "m-1" "basic_50" (Some 900%Z)]
       [mkWallet "m-1" "SOL" "9xQeWvG816bUx9EPjHmaT23yvVM2ZWbrrpZb9PusVFin";
        mkWallet "m-1" "USDT" "9xQeWvG816bUx9EPjHmaT23yvVM2ZWbrrpZb9PusVFin"]
       [mkUsage "m-1" (2026, 11)%Z gmv] [].


(** A delivery of that event, with the shared secret [s3cret]. *)
Definition sol_delivery : EvmNotify.request :=
  EvmNotify.mkRequest "POST" (Some "s3cret") (Some [(at100, sol_transfer)]).

(** The 1000 USDT invoice, still pending, next to a Payment row that
    already carries the hash [0xfeed] for an earlier invoice. *)
Definition db_hash_reused : DB :=
  mkDB [inv_usdt] [mkPayment "inv-0" "ethereum" "0xfeed" (Fin (1000 # 1)) 2] [] [] [] [].

(** The 1000 USDT invoice marked paid from an event that carried no hash. *)
Definition db_unhashed : DB :=
  mkDB [set_paid None (Some 100%Z) inv_usdt] [] [] [] [] [].

(** A deployment without an EVM node: no RPC URL is configured. *)
Definition no_node : Confirmations.world :=
  Confirmations.mkWorld false Confirmations.Threw
    (fun _ => Confirmations.Threw)
    (fun _ => Confirmations.Threw)
    (fun _ => Confirmations.Threw)
    (fun _ => 500%Z)
    (fun _ => (2026, 11)%Z).




(** A Stripe configuration with a Basic price and a Pro product. *)
Definition stripe_env : BillingWebhook.env :=
  BillingWebhook.mkEnv "sk_test" "whsec_test" "price_basic" "prod_pro".

(** A subscription of customer [cus_1] to a price the configuration does
    not know, in the given status. *)
Definition sub_of (status : string) : BillingWebhook.subscription :=
  BillingWebhook.mkSubscription (Some "cus_1") "sub_1" (Some status)
    (Some "price_other") (BillingWebhook.ProductId "prod_other") None None None.

(** The merchants table: [m-1] on Basic, linked to customer [cus_1], its
    trial over since instant 900. *)
Definition merchants_basic : list BillingWebhook.merchant_row :=
  [BillingWebhook.mkRow "m-1" (Some "cus_1") (Some "sub_1") "basic_50" (Some 900%Z)
     None None].

(** A verified delivery of the given event. *)
Definition stripe_delivery (ev : BillingWebhook.event) : BillingWebhook.request :=
  BillingWebhook.mkRequest "POST" (Some ev) "uuid-200".

(** The store of [db_basic] once Stripe has reported a failed payment of
    customer [cus_1]. *)
Definition db_after_failure : DB :=
  mkDB [] [] [mkMerchant "m-1" "past_due" (Some 900%Z)]
       [mkWallet "m-1" "SOL" "9xQeWvG816bUx9EPjHmaT23yvVM2ZWbrrpZb9PusVFin"] [] [].

(** A world whose EVM node, at tip 100, holds the receipt of [0xfeed] in
    block 98, whose Solana node reports the signature [sigA] finalized, and
    where every coin is quoted at 200 USD. *)
Definition both_nodes : Confirmations.world :=
  Confirmations.mkWorld true (Confirmations.Answer 100%Z)
    (fun h => if String.eqb h "0xfeed" then Confirmations.Answer (Some 98%Z)
              else Confirmations.Answer None)
    (fun s => Confirmations.Answer (String.eqb s sigA))
    (fun _ => Confirmations.Answer (Fin (200 # 1)))
    (fun _ => 500%Z)
    (fun _ => (2026, 11)%Z).

End Scenario.
(* ====================================================================== *)
(** * Properties                                                           *)
(* ====================================================================== *)

Import JS Store Spec.
Local Open Scope string_scope.

(** ** Running store programs *)

Lemma run_bind {R S} (p : prog R) (k : R -> prog S) db :
  run (bind p k) db = let '(r, db') := run p db in run (k r) db'.
Proof.
  revert db. induction p as [r | A act k' IH]; intro db; simpl.
  - reflexivity.
  - destruct (act db) as [a db']. apply IH.
Qed.

Lemma run_query {R A} (f : DB -> A) (k : A -> prog R) db :
  run (query f k) db = run (k (f db)) db.
Proof. reflexivity. Qed.

Lemma run_exec {R} (f : DB -> DB) (k : prog R) db :
  run (exec f k) db = run k (f db).
Proof. reflexivity. Qed.

Lemma status_eqb_eq a b : status_eqb a b = true <-> a = b.
Proof. destruct a, b; simpl; split; intro H; try reflexivity; discriminate H. Qed.

(** ** [Number] on digit strings *)

Lemma digit_not_space c : is_digit c = true -> is_space c = false.
Proof.
  unfold is_digit, is_space. intro H.
  apply andb_true_iff in H. destruct H as [H1 H2].
  apply Nat.leb_le in H1. apply Nat.leb_le in H2.
  apply orb_false_iff. split.
  - apply andb_false_iff. right. apply Nat.leb_gt. lia.
  - apply Nat.eqb_neq. lia.
Qed.

Lemma srev_onto_twice s : forall a b, srev_onto (srev_onto s a) b = srev_onto a (append s b).
Proof.
  induction s as [| c r IH]; intros a b; simpl.
  - reflexivity.
  - rewrite IH. reflexivity.
Qed.

Lemma append_empty s : append s EmptyString = s.
Proof. induction s; simpl; congruence. Qed.

Lemma srev_involutive s : srev (srev s) = s.
Proof. unfold srev. rewrite srev_onto_twice. simpl. apply append_empty. Qed.

Lemma sall_srev_onto p s : forall acc, sall p (srev_onto s acc) = sall p s && sall p acc.
Proof.
  induction s as [| c r IH]; intro acc; simpl.
  - reflexivity.
  - rewrite IH. simpl.
    rewrite andb_assoc, (andb_comm (sall p r)), <- andb_assoc. reflexivity.
Qed.

Lemma drop_spaces_digits s : sall is_digit s = true -> drop_spaces s = s.
Proof.
  destruct s as [| c r]; simpl; intro H.
  - reflexivity.
  - apply andb_true_iff in H. destruct H as [Hc _].
    rewrite (digit_not_space _ Hc). reflexivity.
Qed.

Lemma trim_digits s : sall is_digit s = true -> trim s = s.
Proof.
  intro H. unfold trim. rewrite (drop_spaces_digits s H).
  rewrite drop_spaces_digits.
  - apply srev_involutive.
  - unfold srev. rewrite sall_srev_onto. rewrite H. reflexivity.
Qed.

Lemma span_all p s : sall p s = true -> span p s = (s, EmptyString).
Proof.
  induction s as [| c r IH]; simpl; intro H.
  - reflexivity.
  - apply andb_true_iff in H. destruct H as [Hc Hr].
    rewrite Hc, (IH Hr). reflexivity.
Qed.

Lemma parse_digits s :
  all_digits s = true ->
  parse_unsigned_decimal s = Some (inject_Z (digits_val 10 0 s) * pow10 (0 - 0))%Q.
Proof.
  unfold all_digits. intro H. apply andb_true_iff in H. destruct H as [Hn Hd].
  unfold parse_unsigned_decimal. rewrite (span_all _ _ Hd). simpl.
  rewrite Hn. simpl. reflexivity.
Qed.

(** A string of decimal digits is a number. *)
Lemma StringToNumber_digits s :
  all_digits s = true -> exists q, StringToNumber s = Fin q.
Proof.
  intro H. pose proof (parse_digits s H) as P.
  unfold all_digits in H. apply andb_true_iff in H. destruct H as [Hn Hd].
  unfold StringToNumber. rewrite (trim_digits s Hd).
  destruct s as [| c r]; [discriminate Hn |].
  simpl in Hd. apply andb_true_iff in Hd. destruct Hd as [Hc Hr].
  destruct c as [b0 b1 b2 b3 b4 b5 b6 b7].
  destruct b0, b1, b2, b3, b4, b5, b6, b7; try discriminate Hc;
    try (cbv beta iota; rewrite P; eexists; reflexivity).
  destruct r as [| x ds].
  - rewrite P. eexists; reflexivity.
  - simpl in Hr. apply andb_true_iff in Hr. destruct Hr as [Hx _].
    destruct x as [b0 b1 b2 b3 b4 b5 b6 b7].
    destruct b0, b1, b2, b3, b4, b5, b6, b7; try discriminate Hx;
      cbv beta iota; simpl orb; cbv iota; rewrite P; eexists; reflexivity.
Qed.

(** [normalizeAmount] sends a missing value, [null] and a non-numeric
    string to [0]. *)
Lemma normalizeAmount_unusable v d :
  v = VUndef \/ v = VNull \/ (exists s, v = VStr s /\ StringToNumber s = NaN) ->
  EvmNotify.normalizeAmount v d = Fin 0.
Proof.
  intros [-> | [-> | [s [-> Hs]]]]; try reflexivity.
  unfold EvmNotify.normalizeAmount.
  destruct d as [d |].
  - destruct (all_digits s) eqn:Hd.
    + destruct (StringToNumber_digits s Hd) as [q Hq]. congruence.
    + rewrite Hs. reflexivity.
  - rewrite Hs. reflexivity.
Qed.

(** ** The webhook guard *)

(** C10.  An event whose extracted recipient address is empty, whose
    extracted currency is empty, or whose normalized amount is zero makes
    [processEvent] return before its first store call: no invoice lookup,
    no write.  An event whose value is missing, [null] or a non-numeric
    string is among them, its amount being normalized to [0]. *)
Theorem webhook_unusable_event_touches_nothing :
  forall (pf : EvmNotify.platform) (evt : EvmNotify.event),
    let f := EvmNotify.extractFields evt in
    (EvmNotify.f_to f = ""
     \/ EvmNotify.f_currency f = ""
     \/ (exists q, EvmNotify.f_amount f = Fin q /\ (q == 0)%Q)
     \/ value_unusable evt) ->
    (value_unusable evt -> EvmNotify.f_amount f = Fin 0)
    /\ EvmNotify.processEvent pf evt = Ret tt
    /\ forall db, run (EvmNotify.processEvent pf evt) db = (tt, db)
                  /\ calls (EvmNotify.processEvent pf evt) db = 0%nat.
Proof.
  intros pf evt f H.
  assert (Hv : value_unusable evt -> EvmNotify.f_amount f = Fin 0).
  { intro U. subst f. unfold EvmNotify.extractFields. simpl.
    apply normalizeAmount_unusable. exact U. }
  assert (Hp : EvmNotify.processEvent pf evt = Ret tt).
  { unfold EvmNotify.processEvent. fold f.
    destruct H as [Ht | [Hc | [[q [Hq Hz]] | U]]].
    - rewrite Ht. reflexivity.
    - rewrite Hc. simpl. rewrite orb_true_r. reflexivity.
    - rewrite Hq. simpl. apply Qeq_bool_iff in Hz. rewrite Hz.
      rewrite orb_true_r. reflexivity.
    - rewrite (Hv U). simpl. rewrite orb_true_r. reflexivity. }
  split; [exact Hv |]. split; [exact Hp |].
  intro db. rewrite Hp. split; reflexivity.
Qed.

Lemma webhook_unusable_event_witness :
  value_unusable (Scenario.transfer (VStr "abc"))
  /\ EvmNotify.processEvent Scenario.at100 (Scenario.transfer (VStr "abc")) = Ret tt.
Proof.
  assert (U : value_unusable (Scenario.transfer (VStr "abc"))).
  { right. right. exists "abc". split; reflexivity. }
  split; [exact U |].
  apply (webhook_unusable_event_touches_nothing Scenario.at100 (Scenario.transfer (VStr "abc"))).
  right. right. right. exact U.
Defined.

(** ** Store lemmas *)

Lemma insert_desc_perm i l : Permutation (i :: l) (insert_desc i l).
Proof.
  induction l as [| j r IH]; simpl.
  - apply Permutation_refl.
  - destruct (created_at j <? created_at i)%Z.
    + apply Permutation_refl.
    + eapply Permutation_trans; [apply perm_swap |].
      apply perm_skip. exact IH.
Qed.

Lemma order_created_desc_perm l : Permutation l (order_created_desc l).
Proof.
  induction l as [| i r IH]; simpl.
  - apply Permutation_refl.
  - eapply Permutation_trans; [apply perm_skip; exact IH |].
    apply insert_desc_perm.
Qed.

Lemma order_created_desc_In l x : In x (order_created_desc l) <-> In x l.
Proof.
  split; intro H.
  - eapply Permutation_in; [apply Permutation_sym, order_created_desc_perm | exact H].
  - eapply Permutation_in; [apply order_created_desc_perm | exact H].
Qed.

Lemma select_open_invoice_Some to cur net db inv :
  EvmNotify.select_open_invoice to cur net db = Some inv ->
  In inv (invoices db) /\ EvmNotify.open_match to cur net inv = true.
Proof.
  unfold EvmNotify.select_open_invoice.
  destruct (order_created_desc (filter (EvmNotify.open_match to cur net) (invoices db)))
    as [| i r] eqn:E; intro H; [discriminate H |].
  injection H as ->.
  assert (I : In inv (order_created_desc
                        (filter (EvmNotify.open_match to cur net) (invoices db)))).
  { rewrite E. left. reflexivity. }
  apply (proj1 (order_created_desc_In _ _)) in I. apply filter_In in I. exact I.
Qed.



Lemma upsert_payment_invoices p db :
  invoices (EvmNotify.upsert_payment p db) = invoices db.
Proof.
  unfold EvmNotify.upsert_payment.
  destruct (existsb _ (payments db)); reflexivity.
Qed.

(** What an update leaves of one row. *)
Lemma update_invoices_In p f db i' :
  In i' (invoices (update_invoices p f db)) <->
  exists i, In i (invoices db) /\ i' = (if p i then f i else i).
Proof.
  unfold update_invoices. simpl. rewrite in_map_iff.
  split; intros [i [A B]]; exists i; split; auto.
Qed.

(** ** The amount tolerance *)








(** ** Rows and primary keys *)

Lemma NoDup_map_injective {A B} (f : A -> B) (l : list A) a b :
  NoDup (map f l) -> In a l -> In b l -> f a = f b -> a = b.
Proof.
  induction l as [| x r IH]; simpl; intros N Ha Hb E.
  - contradiction.
  - inversion N as [| y ys Hnot Hnd]; subst.
    destruct Ha as [-> | Ha]; destruct Hb as [-> | Hb].
    + reflexivity.
    + exfalso. apply Hnot. rewrite E. apply in_map. exact Hb.
    + exfalso. apply Hnot. rewrite <- E. apply in_map. exact Ha.
    + apply IH; assumption.
Qed.

Lemma unique_ids_eq db a b :
  unique_ids db -> In a (invoices db) -> In b (invoices db) ->
  inv_id a = inv_id b -> a = b.
Proof. unfold unique_ids. apply NoDup_map_injective. Qed.

Lemma Forall2_map_self {A} (R : A -> A -> Prop) (g : A -> A) (l : list A) :
  (forall x, In x l -> R x (g x)) -> Forall2 R l (map g l).
Proof.
  induction l as [| x r IH]; simpl; intro H.
  - constructor.
  - constructor.
    + apply H. left. reflexivity.
    + apply IH. intros y Hy. apply H. right. exact Hy.
Qed.

Lemma Forall2_same {A} (R : A -> A -> Prop) (l : list A) :
  (forall x, R x x) -> Forall2 R l l.
Proof. intro H. induction l; constructor; auto. Qed.

Lemma Forall2_compose {A} (R S T : A -> A -> Prop) (l1 l2 l3 : list A) :
  (forall a b c, R a b -> S b c -> T a c) ->
  Forall2 R l1 l2 -> Forall2 S l2 l3 -> Forall2 T l1 l3.
Proof.
  intros H F. revert l3. induction F as [| a b r1 r2 Hab F IH]; intros l3 G.
  - inversion G. constructor.
  - inversion G as [| b' c r2' r3 Hbc G']; subst. constructor.
    + eapply H; eassumption.
    + apply IH. exact G'.
Qed.

Lemma Forall2_weaken {A} (R S : A -> A -> Prop) (l1 l2 : list A) :
  (forall a b, R a b -> S a b) -> Forall2 R l1 l2 -> Forall2 S l1 l2.
Proof. intros H F. induction F; constructor; auto. Qed.

Lemma filter_map_fixed {A} (p : A -> bool) (g : A -> A) (l : list A) :
  (forall x, p (g x) = p x) -> (forall x, p x = true -> g x = x) ->
  filter p (map g l) = filter p l.
Proof.
  intros Hp Hg. induction l as [| x r IH]; simpl.
  - reflexivity.
  - rewrite Hp. destruct (p x) eqn:E.
    + rewrite (Hg x E), IH. reflexivity.
    + exact IH.
Qed.

Lemma filter_map_hit {A} (p : A -> bool) (f : A -> A) (l : list A) :
  (forall x, p (f x) = p x) ->
  filter p (map (fun x => if p x then f x else x) l) = map f (filter p l).
Proof.
  intro Hp. induction l as [| x r IH]; simpl.
  - reflexivity.
  - destruct (p x) eqn:E.
    + rewrite Hp, E. simpl. rewrite IH. reflexivity.
    + rewrite E. exact IH.
Qed.

Lemma filter_none {A} (p : A -> bool) (l : list A) :
  (forall x, In x l -> p x = false) -> filter p l = [].
Proof.
  induction l as [| x r IH]; simpl; intro H.
  - reflexivity.
  - rewrite (H x (or_introl eq_refl)). apply IH. intros y Hy. apply H. right. exact Hy.
Qed.

Lemma Forall2_ids l l' :
  Forall2 (fun i i' => inv_id i' = inv_id i) l l' -> map inv_id l' = map inv_id l.
Proof. intro F. induction F; simpl; congruence. Qed.





Lemma paid_step_id i i' : paid_step i i' -> inv_id i' = inv_id i.
Proof. intros [-> | [_ [H _]]]; [reflexivity | exact H]. Qed.


(** ** The client receipt *)

Lemma maybeSingle_OneRow {A} (l : list A) a : maybeSingle l = OneRow a -> l = [a].
Proof.
  destruct l as [| x [| y r]]; simpl; intro H; try discriminate H.
  injection H as ->. reflexivity.
Qed.

Lemma select_by_token_OneRow t db inv :
  SolanaReceipt.select_by_token t db = OneRow inv ->
  In inv (invoices db)
  /\ forall i, In i (invoices db) -> public_token i = t -> i = inv.
Proof.
  unfold SolanaReceipt.select_by_token. intro H.
  apply maybeSingle_OneRow in H. split.
  - assert (I : In inv (filter (fun i => String.eqb (public_token i) t) (invoices db))).
    { rewrite H. left. reflexivity. }
    apply filter_In in I. apply I.
  - intros i Hi Ht.
    assert (I : In i (filter (fun i => String.eqb (public_token i) t) (invoices db))).
    { apply filter_In. split; [exact Hi |]. apply String.eqb_eq. exact Ht. }
    rewrite H in I. destruct I as [<- | []]. reflexivity.
Qed.

(** The outcome of a receipt: nothing is written, or the token's single
    invoice was pending and now carries the signature. *)
Lemma receipt_outcome req db :
  snd (run (SolanaReceipt.serve req) db) = db
  \/ exists t sig inv,
       SolanaReceipt.select_by_token t db = OneRow inv
       /\ status inv = pending
       /\ snd (run (SolanaReceipt.serve req) db)
          = update_invoices (fun i => String.eqb (public_token i) t)
              (set_paid_signature sig) db.
Proof.
  unfold SolanaReceipt.serve.
  destruct (String.eqb (SolanaReceipt.method req) "OPTIONS"); [left; reflexivity |].
  destruct (negb (String.eqb (SolanaReceipt.method req) "POST")); [left; reflexivity |].
  destruct (SolanaReceipt.body req) as [[t0 s0] |]; [| left; reflexivity].
  destruct (negb (Format.isUuid (trim t0))); [left; reflexivity |].
  destruct (negb (Format.isBase58 (trim s0))); [left; reflexivity |].
  rewrite run_query.
  destruct (SolanaReceipt.select_by_token (trim t0) db) as [| inv |] eqn:E;
    try (left; reflexivity).
  destruct (status_eqb (status inv) pending) eqn:S; simpl negb; cbv iota.
  - right. exists (trim t0), (trim s0), inv. apply status_eqb_eq in S.
    split; [exact E |]. split; [exact S |]. reflexivity.
  - left. reflexivity.
Qed.

Lemma receipt_rows_exact req db :
  rows_related receipt_step db (snd (run (SolanaReceipt.serve req) db)).
Proof.
  unfold rows_related.
  destruct (receipt_outcome req db) as [-> | [t [sig [inv [Hsel [Hst ->]]]]]].
  - apply Forall2_same. intro. left. reflexivity.
  - simpl. apply Forall2_map_self. intros i Hi.
    destruct (String.eqb (public_token i) t) eqn:E.
    + apply String.eqb_eq in E.
      destruct (select_by_token_OneRow _ _ _ Hsel) as [_ Huniq].
      rewrite (Huniq i Hi E). right. split; [exact Hst |]. exists sig. reflexivity.
    + left. reflexivity.
Qed.

Lemma receipt_step_paid_step i i' : receipt_step i i' -> paid_step i i'.
Proof.
  intros [-> | [Hs [sig ->]]]; [left; reflexivity |].
  right. simpl. auto.
Qed.

Lemma receipt_rows req db :
  rows_related paid_step db (snd (run (SolanaReceipt.serve req) db)).
Proof.
  eapply Forall2_weaken; [| apply receipt_rows_exact]. apply receipt_step_paid_step.
Qed.

(** ** The webhook as a whole *)



Lemma rows_keep_ids R db db' :
  (forall i i', R i i' -> inv_id i' = inv_id i) ->
  rows_related R db db' -> unique_ids db -> unique_ids db'.
Proof.
  intros H F U. unfold unique_ids in *.
  rewrite (Forall2_ids (invoices db) (invoices db')); [exact U |].
  eapply Forall2_weaken; [| exact F]. exact H.
Qed.



(** ** Usage recording *)

(** [recordUsage] writes to [merchants], [merchant_usage_monthly] and
    [payments_ledger] only; the ledger gains at most one row. *)
Lemma recordUsage_outcome w inv db :
  let db' := snd (run (Confirmations.recordUsage w inv) db) in
  invoices db' = invoices db
  /\ payments db' = payments db
  /\ (ledger db' = ledger db
      \/ exists cents,
           ledger db' = (ledger db
             ++ [mkLedger (user_id inv) (inv_id inv) (toUpperCase (currency inv))
                          (amount inv) cents])%list).
Proof.
  unfold Confirmations.recordUsage.
  destruct (negb (nonempty (user_id inv))); [simpl; auto |].
  destruct (Qeq_bool (amount inv) 0 || negb (nonempty (toUpperCase (currency inv))));
    [simpl; auto |].
  destruct (Confirmations.getUsdPrice w (toUpperCase (currency inv))) as [price |];
    [| simpl; auto].
  destruct (Qeq_bool price 0); [simpl; auto |].
  rewrite run_exec, run_query, run_exec, run_exec. simpl run. cbv zeta.
  unfold Confirmations.insert_ledger, Confirmations.upsert_usage,
    Confirmations.ensure_merchant.
  split; [| split].
  - destruct (existsb _ (usage _)); destruct (existsb _ (merchants db)); reflexivity.
  - destruct (existsb _ (usage _)); destruct (existsb _ (merchants db)); reflexivity.
  - right. eexists.
    destruct (existsb _ (usage _)); destruct (existsb _ (merchants db)); reflexivity.
Qed.

(** ** The reconciler and the rows of [invoices] *)







Lemma rows_related_same R db : (forall i, R i i) -> rows_related R db db.
Proof. intro H. apply Forall2_same. exact H. Qed.





Lemma firstn_incl {A} n (l : list A) x : In x (firstn n l) -> In x l.
Proof.
  intro H. rewrite <- (firstn_skipn n l). apply in_or_app. left. exact H.
Qed.

Lemma select_paid_In db j :
  In j (Confirmations.select_paid db) -> In j (invoices db) /\ status j = paid.
Proof.
  unfold Confirmations.select_paid. intro H.
  apply firstn_incl in H. apply filter_In in H. destruct H as [Hin Hb].
  split; [exact Hin |].
  apply andb_true_iff in Hb. destruct Hb as [Hs _]. apply status_eqb_eq. exact Hs.
Qed.



(** ** The client receipt and draft invoices *)


(** ** Deliveries that interleave *)




Lemma Forall2_In_l {A} (R : A -> A -> Prop) l l' a :
  Forall2 R l l' -> In a l -> exists b, In b l' /\ R a b.
Proof.
  intro F. induction F as [| x y r r' Hxy F IH]; simpl; intro H.
  - contradiction.
  - destruct H as [<- | H].
    + exists y. auto.
    + destruct (IH H) as [b [Hb Hr]]. exists b. auto.
Qed.













(** ** Two receipts for one pending invoice *)

Lemma run_valid_receipt req t s db :
  valid_receipt req t s ->
  run (SolanaReceipt.serve req) db
  = match SolanaReceipt.select_by_token t db with
    | ManyRows => (SolanaReceipt.Error 500 "multiple rows returned", db)
    | NoRow => (SolanaReceipt.Error 404 "Invoice not found", db)
    | OneRow inv =>
        if status_eqb (status inv) pending
        then (SolanaReceipt.Ok200, signed t s db)
        else (SolanaReceipt.Ok200, db)
    end.
Proof.
  intros [Hm [t0 [s0 [Hb [Ht [Hs [Hu H58]]]]]]].
  unfold SolanaReceipt.serve. rewrite Hm, Hb, Ht, Hs, Hu, H58. simpl.
  destruct (SolanaReceipt.select_by_token t db) as [| inv |]; try reflexivity.
  destruct (status_eqb (status inv) pending); reflexivity.
Qed.


Lemma signed_select t s db inv :
  SolanaReceipt.select_by_token t db = OneRow inv ->
  SolanaReceipt.select_by_token t (signed t s db) = OneRow (set_paid_signature s inv).
Proof.
  unfold SolanaReceipt.select_by_token, signed, update_invoices. simpl. intro H.
  apply maybeSingle_OneRow in H.
  rewrite (filter_map_hit (fun i => String.eqb (public_token i) t) (set_paid_signature s));
    [| reflexivity].
  rewrite H. reflexivity.
Qed.


Section TwoReceipts.

Variables (db0 : DB) (t s1 s2 : string) (r1 r2 : SolanaReceipt.request) (inv : invoice).
Hypothesis valid1 : valid_receipt r1 t s1.
Hypothesis valid2 : valid_receipt r2 t s2.
Hypothesis found : SolanaReceipt.select_by_token t db0 = OneRow inv.
Hypothesis is_pending : status inv = pending.





End TwoReceipts.

(** ** Racing deliveries *)




(** ** What a sweep does to one invoice *)

Lemma invoices_of_unique db inv :
  unique_ids db -> In inv (invoices db) -> invoices_of (inv_id inv) db = [inv].
Proof.
  unfold unique_ids, invoices_of.
  induction (invoices db) as [| x r IH]; simpl; intros N H.
  - contradiction.
  - inversion N as [| y ys Hnot Hnd]; subst.
    destruct H as [-> | H].
    + rewrite String.eqb_refl. f_equal. apply filter_none.
      intros y Hy. apply String.eqb_neq. intro E. apply Hnot. rewrite <- E.
      apply in_map. exact Hy.
    + destruct (String.eqb (inv_id x) (inv_id inv)) eqn:E.
      * apply String.eqb_eq in E. exfalso. apply Hnot. rewrite E. apply in_map. exact H.
      * apply IH; assumption.
Qed.

Lemma recordUsage_ledger w inv db :
  ledger (snd (run (Confirmations.recordUsage w inv) db))
  = (ledger db ++ opt_list (ledger_entry w inv))%list.
Proof.
  unfold Confirmations.recordUsage, ledger_entry.
  destruct (nonempty (user_id inv)); simpl; [| symmetry; apply app_nil_r].
  destruct (Qeq_bool (amount inv) 0); simpl; [symmetry; apply app_nil_r |].
  destruct (nonempty (toUpperCase (currency inv))); simpl; [| symmetry; apply app_nil_r].
  destruct (Confirmations.getUsdPrice w (toUpperCase (currency inv))) as [price |];
    [| symmetry; apply app_nil_r].
  destruct (Qeq_bool price 0); [symmetry; apply app_nil_r |].
  rewrite run_exec, run_query, run_exec, run_exec. simpl run. cbv zeta.
  unfold Confirmations.insert_ledger, Confirmations.upsert_usage,
    Confirmations.ensure_merchant.
  destruct (existsb _ (usage _)); destruct (existsb _ (merchants db)); reflexivity.
Qed.

Lemma ledger_entry_id w inv r :
  ledger_entry w inv = Some r -> ledger_invoice_id r = inv_id inv.
Proof.
  unfold ledger_entry.
  destruct (nonempty (user_id inv) && negb (Qeq_bool (amount inv) 0)
            && nonempty (toUpperCase (currency inv))); [| discriminate].
  destruct (Confirmations.getUsdPrice w _) as [price |]; [| discriminate].
  destruct (Qeq_bool price 0); [discriminate |].
  intro H. injection H as <-. reflexivity.
Qed.

(** The tables after one visit, whatever the invoice. *)
Lemma visit_tables w tip j db :
  let db1 := snd (run (Confirmations.visit w tip j) db) in
  (invoices db1 = invoices db
   \/ invoices db1
      = invoices (update_invoices (Confirmations.by_id j)
                    (set_confirmed (Confirmations.clock w (inv_id j))) db))
  /\ (payments db1 = payments db
      \/ exists n, payments db1
                   = payments (Confirmations.update_payment_confirmations (inv_id j) n db))
  /\ (ledger db1 = ledger db
      \/ ledger db1 = (ledger db ++ opt_list (ledger_entry w j))%list).
Proof.
  assert (Same : (invoices db = invoices db
                  \/ invoices db
                     = invoices (update_invoices (Confirmations.by_id j)
                                   (set_confirmed (Confirmations.clock w (inv_id j))) db))
                 /\ (payments db = payments db
                     \/ exists n, payments db
                          = payments (Confirmations.update_payment_confirmations
                                        (inv_id j) n db))
                 /\ (ledger db = ledger db
                     \/ ledger db = (ledger db ++ opt_list (ledger_entry w j))%list)).
  { auto. }
  unfold Confirmations.visit.
  destruct (col_eq (network j) "solana").
  - destruct (Confirmations.getSignatureStatuses w _) as [| [|]]; try exact Same.
    rewrite run_exec, run_bind.
    pose proof (recordUsage_outcome w j
                  (update_invoices (Confirmations.by_id j)
                     (set_confirmed (Confirmations.clock w (inv_id j))) db)) as [Hi [Hp _]].
    pose proof (recordUsage_ledger w j
                  (update_invoices (Confirmations.by_id j)
                     (set_confirmed (Confirmations.clock w (inv_id j))) db)) as Hl.
    destruct (run (Confirmations.recordUsage w j) _) as [[] db1]. simpl in *.
    split; [right; exact Hi |]. split; [left; exact Hp | right; exact Hl].
  - destruct (Confirmations.is_evm (network j)); [| exact Same].
    destruct (negb (Confirmations.RPC_URL w)); [exact Same |].
    destruct (Confirmations.eth_getTransactionReceipt w _) as [| [txBlock |]];
      try exact Same.
    destruct (Z.max 0 (tip - txBlock + 1) >=? withDefault (confirmations_required j) 1)%Z.
    + rewrite run_exec, run_exec, run_bind.
      pose proof (recordUsage_outcome w j
                    (Confirmations.update_payment_confirmations (inv_id j)
                       (Z.max 0 (tip - txBlock + 1))
                       (update_invoices (Confirmations.by_id j)
                          (set_confirmed (Confirmations.clock w (inv_id j))) db)))
        as [Hi [Hp _]].
      pose proof (recordUsage_ledger w j
                    (Confirmations.update_payment_confirmations (inv_id j)
                       (Z.max 0 (tip - txBlock + 1))
                       (update_invoices (Confirmations.by_id j)
                          (set_confirmed (Confirmations.clock w (inv_id j))) db)))
        as Hl.
      destruct (run (Confirmations.recordUsage w j) _) as [[] db1]. simpl in *.
      split; [right; exact Hi |].
      split; [right; eexists; exact Hp | right; exact Hl].
    + rewrite run_exec. simpl.
      split; [left; reflexivity |]. split; [right; eexists; reflexivity | left; reflexivity].
Qed.

(** A visit to another invoice changes nothing about this one. *)
Lemma visit_other w tip j id db :
  inv_id j <> id ->
  let db1 := snd (run (Confirmations.visit w tip j) db) in
  invoices_of id db1 = invoices_of id db
  /\ payments_of id db1 = payments_of id db
  /\ ledger_of id db1 = ledger_of id db.
Proof.
  intros N db1. destruct (visit_tables w tip j db) as [Hi [Hp Hl]].
  change (snd (run (Confirmations.visit w tip j) db)) with db1 in Hi, Hp, Hl.
  clearbody db1.
  unfold invoices_of, payments_of, ledger_of. split; [| split].
  - destruct Hi as [Hi | Hi]; rewrite Hi; [reflexivity |]. simpl.
    apply filter_map_fixed.
    + intro x. unfold Confirmations.by_id.
      destruct (String.eqb (inv_id x) (inv_id j)); reflexivity.
    + intros x Hx. unfold Confirmations.by_id.
      destruct (String.eqb (inv_id x) (inv_id j)) eqn:E; [| reflexivity].
      apply String.eqb_eq in E. apply String.eqb_eq in Hx. congruence.
  - destruct Hp as [Hp | [n Hp]]; rewrite Hp; [reflexivity |]. simpl.
    apply filter_map_fixed.
    + intro x. destruct (String.eqb (pay_invoice_id x) (inv_id j)); reflexivity.
    + intros x Hx. destruct (String.eqb (pay_invoice_id x) (inv_id j)) eqn:E;
        [| reflexivity].
      apply String.eqb_eq in E. apply String.eqb_eq in Hx. congruence.
  - destruct Hl as [Hl | Hl]; rewrite Hl; [reflexivity |].
    rewrite filter_app. rewrite <- (app_nil_r (filter _ (ledger db))) at 2. f_equal.
    destruct (ledger_entry w j) as [r |] eqn:E; [| reflexivity]. simpl.
    rewrite (ledger_entry_id w j r E).
    destruct (String.eqb (inv_id j) id) eqn:E'; [| reflexivity].
    apply String.eqb_eq in E'. contradiction.
Qed.

Lemma sweep_other w tip id batch :
  forall db,
    (forall j, In j batch -> inv_id j <> id) ->
    let db1 := snd (run (Confirmations.sweep w tip batch) db) in
    invoices_of id db1 = invoices_of id db
    /\ payments_of id db1 = payments_of id db
    /\ ledger_of id db1 = ledger_of id db.
Proof.
  induction batch as [| j rest IH]; intros db H; simpl.
  - auto.
  - rewrite run_bind.
    destruct (visit_other w tip j id db (H j (or_introl eq_refl))) as [Hi [Hp Hl]].
    destruct (run (Confirmations.visit w tip j) db) as [goes_on db1]. simpl in *.
    destruct goes_on; [| simpl; auto].
    destruct (IH db1 (fun k Hk => H k (or_intror Hk))) as [Hi' [Hp' Hl']].
    split; [| split]; congruence.
Qed.



Lemma visit_goes_on w tip j db :
  (Confirmations.is_evm (network j) = true ->
   Confirmations.eth_getTransactionReceipt w (withDefault (detected_tx_hash j) "")
     <> Confirmations.Threw) ->
  fst (run (Confirmations.visit w tip j) db) = true.
Proof.
  intro H. unfold Confirmations.visit.
  destruct (col_eq (network j) "solana").
  - destruct (Confirmations.getSignatureStatuses w _) as [| [|]]; try reflexivity.
    rewrite run_exec, run_bind.
    destruct (run (Confirmations.recordUsage w j) _) as [[] db1]. reflexivity.
  - destruct (Confirmations.is_evm (network j)); [| reflexivity].
    destruct (negb (Confirmations.RPC_URL w)); [reflexivity |].
    destruct (Confirmations.eth_getTransactionReceipt w _) as [| [txBlock |]].
    + exfalso. apply H; reflexivity.
    + destruct (Z.max 0 (tip - txBlock + 1) >=? withDefault (confirmations_required j) 1)%Z.
      * rewrite run_exec, run_exec, run_bind.
        destruct (run (Confirmations.recordUsage w j) _) as [[] db1]. reflexivity.
      * reflexivity.
    + reflexivity.
Qed.


Lemma select_paid_split db inv :
  unique_ids db -> In inv (Confirmations.select_paid db) ->
  exists l1 l2,
    Confirmations.select_paid db = (l1 ++ inv :: l2)%list
    /\ forall j, In j (l1 ++ l2) -> inv_id j <> inv_id inv.
Proof.
  intros U Hin.
  assert (N : NoDup (Confirmations.select_paid db)).
  { unfold Confirmations.select_paid.
    eapply NoDup_app_remove_r. rewrite firstn_skipn.
    apply NoDup_filter. eapply NoDup_map_inv. exact U. }
  destruct (in_split _ _ Hin) as [l1 [l2 E]].
  exists l1, l2. split; [exact E |].
  intros j Hj Hid. rewrite E in N. apply (NoDup_remove_2 _ _ _ N).
  assert (Hjb : In j (Confirmations.select_paid db)).
  { rewrite E. apply in_app_or in Hj. apply in_or_app.
    destruct Hj as [Hj | Hj]; [left; exact Hj | right; right; exact Hj]. }
  apply select_paid_In in Hjb. apply select_paid_In in Hin.
  rewrite <- (unique_ids_eq db j inv U (proj1 Hjb) (proj1 Hin) Hid). exact Hj.
Qed.






(** ** Lookup failures during a sweep *)

(** C5 fails on the code.  In a batch of two Ethereum invoices, a network
    error in the receipt lookup of the first leaves the handler, and the
    second - whose transaction has its three confirmations - is never
    visited: it stays paid.  A receipt that is merely missing is skipped,
    and so is any failure on the Solana path, which alone is wrapped in
    [try]/[catch]. *)
Theorem evm_lookup_error_aborts_batch :
  run (Confirmations.serve Scenario.node_at_100) Scenario.db_two
  = (Confirmations.Uncaught, Scenario.db_two)
  /\ (let out := run (Confirmations.serve Scenario.node_at_100) Scenario.db_two_missing in
      fst out = Confirmations.Checked 2
      /\ map status (invoices (snd out)) = [paid; confirmed]).
Proof. split; [reflexivity | split; reflexivity]. Qed.

(** ** Siblings *)




(** On three invoices that differ only in currency the same reading is met:
    the read of one returns the three, and not the expired fourth. *)
Lemma three_currencies_are_stated_siblings :
  let data := Scenario.order7 "inv-2" "USDT" Scenario.token2 paid 20%Z in
  returns_stated_siblings Scenario.db_three data
    (InvoicePublic.select_siblings data Scenario.db_three).
Proof.
  intros data s. split.
  - intros [<- | [<- | [<- | []]]].
    + exists (Scenario.order7 "inv-3" "SOL" Scenario.token3 confirmed 30%Z).
      split; [simpl; auto |]. split; [| reflexivity].
      repeat split. right. discriminate.
    + exists data. split; [simpl; auto |]. split; [| reflexivity].
      repeat split. left. reflexivity.
    + exists (Scenario.order7 "inv-1" "USDC" Scenario.token1 pending 10%Z).
      split; [simpl; auto |]. split; [| reflexivity].
      repeat split. right. discriminate.
  - intros [i [Hi [[_ [_ [_ [Hv _]]]] ->]]].
    simpl in Hi. destruct Hi as [<- | [<- | [<- | [<- | []]]]]; simpl; auto.
    discriminate Hv.
Qed.



(** ** Entitlement *)





(** ** USD conversion *)






(* ====================================================================== *)
(** * Further properties of the handlers                                   *)
(* ====================================================================== *)

Import Laws.

(** ** Letter case *)

Lemma lower_char_idem c : lower_char (lower_char c) = lower_char c.
Proof.
  destruct c as [b0 b1 b2 b3 b4 b5 b6 b7].
  destruct b0, b1, b2, b3, b4, b5, b6, b7; reflexivity.
Qed.

Lemma upper_char_idem c : upper_char (upper_char c) = upper_char c.
Proof.
  destruct c as [b0 b1 b2 b3 b4 b5 b6 b7].
  destruct b0, b1, b2, b3, b4, b5, b6, b7; reflexivity.
Qed.

Lemma toLowerCase_idem s : toLowerCase (toLowerCase s) = toLowerCase s.
Proof.
  unfold toLowerCase. induction s as [| c r IH]; simpl.
  - reflexivity.
  - rewrite lower_char_idem, IH. reflexivity.
Qed.

Lemma toUpperCase_idem s : toUpperCase (toUpperCase s) = toUpperCase s.
Proof.
  unfold toUpperCase. induction s as [| c r IH]; simpl.
  - reflexivity.
  - rewrite upper_char_idem, IH. reflexivity.
Qed.

Lemma toUpperCase_nonempty s : nonempty (toUpperCase s) = nonempty s.
Proof. destruct s; reflexivity. Qed.

(** ** What the webhook reads from an event *)





Lemma extracted_fields_case evt :
  let f := EvmNotify.extractFields evt in
  toLowerCase (EvmNotify.f_to f) = EvmNotify.f_to f
  /\ toLowerCase (EvmNotify.f_network f) = EvmNotify.f_network f
  /\ toUpperCase (EvmNotify.f_currency f) = EvmNotify.f_currency f.
Proof.
  unfold EvmNotify.extractFields. cbn [EvmNotify.f_to EvmNotify.f_network
    EvmNotify.f_currency].
  split; [apply toLowerCase_idem |]. split; [apply toLowerCase_idem |].
  destruct (nonempty (withDefault
              (orElse (EvmNotify.e_asset evt)
                 (orElse (EvmNotify.e_currency evt) (EvmNotify.e_symbol evt))) "")).
  - apply toUpperCase_idem.
  - destruct (nonempty _); reflexivity.
Qed.

(** X2.  The fields the webhook extracts are in canonical case - the
    recipient address and the network in lower case, the currency in upper
    case - and the currency is never empty: without a symbol it is [USDT]
    when a contract address is given and [ETH] otherwise. *)
Theorem extracted_fields_are_canonical :
  forall (evt : EvmNotify.event),
    let f := EvmNotify.extractFields evt in
    toLowerCase (EvmNotify.f_to f) = EvmNotify.f_to f
    /\ toLowerCase (EvmNotify.f_network f) = EvmNotify.f_network f
    /\ toUpperCase (EvmNotify.f_currency f) = EvmNotify.f_currency f
    /\ nonempty (EvmNotify.f_currency f) = true.
Proof.
  intro evt. unfold EvmNotify.extractFields. cbn [EvmNotify.f_to EvmNotify.f_network
    EvmNotify.f_currency].
  split; [apply toLowerCase_idem |]. split; [apply toLowerCase_idem |].
  set (raw := withDefault
                (orElse (EvmNotify.e_asset evt)
                   (orElse (EvmNotify.e_currency evt) (EvmNotify.e_symbol evt))) "").
  destruct (nonempty raw) eqn:E.
  - split; [apply toUpperCase_idem |]. rewrite toUpperCase_nonempty. exact E.
  - clear E. destruct (nonempty _); split; reflexivity.
Qed.

(** ** Which invoices a delivery can reach *)

Lemma col_eq_Some col v : col_eq col v = true -> col = Some v.
Proof.
  destruct col as [x |]; simpl; intro H; [| discriminate H].
  apply String.eqb_eq in H. congruence.
Qed.

Lemma open_match_canonical evt i :
  let f := EvmNotify.extractFields evt in
  EvmNotify.open_match (EvmNotify.f_to f) (EvmNotify.f_currency f) (EvmNotify.f_network f) i
    = true ->
  canonical i.
Proof.
  intros f H. unfold EvmNotify.open_match in H.
  apply andb_true_iff in H. destruct H as [H _].
  apply andb_true_iff in H. destruct H as [H Hn].
  apply andb_true_iff in H. destruct H as [Ht Hc].
  apply String.eqb_eq in Ht. apply String.eqb_eq in Hc. apply col_eq_Some in Hn.
  destruct (extracted_fields_case evt) as [Lt [Ln Uc]].
  fold f in Lt, Ln, Uc.
  split; [rewrite Ht; exact Lt |]. split; [rewrite Hc; exact Uc |].
  exists (EvmNotify.f_network f). split; [exact Hn | exact Ln].
Qed.

Lemma processEvent_outcome_matched pf evt db :
  snd (run (EvmNotify.processEvent pf evt) db) = db
  \/ exists inv,
       In inv (open_matches evt db)
       /\ snd (run (EvmNotify.processEvent pf evt) db)
          = update_invoices (fun i => String.eqb (inv_id i) (inv_id inv))
              (set_paid (hash_of evt) (Some (EvmNotify.now pf)))
              (EvmNotify.upsert_payment (payment_of pf evt inv) db).
Proof.
  unfold EvmNotify.processEvent.
  destruct (negb (nonempty (EvmNotify.f_to (EvmNotify.extractFields evt)))
            || falsy (EvmNotify.f_amount (EvmNotify.extractFields evt))
            || negb (nonempty (EvmNotify.f_currency (EvmNotify.extractFields evt))));
    [left; reflexivity |].
  rewrite run_query.
  destruct (EvmNotify.select_open_invoice _ _ _ db) as [inv |] eqn:E; [| left; reflexivity].
  destruct (EvmNotify.underpaid _ inv); [left; reflexivity |].
  right. destruct (select_open_invoice_Some _ _ _ _ _ E) as [Hin Hopen].
  exists inv. split; [| reflexivity].
  unfold open_matches. apply filter_In. split; assumption.
Qed.

Lemma kept_unless_canonical_refl i : kept_unless_canonical i i.
Proof. split; [reflexivity | left; reflexivity]. Qed.

Lemma kept_unless_canonical_trans a b c :
  kept_unless_canonical a b -> kept_unless_canonical b c -> kept_unless_canonical a c.
Proof.
  intros [Hid [-> | Hc]] [Hid' H']; split; try congruence.
  right. exact Hc.
Qed.

Lemma processEvent_canonical_rows pf evt db :
  unique_ids db ->
  rows_related kept_unless_canonical db (snd (run (EvmNotify.processEvent pf evt) db)).
Proof.
  intro U. unfold rows_related.
  destruct (processEvent_outcome_matched pf evt db) as [-> | [inv [Hin ->]]].
  - apply Forall2_same. apply kept_unless_canonical_refl.
  - unfold open_matches in Hin. apply filter_In in Hin. destruct Hin as [Hin Hopen].
    simpl. rewrite upsert_payment_invoices. apply Forall2_map_self. intros i Hi.
    destruct (String.eqb (inv_id i) (inv_id inv)) eqn:E.
    + apply String.eqb_eq in E. rewrite (unique_ids_eq db i inv U Hi Hin E).
      split; [reflexivity |]. right. exact (open_match_canonical evt inv Hopen).
    + apply kept_unless_canonical_refl.
Qed.

Lemma processEvents_canonical_rows evts :
  forall db, unique_ids db ->
    rows_related kept_unless_canonical db (snd (run (EvmNotify.processEvents evts) db)).
Proof.
  induction evts as [| [pf e] r IH]; intros db U; simpl.
  - apply Forall2_same. apply kept_unless_canonical_refl.
  - rewrite run_bind.
    pose proof (processEvent_canonical_rows pf e db U) as F1.
    destruct (run (EvmNotify.processEvent pf e) db) as [[] db1]. simpl in F1.
    assert (U1 : unique_ids db1).
    { eapply rows_keep_ids; [| exact F1 | exact U]. intros i i' [Hid _]. exact Hid. }
    specialize (IH db1 U1).
    unfold rows_related in *.
    eapply Forall2_compose; [| exact F1 | exact IH].
    apply kept_unless_canonical_trans.
Qed.

(** X3.  The webhook looks invoices up by the lower-cased address, the
    upper-cased currency and the lower-cased network of the event, with
    exact comparisons.  So, on a store with unique invoice ids, a delivery
    leaves every invoice as it was unless the invoice is stored in that
    canonical case: an invoice whose address holds an upper-case letter (a
    checksummed EVM address, a base58 Solana address), whose currency is not
    in upper case, or whose network is null, is never marked paid by it. *)
Theorem webhook_reaches_canonical_invoices_only :
  forall (secret : option string) (req : EvmNotify.request) (db : DB),
    unique_ids db ->
    rows_related kept_unless_canonical db (snd (run (EvmNotify.serve secret req) db)).
Proof.
  intros secret req db U. unfold EvmNotify.serve.
  assert (Same : rows_related kept_unless_canonical db db).
  { apply Forall2_same. apply kept_unless_canonical_refl. }
  destruct (String.eqb (EvmNotify.method req) "OPTIONS"); [exact Same |].
  destruct (negb (String.eqb (EvmNotify.method req) "POST")); [exact Same |].
  destruct (negb (nonempty (withDefault secret ""))
            || negb (String.eqb (withDefault (EvmNotify.secret_header req) "")
                       (withDefault secret ""))); [exact Same |].
  destruct (EvmNotify.body_events req) as [evts |]; [| exact Same].
  rewrite run_bind.
  pose proof (processEvents_canonical_rows evts db U) as F.
  destruct (run (EvmNotify.processEvents evts) db) as [[] db1]. exact F.
Qed.

Lemma webhook_reaches_canonical_invoices_only_witness :
  unique_ids Scenario.db_sol
  /\ ~ canonical Scenario.inv_sol
  /\ rows_related kept_unless_canonical Scenario.db_sol
       (snd (run (EvmNotify.serve (Some "s3cret") Scenario.sol_delivery) Scenario.db_sol)).
Proof.
  assert (U : unique_ids Scenario.db_sol).
  { unfold unique_ids. simpl. constructor; [intros [] | constructor]. }
  split; [exact U |]. split.
  - intros [H _]. discriminate H.
  - apply (webhook_reaches_canonical_invoices_only (Some "s3cret") Scenario.sol_delivery
             Scenario.db_sol U).
Defined.

(** ** Who may deliver *)

(** X4.  The webhook handler acts only on an authenticated POST: any other
    method than POST is answered 405 (a preflight apart), and a POST is
    answered 401 when [WEBHOOK_SECRET] is unset or empty or differs from the
    [x-webhook-secret] header - even a request that carries no header when
    no secret is configured.  In each of these cases the handler makes no
    store call and the store is as it was. *)
Theorem webhook_acts_on_authenticated_post_only :
  forall (secret : option string) (req : EvmNotify.request) (db : DB),
    EvmNotify.method req <> "POST"
    \/ withDefault secret "" = ""
    \/ withDefault (EvmNotify.secret_header req) "" <> withDefault secret "" ->
    snd (run (EvmNotify.serve secret req) db) = db
    /\ calls (EvmNotify.serve secret req) db = 0%nat
    /\ (EvmNotify.method req = "POST" ->
        fst (run (EvmNotify.serve secret req) db) = EvmNotify.Unauthorized)
    /\ (EvmNotify.method req <> "POST" -> EvmNotify.method req <> "OPTIONS" ->
        fst (run (EvmNotify.serve secret req) db) = EvmNotify.MethodNotAllowed).
Proof.
  intros secret req db H. unfold EvmNotify.serve.
  destruct (String.eqb (EvmNotify.method req) "OPTIONS") eqn:Eo.
  { apply String.eqb_eq in Eo. simpl.
    split; [reflexivity |]. split; [reflexivity |]. split.
    - intro E. rewrite E in Eo. discriminate Eo.
    - intros _ N. contradiction. }
  destruct (String.eqb (EvmNotify.method req) "POST") eqn:Ep; simpl negb; cbv iota.
  2: { apply String.eqb_neq in Ep. simpl.
       split; [reflexivity |]. split; [reflexivity |]. split.
       - intro E. contradiction.
       - intros _ _. reflexivity. }
  apply String.eqb_eq in Ep.
  assert (Bad : negb (nonempty (withDefault secret ""))
                || negb (String.eqb (withDefault (EvmNotify.secret_header req) "")
                           (withDefault secret "")) = true).
  { destruct H as [H | [H | H]].
    - contradiction.
    - rewrite H. reflexivity.
    - apply String.eqb_neq in H. rewrite H. apply orb_true_r. }
  rewrite Bad. simpl.
  split; [reflexivity |]. split; [reflexivity |]. split.
  - intros _. reflexivity.
  - intro N. contradiction.
Qed.

Lemma webhook_acts_on_authenticated_post_only_witness :
  run (EvmNotify.serve None (EvmNotify.mkRequest "POST" None
                               (Some [(Scenario.at100, Scenario.sol_transfer)])))
      Scenario.db_draft
  = (EvmNotify.Unauthorized, Scenario.db_draft).
Proof.
  pose proof (webhook_acts_on_authenticated_post_only None
                (EvmNotify.mkRequest "POST" None
                   (Some [(Scenario.at100, Scenario.sol_transfer)]))
                Scenario.db_draft (or_intror (or_introl eq_refl))) as [Hdb [_ [Hr _]]].
  rewrite (surjective_pairing (run _ _)). rewrite Hdb, (Hr eq_refl). reflexivity.
Defined.

(** ** A delivery repeated *)

Lemma set_paid_not_open to cur net h a i :
  EvmNotify.open_match to cur net (set_paid h a i) = false.
Proof. unfold EvmNotify.open_match. simpl. apply andb_false_r. Qed.

(** X5.  Replaying an event is harmless when at most one open invoice
    matches it: the first [processEvent] marks that invoice paid (or leaves
    the store alone), after which the lookup of the second finds no open
    invoice and writes nothing. *)
Theorem webhook_replay_is_idempotent :
  forall (pf : EvmNotify.platform) (evt : EvmNotify.event) (db : DB),
    (List.length (open_matches evt db) <= 1)%nat ->
    let db1 := snd (run (EvmNotify.processEvent pf evt) db) in
    snd (run (EvmNotify.processEvent pf evt) db1) = db1.
Proof.
  intros pf evt db Hone db1. subst db1.
  destruct (processEvent_outcome_matched pf evt db) as [E | [inv [Hin E]]].
  - rewrite E. exact E.
  - rewrite E.
    set (db1 := update_invoices _ _ _).
    assert (Hnone : open_matches evt db1 = []).
    { unfold open_matches, db1. simpl. rewrite upsert_payment_invoices.
      apply filter_none. intros x Hx. apply in_map_iff in Hx.
      destruct Hx as [i [<- Hi]].
      destruct (String.eqb (inv_id i) (inv_id inv)) eqn:Eid.
      - apply set_paid_not_open.
      - destruct (EvmNotify.open_match _ _ _ i) eqn:Eo; [| reflexivity].
        exfalso.
        assert (Hi' : In i (open_matches evt db)).
        { unfold open_matches. apply filter_In. split; assumption. }
        destruct (open_matches evt db) as [| x [| y r]].
        + contradiction.
        + destruct Hin as [<- | []]. destruct Hi' as [<- | []].
          rewrite String.eqb_refl in Eid. discriminate Eid.
        + simpl in Hone. lia. }
    unfold EvmNotify.processEvent.
    destruct (negb (nonempty (EvmNotify.f_to (EvmNotify.extractFields evt)))
              || falsy (EvmNotify.f_amount (EvmNotify.extractFields evt))
              || negb (nonempty (EvmNotify.f_currency (EvmNotify.extractFields evt))));
      [reflexivity |].
    rewrite run_query. unfold EvmNotify.select_open_invoice.
    unfold open_matches in Hnone. rewrite Hnone. reflexivity.
Qed.

Lemma webhook_replay_is_idempotent_witness :
  let db1 := snd (run (EvmNotify.processEvent Scenario.at100
                         (Scenario.transfer (VNum (Fin (1000 # 1))))) Scenario.db_usdt) in
  map status (invoices db1) = [paid]
  /\ snd (run (EvmNotify.processEvent Scenario.at100
                 (Scenario.transfer (VNum (Fin (1000 # 1))))) db1) = db1.
Proof.
  split; [reflexivity |].
  apply (webhook_replay_is_idempotent Scenario.at100
           (Scenario.transfer (VNum (Fin (1000 # 1)))) Scenario.db_usdt).
  simpl. lia.
Defined.

(** ** Payment rows and transaction hashes *)

Lemma existsb_false_In {A} (q : A -> bool) (l : list A) x :
  existsb q l = false -> In x l -> q x = false.
Proof.
  intros E Hx. destruct (q x) eqn:Eq; [| reflexivity].
  assert (existsb q l = true) by (apply existsb_exists; exists x; split; assumption).
  congruence.
Qed.

(** Replacing the row of a key that occurs once. *)
Lemma replace_by_key {A} (key : A -> string) (p : A) (l : list A) :
  NoDup (map key l) ->
  existsb (fun r => String.eqb (key r) (key p)) l = true ->
  filter (fun r => String.eqb (key r) (key p))
         (map (fun r => if String.eqb (key r) (key p) then p else r) l) = [p].
Proof.
  induction l as [| x r IH]; cbn [map filter existsb]; intros N E.
  - discriminate E.
  - inversion N as [| y ys Hnot Hnd]; subst.
    destruct (String.eqb (key x) (key p)) eqn:Eq.
    + rewrite String.eqb_refl. f_equal.
      apply filter_none. intros y Hy. apply in_map_iff in Hy.
      destruct Hy as [z [<- Hz]].
      assert (Hqz : String.eqb (key z) (key p) = false).
      { apply String.eqb_neq. intro Ez. apply Hnot.
        apply String.eqb_eq in Eq. rewrite Eq, <- Ez. apply in_map. exact Hz. }
      rewrite Hqz. exact Hqz.
    + rewrite Eq. simpl in E. apply IH; assumption.
Qed.

Lemma replace_keeps_keys {A} (key : A -> string) (p : A) (l : list A) :
  map key (map (fun r => if String.eqb (key r) (key p) then p else r) l) = map key l.
Proof.
  rewrite map_map. apply map_ext. intro r.
  destruct (String.eqb (key r) (key p)) eqn:Eq; [| reflexivity].
  apply String.eqb_eq in Eq. congruence.
Qed.

Lemma upsert_payment_hashes p db :
  tx_hashes_unique db ->
  tx_hashes_unique (EvmNotify.upsert_payment p db)
  /\ payments_by_hash (tx_hash p) (EvmNotify.upsert_payment p db) = [p].
Proof.
  unfold tx_hashes_unique, payments_by_hash, EvmNotify.upsert_payment.
  intro N.
  destruct (existsb (fun r => String.eqb (tx_hash r) (tx_hash p)) (payments db)) eqn:E;
    cbn [payments with_payments].
  - split.
    + rewrite replace_keeps_keys. exact N.
    + apply replace_by_key; assumption.
  - split.
    + rewrite map_app. cbn [map].
      apply NoDup_app.
      * exact N.
      * constructor; [intros [] | constructor].
      * intros h Hh [<- | []].
        apply in_map_iff in Hh. destruct Hh as [r [Hr Hin]].
        pose proof (existsb_false_In _ _ r E Hin) as F. cbv beta in F.
        rewrite Hr, String.eqb_refl in F. discriminate F.
    + rewrite filter_app. cbn [filter]. rewrite String.eqb_refl.
      rewrite filter_none; [reflexivity |].
      intros r Hr. exact (existsb_false_In _ _ r E Hr).
Qed.

Lemma processEvent_hashes pf evt db :
  tx_hashes_unique db ->
  let db' := snd (run (EvmNotify.processEvent pf evt) db) in
  tx_hashes_unique db'
  /\ (db' = db
      \/ exists inv,
           In inv (open_matches evt db)
           /\ payments_by_hash (tx_hash (payment_of pf evt inv)) db'
              = [payment_of pf evt inv]).
Proof.
  intros N db'. subst db'.
  destruct (processEvent_outcome_matched pf evt db) as [-> | [inv [Hin ->]]].
  - split; [exact N | left; reflexivity].
  - destruct (upsert_payment_hashes (payment_of pf evt inv) db N) as [N' F].
    split; [exact N' |]. right. exists inv. split; [exact Hin | exact F].
Qed.

Lemma processEvents_hashes evts :
  forall db, tx_hashes_unique db ->
    tx_hashes_unique (snd (run (EvmNotify.processEvents evts) db)).
Proof.
  induction evts as [| [pf e] r IH]; intros db N; simpl.
  - exact N.
  - rewrite run_bind.
    pose proof (proj1 (processEvent_hashes pf e db N)) as N1.
    destruct (run (EvmNotify.processEvent pf e) db) as [[] db1]. simpl in N1.
    apply IH. exact N1.
Qed.

(** X6.  The webhook keeps the transaction hashes of [payments] pairwise
    distinct, thanks to its upsert on [tx_hash]: after an accepted event
    there is exactly one Payment row under the event's hash - the one of
    the invoice just matched, even if the hash was recorded for another
    invoice before - and a whole delivery leaves the hashes distinct. *)
Theorem webhook_keeps_one_payment_per_hash :
  forall (secret : option string) (req : EvmNotify.request)
         (pf : EvmNotify.platform) (evt : EvmNotify.event) (db : DB),
    tx_hashes_unique db ->
    tx_hashes_unique (snd (run (EvmNotify.serve secret req) db))
    /\ (let db' := snd (run (EvmNotify.processEvent pf evt) db) in
        db' = db
        \/ exists inv,
             In inv (open_matches evt db)
             /\ payments_by_hash (tx_hash (payment_of pf evt inv)) db'
                = [payment_of pf evt inv]).
Proof.
  intros secret req pf evt db N. split.
  - unfold EvmNotify.serve.
    destruct (String.eqb (EvmNotify.method req) "OPTIONS"); [exact N |].
    destruct (negb (String.eqb (EvmNotify.method req) "POST")); [exact N |].
    destruct (negb (nonempty (withDefault secret ""))
              || negb (String.eqb (withDefault (EvmNotify.secret_header req) "")
                         (withDefault secret ""))); [exact N |].
    destruct (EvmNotify.body_events req) as [evts |]; [| exact N].
    rewrite run_bind.
    pose proof (processEvents_hashes evts db N) as F.
    destruct (run (EvmNotify.processEvents evts) db) as [[] db1]. exact F.
  - exact (proj2 (processEvent_hashes pf evt db N)).
Qed.

Lemma webhook_keeps_one_payment_per_hash_witness :
  tx_hashes_unique Scenario.db_hash_reused
  /\ payments_by_hash "0xfeed"
       (snd (run (EvmNotify.processEvent Scenario.at100
                    (Scenario.transfer (VNum (Fin (1000 # 1))))) Scenario.db_hash_reused))
     = [mkPayment "inv-1" "ethereum" "0xfeed" (Fin (1000 # 1)) 0].
Proof.
  assert (N : tx_hashes_unique Scenario.db_hash_reused).
  { unfold tx_hashes_unique. simpl. constructor; [intros [] | constructor]. }
  split; [exact N |].
  destruct (proj2 (webhook_keeps_one_payment_per_hash None Scenario.sol_delivery
                     Scenario.at100 (Scenario.transfer (VNum (Fin (1000 # 1))))
                     Scenario.db_hash_reused N)) as [E | [inv [Hin F]]].
  - discriminate E.
  - simpl in Hin. destruct Hin as [<- | []]. exact F.
Defined.

(** ** A receipt repeated *)

(** X7.  Submitting the same receipt twice has the effect of submitting it
    once: the second request gets the answer of the first and leaves the
    store as the first left it. *)
Theorem receipt_replay_is_idempotent :
  forall (req : SolanaReceipt.request) (db : DB),
    let out := run (SolanaReceipt.serve req) db in
    run (SolanaReceipt.serve req) (snd out) = out.
Proof.
  intros req db. cbv zeta. unfold SolanaReceipt.serve.
  destruct (String.eqb (SolanaReceipt.method req) "OPTIONS"); [reflexivity |].
  destruct (negb (String.eqb (SolanaReceipt.method req) "POST")); [reflexivity |].
  destruct (SolanaReceipt.body req) as [[t0 s0] |]; [| reflexivity].
  destruct (negb (Format.isUuid (trim t0))); [reflexivity |].
  destruct (negb (Format.isBase58 (trim s0))); [reflexivity |].
  rewrite !run_query.
  destruct (SolanaReceipt.select_by_token (trim t0) db) as [| inv |] eqn:E.
  - cbn [run snd]. rewrite E. reflexivity.
  - destruct (status_eqb (status inv) pending) eqn:S; simpl negb; cbv iota.
    + rewrite !run_exec. cbn [run snd].
      fold (signed (trim t0) (trim s0) db).
      rewrite (signed_select _ (trim s0) _ _ E). reflexivity.
    + cbn [run snd]. rewrite E, S. reflexivity.
  - cbn [run snd]. rewrite E. reflexivity.
Qed.

(** ** Which invoices a sweep can reach *)

Lemma set_confirmed_twice t t' a : set_confirmed t' (set_confirmed t a) = set_confirmed t' a.
Proof. reflexivity. Qed.

Lemma swept_refl ok batch a : swept ok batch a a.
Proof. left. reflexivity. Qed.

Lemma swept_trans ok batch a b c :
  swept ok batch a b -> swept ok batch b c -> swept ok batch a c.
Proof.
  intros [-> | [j [t [Hj [Hid [Hok ->]]]]]] H2; [exact H2 |].
  destruct H2 as [-> | [j' [t' [Hj' [Hid' [Hok' ->]]]]]].
  - right. exists j, t. auto.
  - right. exists j, t'. rewrite set_confirmed_twice. auto.
Qed.

Lemma swept_more ok batch batch' a b :
  (forall j, In j batch -> In j batch') -> swept ok batch a b -> swept ok batch' a b.
Proof.
  intros Hsub [-> | [j [t [Hj H]]]]; [left; reflexivity |].
  right. exists j, t. split; [apply Hsub; exact Hj | exact H].
Qed.

Lemma swept_id ok batch a b : swept ok batch a b -> inv_id b = inv_id a.
Proof. intros [-> | [j [t [_ [_ [_ ->]]]]]]; reflexivity. Qed.

(** What one visit does to [invoices] and [payments], and when. *)
Lemma visit_writes w tip j db :
  let db1 := snd (run (Confirmations.visit w tip j) db) in
  (invoices db1 = invoices db
   \/ (has_branch w j
       /\ invoices db1
          = invoices (update_invoices (Confirmations.by_id j)
                        (set_confirmed (Confirmations.clock w (inv_id j))) db)))
  /\ (payments db1 = payments db
      \/ (Confirmations.RPC_URL w = true
          /\ exists n, payments db1
               = payments (Confirmations.update_payment_confirmations (inv_id j) n db))).
Proof.
  cbv zeta. unfold Confirmations.visit, has_branch.
  destruct (col_eq (network j) "solana") eqn:Es.
  - destruct (Confirmations.getSignatureStatuses w _) as [| [|]]; try (split; left; reflexivity).
    rewrite run_exec, run_bind.
    pose proof (recordUsage_outcome w j
                  (update_invoices (Confirmations.by_id j)
                     (set_confirmed (Confirmations.clock w (inv_id j))) db)) as [Hi [Hp _]].
    destruct (run (Confirmations.recordUsage w j) _) as [[] db1]. simpl in *.
    split; [right; split; [left; reflexivity | exact Hi] | left; exact Hp].
  - destruct (Confirmations.is_evm (network j)) eqn:Ee; [| split; left; reflexivity].
    destruct (Confirmations.RPC_URL w) eqn:Er; simpl negb; cbv iota;
      [| split; left; reflexivity].
    destruct (Confirmations.eth_getTransactionReceipt w _) as [| [txBlock |]];
      try (split; left; reflexivity).
    destruct (Z.max 0 (tip - txBlock + 1) >=? withDefault (confirmations_required j) 1)%Z.
    + rewrite run_exec, run_exec, run_bind.
      pose proof (recordUsage_outcome w j
                    (Confirmations.update_payment_confirmations (inv_id j)
                       (Z.max 0 (tip - txBlock + 1))
                       (update_invoices (Confirmations.by_id j)
                          (set_confirmed (Confirmations.clock w (inv_id j))) db)))
        as [Hi [Hp _]].
      destruct (run (Confirmations.recordUsage w j) _) as [[] db1]. simpl in *.
      split; [right; split; [right; auto | exact Hi] |].
      right. split; [reflexivity |]. eexists. exact Hp.
    + rewrite run_exec. simpl.
      split; [left; reflexivity |]. right. split; [reflexivity |]. eexists. reflexivity.
Qed.

Lemma visit_swept w tip j db :
  rows_related (swept (has_branch w) [j]) db (snd (run (Confirmations.visit w tip j) db)).
Proof.
  unfold rows_related.
  destruct (visit_writes w tip j db) as [[Hi | [Hb Hi]] _]; rewrite Hi.
  - apply Forall2_same. intro. apply swept_refl.
  - simpl. apply Forall2_map_self. intros i _. unfold Confirmations.by_id.
    destruct (String.eqb (inv_id i) (inv_id j)) eqn:E; [| apply swept_refl].
    apply String.eqb_eq in E. right.
    exists j, (Confirmations.clock w (inv_id j)).
    split; [left; reflexivity |]. auto.
Qed.

Lemma sweep_swept w tip batch :
  forall db,
    rows_related (swept (has_branch w) batch) db
      (snd (run (Confirmations.sweep w tip batch) db)).
Proof.
  induction batch as [| j rest IH]; intro db.
  - apply rows_related_same. intro. apply swept_refl.
  - simpl Confirmations.sweep. rewrite run_bind.
    pose proof (visit_swept w tip j db) as F1.
    destruct (run (Confirmations.visit w tip j) db) as [goes_on db1]. simpl in F1.
    assert (F1' : rows_related (swept (has_branch w) (j :: rest)) db db1).
    { eapply Forall2_weaken; [| exact F1]. intros a b.
      apply swept_more. intros k [<- | []]. left. reflexivity. }
    destruct goes_on; [| exact F1'].
    pose proof (IH db1) as F2. unfold rows_related in *.
    eapply Forall2_compose; [apply swept_trans | exact F1' |].
    eapply Forall2_weaken; [| exact F2]. intros a b.
    apply swept_more. intros k Hk. right. exact Hk.
Qed.

Lemma Forall2_weaken_In {A} (R S : A -> A -> Prop) (l l' : list A) :
  (forall a b, In a l -> R a b -> S a b) -> Forall2 R l l' -> Forall2 S l l'.
Proof.
  intros H F. induction F as [| a b r r' Hab F IH].
  - constructor.
  - constructor.
    + apply H; [left; reflexivity | exact Hab].
    + apply IH. intros x y Hx. apply H. right. exact Hx.
Qed.

Lemma select_paid_hash db j :
  In j (Confirmations.select_paid db) -> detected_tx_hash j <> None.
Proof.
  unfold Confirmations.select_paid. intro H.
  apply firstn_incl in H. apply filter_In in H. destruct H as [_ Hb].
  apply andb_true_iff in Hb. destruct Hb as [_ Hh].
  destruct (detected_tx_hash j); [discriminate | discriminate Hh].
Qed.

Lemma serve_swept w db :
  rows_related (swept (has_branch w) (Confirmations.select_paid db)) db
    (snd (run (Confirmations.serve w) db)).
Proof.
  unfold Confirmations.serve. rewrite run_query.
  destruct (Confirmations.select_paid db) as [| j0 rest] eqn:E.
  - apply rows_related_same. intro. apply swept_refl.
  - destruct (if Confirmations.RPC_URL w then Confirmations.eth_blockNumber w
              else Confirmations.Answer 0%Z) as [| tip].
    + apply rows_related_same. intro. apply swept_refl.
    + rewrite run_bind.
      pose proof (sweep_swept w tip (j0 :: rest) db) as F.
      destruct (run (Confirmations.sweep w tip (j0 :: rest)) db) as [c db1]. exact F.
Qed.

(** X8.  On a store with unique invoice ids a reconciler sweep changes an
    invoice only if it is paid, has a detected transaction hash and sits on
    a network the sweep has a branch for (solana, ethereum, polygon, bsc),
    and then only by setting its status to confirmed and its confirmation
    time.  In particular an invoice that the webhook marked paid from an
    event without a transaction hash is never confirmed. *)
Theorem sweep_confirms_reconcilable_invoices_only :
  forall (w : Confirmations.world) (db : DB),
    unique_ids db ->
    rows_related confirmed_from db (snd (run (Confirmations.serve w) db)).
Proof.
  intros w db U. unfold rows_related.
  eapply Forall2_weaken_In; [| apply serve_swept].
  intros a b Ha [-> | [j [t [Hj [Hid [Hok ->]]]]]]; [left; reflexivity |].
  right. split; [| exists t; reflexivity].
  pose proof (select_paid_hash db j Hj) as Hh.
  apply select_paid_In in Hj. destruct Hj as [Hjin Hjs].
  rewrite (unique_ids_eq db a j U Ha Hjin Hid).
  split; [exact Hjs |]. split; [exact Hh |].
  destruct Hok as [Hs | [He _]]; [left | right]; assumption.
Qed.

Lemma sweep_confirms_reconcilable_invoices_only_witness :
  unique_ids Scenario.db_unhashed
  /\ rows_related confirmed_from Scenario.db_unhashed
       (snd (run (Confirmations.serve Scenario.node_at_100) Scenario.db_unhashed)).
Proof.
  assert (U : unique_ids Scenario.db_unhashed).
  { unfold unique_ids. simpl. constructor; [intros [] | constructor]. }
  split; [exact U |].
  apply (sweep_confirms_reconcilable_invoices_only Scenario.node_at_100
           Scenario.db_unhashed U).
Defined.

(** ** A sweep without an EVM node *)

Lemma visit_without_rpc w tip j db :
  Confirmations.RPC_URL w = false ->
  fst (run (Confirmations.visit w tip j) db) = true.
Proof.
  intro Hr. unfold Confirmations.visit.
  destruct (col_eq (network j) "solana").
  - destruct (Confirmations.getSignatureStatuses w _) as [| [|]]; try reflexivity.
    rewrite run_exec, run_bind.
    destruct (run (Confirmations.recordUsage w j) _) as [[] db1]. reflexivity.
  - destruct (Confirmations.is_evm (network j)); [| reflexivity].
    rewrite Hr. reflexivity.
Qed.

Lemma sweep_without_rpc w tip batch :
  Confirmations.RPC_URL w = false ->
  forall db,
    fst (run (Confirmations.sweep w tip batch) db) = true
    /\ payments (snd (run (Confirmations.sweep w tip batch) db)) = payments db.
Proof.
  intro Hr. induction batch as [| j rest IH]; intro db.
  - split; reflexivity.
  - simpl Confirmations.sweep. rewrite run_bind.
    pose proof (visit_without_rpc w tip j db Hr) as Hgo.
    destruct (visit_writes w tip j db) as [_ Hp].
    destruct (run (Confirmations.visit w tip j) db) as [goes_on db1].
    simpl in Hgo, Hp. subst goes_on.
    destruct (IH db1) as [Hc Hp1]. split; [exact Hc |].
    rewrite Hp1. destruct Hp as [Hp | [Ht _]]; [exact Hp | congruence].
Qed.

(** X9.  When neither [ALCHEMY_HTTP] nor [QUICKNODE_HTTP] is set, a sweep
    never aborts: it reports the whole batch as checked, writes no
    confirmation counter, and - on a store with unique invoice ids - leaves
    every invoice as it was except Solana invoices it confirms; invoices on
    ethereum, polygon and bsc are skipped. *)
Theorem sweep_without_rpc_url_skips_evm :
  forall (w : Confirmations.world) (db : DB),
    Confirmations.RPC_URL w = false ->
    unique_ids db ->
    let out := run (Confirmations.serve w) db in
    fst out = Confirmations.Checked (List.length (Confirmations.select_paid db))
    /\ payments (snd out) = payments db
    /\ rows_related confirmed_on_solana db (snd out).
Proof.
  intros w db Hr U out.
  assert (Hrows : rows_related confirmed_on_solana db (snd out)).
  { unfold rows_related. eapply Forall2_weaken_In; [| apply serve_swept].
    intros a b Ha [-> | [j [t [Hj [Hid [Hok ->]]]]]]; [left; reflexivity |].
    right. split; [| exists t; reflexivity].
    apply select_paid_In in Hj. destruct Hj as [Hjin _].
    rewrite (unique_ids_eq db a j U Ha Hjin Hid).
    destruct Hok as [Hs | [_ Ht]]; [exact Hs | congruence]. }
  split; [| split; [| exact Hrows]]; subst out; clear Hrows;
    unfold Confirmations.serve; rewrite run_query, Hr;
    destruct (Confirmations.select_paid db) as [| j0 rest]; try reflexivity;
    rewrite run_bind;
    destruct (sweep_without_rpc w 0%Z (j0 :: rest) Hr db) as [Hc Hp];
    destruct (run (Confirmations.sweep w 0 (j0 :: rest)) db) as [c db1];
    simpl in Hc, Hp; subst c.
  - reflexivity.
  - exact Hp.
Qed.

Lemma sweep_without_rpc_url_skips_evm_witness :
  fst (run (Confirmations.serve Scenario.no_node) Scenario.db_two)
  = Confirmations.Checked 2
  /\ snd (run (Confirmations.serve Scenario.no_node) Scenario.db_two) = Scenario.db_two.
Proof.
  assert (U : unique_ids Scenario.db_two).
  { unfold unique_ids. simpl. constructor.
    - intros [H | []]. discriminate H.
    - constructor; [intros [] | constructor]. }
  destruct (sweep_without_rpc_url_skips_evm Scenario.no_node Scenario.db_two eq_refl U)
    as [Hc _].
  split; [exact Hc | reflexivity].
Defined.

(** ** Ledger rows and confirmations *)

Lemma visit_ledger w tip j db :
  let db1 := snd (run (Confirmations.visit w tip j) db) in
  ledger db1 = ledger db
  \/ (ledger db1 = (ledger db ++ opt_list (ledger_entry w j))%list
      /\ invoices db1
         = invoices (update_invoices (Confirmations.by_id j)
                       (set_confirmed (Confirmations.clock w (inv_id j))) db)).
Proof.
  cbv zeta. unfold Confirmations.visit.
  destruct (col_eq (network j) "solana").
  - destruct (Confirmations.getSignatureStatuses w _) as [| [|]]; try (left; reflexivity).
    rewrite run_exec, run_bind.
    pose proof (recordUsage_outcome w j
                  (update_invoices (Confirmations.by_id j)
                     (set_confirmed (Confirmations.clock w (inv_id j))) db)) as [Hi _].
    pose proof (recordUsage_ledger w j
                  (update_invoices (Confirmations.by_id j)
                     (set_confirmed (Confirmations.clock w (inv_id j))) db)) as Hl.
    destruct (run (Confirmations.recordUsage w j) _) as [[] db1]. simpl in *.
    right. split; [exact Hl | exact Hi].
  - destruct (Confirmations.is_evm (network j)); [| left; reflexivity].
    destruct (negb (Confirmations.RPC_URL w)); [left; reflexivity |].
    destruct (Confirmations.eth_getTransactionReceipt w _) as [| [txBlock |]];
      try (left; reflexivity).
    destruct (Z.max 0 (tip - txBlock + 1) >=? withDefault (confirmations_required j) 1)%Z.
    + rewrite run_exec, run_exec, run_bind.
      pose proof (recordUsage_outcome w j
                    (Confirmations.update_payment_confirmations (inv_id j)
                       (Z.max 0 (tip - txBlock + 1))
                       (update_invoices (Confirmations.by_id j)
                          (set_confirmed (Confirmations.clock w (inv_id j))) db)))
        as [Hi _].
      pose proof (recordUsage_ledger w j
                    (Confirmations.update_payment_confirmations (inv_id j)
                       (Z.max 0 (tip - txBlock + 1))
                       (update_invoices (Confirmations.by_id j)
                          (set_confirmed (Confirmations.clock w (inv_id j))) db)))
        as Hl.
      destruct (run (Confirmations.recordUsage w j) _) as [[] db1]. simpl in *.
      right. split; [exact Hl | exact Hi].
    + rewrite run_exec. left. reflexivity.
Qed.

Lemma swept_confirmed ok batch a b :
  swept ok batch a b -> status a = confirmed -> status b = confirmed.
Proof. intros [-> | [j [t [_ [_ [_ ->]]]]]] H; [exact H | reflexivity]. Qed.

Lemma sweep_ledger w tip batch :
  forall db,
    (forall j, In j batch -> In (inv_id j) (map inv_id (invoices db))) ->
    let db' := snd (run (Confirmations.sweep w tip batch) db) in
    exists l,
      ledger db' = (ledger db ++ l)%list
      /\ forall r, In r l ->
           exists i, In i (invoices db') /\ inv_id i = ledger_invoice_id r
                     /\ status i = confirmed.
Proof.
  induction batch as [| j rest IH]; intros db Hids; cbv zeta.
  - exists []. split; [symmetry; apply app_nil_r | intros r []].
  - simpl Confirmations.sweep. rewrite run_bind.
    pose proof (visit_swept w tip j db) as F1.
    pose proof (visit_ledger w tip j db) as L1.
    destruct (run (Confirmations.visit w tip j) db) as [goes_on db1].
    cbn [snd] in F1, L1.
    assert (Hids1 : forall k, In k rest -> In (inv_id k) (map inv_id (invoices db1))).
    { intros k Hk.
      rewrite (Forall2_ids (invoices db) (invoices db1)).
      - apply Hids. right. exact Hk.
      - eapply Forall2_weaken; [| exact F1]. intros a b. apply swept_id. }
    (* the rows of [j] after its visit, when the ledger grew *)
    assert (Hj : ledger db1 <> ledger db ->
                 exists i, In i (invoices db1) /\ inv_id i = inv_id j
                           /\ status i = confirmed).
    { intro Hgrew. destruct L1 as [L1 | [_ Hi]]; [contradiction |].
      specialize (Hids j (or_introl eq_refl)). apply in_map_iff in Hids.
      destruct Hids as [a [Ha Hin]].
      exists (set_confirmed (Confirmations.clock w (inv_id j)) a).
      split; [| split; [exact Ha | reflexivity]].
      rewrite Hi. apply update_invoices_In. exists a. split; [exact Hin |].
      unfold Confirmations.by_id. rewrite Ha, String.eqb_refl. reflexivity. }
    assert (Hl1 : exists l1,
               ledger db1 = (ledger db ++ l1)%list
               /\ forall r, In r l1 ->
                    exists i, In i (invoices db1) /\ inv_id i = ledger_invoice_id r
                              /\ status i = confirmed).
    { destruct L1 as [L1 | [L1 _]].
      - exists []. split; [rewrite L1; symmetry; apply app_nil_r | intros r []].
      - exists (opt_list (ledger_entry w j)). split; [exact L1 |].
        intros r Hr. destruct (ledger_entry w j) as [r0 |] eqn:E; [| contradiction].
        destruct Hr as [<- | []]. rewrite (ledger_entry_id w j r0 E).
        apply Hj. rewrite L1. simpl. intro Heq.
        apply (f_equal (@List.length _)) in Heq. rewrite length_app in Heq.
        simpl in Heq. lia. }
    destruct Hl1 as [l1 [El1 Hl1]].
    destruct goes_on.
    + destruct (IH db1 Hids1) as [l2 [El2 Hl2]]. cbv zeta in El2, Hl2.
      pose proof (sweep_swept w tip rest db1) as F2.
      exists (l1 ++ l2)%list. split.
      * rewrite El2, El1, app_assoc. reflexivity.
      * intros r Hr. apply in_app_or in Hr. destruct Hr as [Hr | Hr].
        -- destruct (Hl1 r Hr) as [i [Hi [Hid Hs]]].
           destruct (Forall2_In_l _ _ _ _ F2 Hi) as [i' [Hi' Hsw]].
           exists i'. split; [exact Hi' |].
           split; [rewrite (swept_id _ _ _ _ Hsw); exact Hid |].
           exact (swept_confirmed _ _ _ _ Hsw Hs).
        -- apply Hl2. exact Hr.
    + exists l1. split; [exact El1 | exact Hl1].
Qed.

(** X10.  The ledger is append-only under a sweep, and every row a sweep
    appends belongs to an invoice that the same sweep leaves confirmed:
    there is no new ledger row without a confirmation. *)
Theorem ledger_rows_follow_confirmations :
  forall (w : Confirmations.world) (db : DB),
    let db' := snd (run (Confirmations.serve w) db) in
    exists l,
      ledger db' = (ledger db ++ l)%list
      /\ forall r, In r l ->
           exists i, In i (invoices db') /\ inv_id i = ledger_invoice_id r
                     /\ status i = confirmed.
Proof.
  intros w db. cbv zeta.
  assert (Same : exists l,
             ledger db = (ledger db ++ l)%list
             /\ forall r, In r l ->
                  exists i, In i (invoices db) /\ inv_id i = ledger_invoice_id r
                            /\ status i = confirmed).
  { exists []. split; [symmetry; apply app_nil_r | intros r []]. }
  unfold Confirmations.serve. rewrite run_query.
  destruct (Confirmations.select_paid db) as [| j0 rest] eqn:E; [exact Same |].
  destruct (if Confirmations.RPC_URL w then Confirmations.eth_blockNumber w
            else Confirmations.Answer 0%Z) as [| tip]; [exact Same |].
  rewrite run_bind.
  pose proof (sweep_ledger w tip (j0 :: rest) db) as H.
  destruct (run (Confirmations.sweep w tip (j0 :: rest)) db) as [c db1].
  apply H. intros j Hj. rewrite <- E in Hj. apply select_paid_In in Hj.
  apply in_map. apply Hj.
Qed.

Lemma ledger_rows_follow_confirmations_witness :
  exists l,
    ledger (snd (run (Confirmations.serve Scenario.node_at_100) Scenario.db_paid_usdt))
    = (ledger Scenario.db_paid_usdt ++ l)%list
    /\ forall r, In r l ->
         exists i,
           In i (invoices (snd (run (Confirmations.serve Scenario.node_at_100)
                                  Scenario.db_paid_usdt)))
           /\ inv_id i = ledger_invoice_id r /\ status i = confirmed.
Proof.
  exact (ledger_rows_follow_confirmations Scenario.node_at_100 Scenario.db_paid_usdt).
Defined.

(** ** Monthly usage *)

Lemma month_eqb_eq a b : month_eqb a b = true <-> a = b.
Proof.
  unfold month_eqb. destruct a as [y m], b as [y' m']. simpl.
  rewrite andb_true_iff, !Z.eqb_eq. split.
  - intros [-> ->]. reflexivity.
  - intro H. injection H as -> ->. auto.
Qed.

Lemma usage_key_eqb u m k :
  String.eqb (usage_merchant_id u) m && month_eqb (month u) k = true
  <-> usage_key u = (m, k).
Proof.
  unfold usage_key. rewrite andb_true_iff, String.eqb_eq, month_eqb_eq. split.
  - intros [-> ->]. reflexivity.
  - intro H. injection H as -> ->. auto.
Qed.

Lemma usage_key_neqb u m k :
  String.eqb (usage_merchant_id u) m && month_eqb (month u) k = false
  <-> usage_key u <> (m, k).
Proof.
  rewrite <- usage_key_eqb. destruct (_ && _); split; intro H; congruence.
Qed.

Lemma sumZ_cons x l : sumZ (x :: l) = (x + sumZ l)%Z.
Proof. reflexivity. Qed.

Lemma sumZ_app l l' : sumZ (l ++ l') = (sumZ l + sumZ l')%Z.
Proof.
  induction l as [| x r IH]; [reflexivity |].
  rewrite <- app_comm_cons, !sumZ_cons, IH. lia.
Qed.

Section Upsert.

Variable row : usage_row.

Let same (u : usage_row) : bool :=
  String.eqb (usage_merchant_id u) (usage_merchant_id row) && month_eqb (month u) (month row).

Let up (l : list usage_row) : list usage_row :=
  if existsb same l then map (fun u => if same u then row else u) l else (l ++ [row])%list.

Lemma same_row : same row = true.
Proof. apply usage_key_eqb. reflexivity. Qed.

Lemma same_key u : same u = true <-> usage_key u = usage_key row.
Proof. apply usage_key_eqb. Qed.

Lemma find_upserted l : find same (up l) = Some row.
Proof.
  unfold up. destruct (existsb same l) eqn:E.
  - induction l as [| x r IH]; simpl in *; [discriminate E |].
    destruct (same x) eqn:Ex.
    + rewrite same_row. reflexivity.
    + rewrite Ex. apply IH. exact E.
  - induction l as [| x r IH]; simpl in *.
    + rewrite same_row. reflexivity.
    + apply orb_false_iff in E. destruct E as [Ex Er]. rewrite Ex. apply IH. exact Er.
Qed.

Lemma find_other_key m k l :
  (m, k) <> usage_key row ->
  find (fun u => String.eqb (usage_merchant_id u) m && month_eqb (month u) k) (up l)
  = find (fun u => String.eqb (usage_merchant_id u) m && month_eqb (month u) k) l.
Proof.
  intro N. set (q := fun u => String.eqb (usage_merchant_id u) m && month_eqb (month u) k).
  assert (Hrow : q row = false).
  { apply usage_key_neqb. intro H. apply N. symmetry. exact H. }
  unfold up. destruct (existsb same l).
  - induction l as [| x r IH]; simpl; [reflexivity |].
    destruct (same x) eqn:Ex.
    + assert (Hx : q x = false).
      { apply usage_key_neqb. apply same_key in Ex. rewrite Ex. intro H. apply N.
        symmetry. exact H. }
      rewrite Hrow, Hx. exact IH.
    + destruct (q x); [reflexivity | exact IH].
  - induction l as [| x r IH]; simpl.
    + rewrite Hrow. reflexivity.
    + destruct (q x); [reflexivity | exact IH].
Qed.

Lemma up_keys l : NoDup (map usage_key l) -> NoDup (map usage_key (up l)).
Proof.
  intro N. unfold up. destruct (existsb same l) eqn:E.
  - rewrite map_map.
    rewrite (map_ext (fun u => usage_key (if same u then row else u)) usage_key); [exact N |].
    intro u. destruct (same u) eqn:Eu; [| reflexivity].
    apply same_key in Eu. symmetry. exact Eu.
  - rewrite map_app. simpl. apply NoDup_app.
    + exact N.
    + constructor; [intros [] | constructor].
    + intros key Hk [<- | []].
      apply in_map_iff in Hk. destruct Hk as [u [Hu Hin]].
      pose proof (existsb_false_In _ _ u E Hin) as F.
      apply same_key in Hu. congruence.
Qed.

(** With unique keys the sum over a merchant's rows moves by the
    difference between the new value and the old one. *)
Lemma up_sum m l :
  NoDup (map usage_key l) ->
  sumZ (map gmv_cents (filter (fun u => String.eqb (usage_merchant_id u) m) (up l)))
  = (sumZ (map gmv_cents (filter (fun u => String.eqb (usage_merchant_id u) m) l))
     + (if String.eqb (usage_merchant_id row) m
        then gmv_cents row
             - match find same l with Some u => gmv_cents u | None => 0 end
        else 0))%Z.
Proof.
  unfold up. induction l as [| x r IH]; intro N.
  - simpl. destruct (String.eqb (usage_merchant_id row) m); simpl; lia.
  - inversion N as [| y ys Hnot Hnd]; subst. specialize (IH Hnd).
    cbn [existsb find]. destruct (same x) eqn:Ex.
    + (* the row is here; the tail has no row of this key *)
      cbn [orb map]. rewrite Ex.
      assert (Htail : map (fun u => if same u then row else u) r = r).
      { rewrite <- (map_id r) at 2. apply map_ext_in. intros u Hu.
        destruct (same u) eqn:Eu; [| reflexivity].
        exfalso. apply Hnot. apply same_key in Ex. apply same_key in Eu.
        rewrite Ex, <- Eu. apply in_map. exact Hu. }
      rewrite Htail. cbn [filter].
      assert (Hm : usage_merchant_id x = usage_merchant_id row).
      { apply same_key in Ex. unfold usage_key in Ex. congruence. }
      rewrite Hm. destruct (String.eqb (usage_merchant_id row) m); cbn [map];
        rewrite ?sumZ_cons; lia.
    + cbn [orb]. destruct (existsb same r) eqn:Er.
      * cbn [map]. rewrite Ex. cbn [filter].
        destruct (String.eqb (usage_merchant_id x) m); cbn [map];
          rewrite ?sumZ_cons, IH; lia.
      * cbn [app filter].
        destruct (String.eqb (usage_merchant_id x) m); cbn [map];
          rewrite ?sumZ_cons, IH; lia.
Qed.

End Upsert.

(** What usage recording leaves behind: nothing, or the merchant ensured,
    the month's usage raised by the cents of the ledger row, and that row. *)
Lemma recordUsage_run w inv db :
  snd (run (Confirmations.recordUsage w inv) db)
  = match ledger_entry w inv with
    | None => db
    | Some r =>
        Confirmations.insert_ledger r
          (Confirmations.upsert_usage
             (mkUsage (user_id inv) (Confirmations.clock_month w (inv_id inv))
                (gmv_of_month (user_id inv) (Confirmations.clock_month w (inv_id inv)) db
                 + amount_usd_cents r))
             (Confirmations.ensure_merchant (user_id inv) db))
    end.
Proof.
  unfold Confirmations.recordUsage, ledger_entry.
  destruct (nonempty (user_id inv)); simpl; [| reflexivity].
  destruct (Qeq_bool (amount inv) 0); simpl; [reflexivity |].
  destruct (nonempty (toUpperCase (currency inv))); simpl; [| reflexivity].
  destruct (Confirmations.getUsdPrice w (toUpperCase (currency inv))) as [price |];
    [| reflexivity].
  destruct (Qeq_bool price 0); [reflexivity |].
  rewrite run_exec, run_query, run_exec, run_exec. cbn [run snd amount_usd_cents].
  unfold gmv_of_month, Confirmations.select_usage, Confirmations.ensure_merchant.
  destruct (existsb _ (merchants db)); reflexivity.
Qed.

Lemma ledger_entry_merchant w inv r :
  ledger_entry w inv = Some r -> ledger_merchant_id r = user_id inv.
Proof.
  unfold ledger_entry.
  destruct (nonempty (user_id inv) && negb (Qeq_bool (amount inv) 0)
            && nonempty (toUpperCase (currency inv))); [| discriminate].
  destruct (Confirmations.getUsdPrice w _) as [price |]; [| discriminate].
  destruct (Qeq_bool price 0); [discriminate |].
  intro H. injection H as <-. reflexivity.
Qed.

Lemma usage_after_upsert row db :
  usage (Confirmations.upsert_usage row db)
  = if existsb (fun u => String.eqb (usage_merchant_id u) (usage_merchant_id row)
                         && month_eqb (month u) (month row)) (usage db)
    then map (fun u => if String.eqb (usage_merchant_id u) (usage_merchant_id row)
                          && month_eqb (month u) (month row) then row else u) (usage db)
    else (usage db ++ [row])%list.
Proof.
  unfold Confirmations.upsert_usage. cbv zeta.
  destruct (existsb _ (usage db)); reflexivity.
Qed.

Lemma usage_after_ensure m db : usage (Confirmations.ensure_merchant m db) = usage db.
Proof. unfold Confirmations.ensure_merchant. destruct (existsb _ _); reflexivity. Qed.

(** X11.  When usage recording writes a ledger row for an invoice, the
    monthly usage that the entitlement check of [buy] reads for the
    invoice's merchant rises by exactly the USD cents of that row (when
    the check runs in the month of the recording), no other merchant's
    usage moves, the key (merchant, month) stays unique, the merchant has a
    row afterwards, and no existing merchant row - its plan tier, its
    trial end - is touched. *)
Theorem recorded_usage_is_what_entitlement_reads :
  forall (w : Confirmations.world) (bw : Buy.world) (inv : invoice) (r : ledger_row)
         (db : DB),
    ledger_entry w inv = Some r ->
    Buy.now_month bw = Confirmations.clock_month w (inv_id inv) ->
    let db' := snd (run (Confirmations.recordUsage w inv) db) in
    gmv_this_month bw (user_id inv) db'
    = (gmv_this_month bw (user_id inv) db + amount_usd_cents r)%Z
    /\ (forall m, m <> user_id inv ->
          gmv_this_month bw m db' = gmv_this_month bw m db)
    /\ (usage_keys_unique db -> usage_keys_unique db')
    /\ (exists row, Buy.select_merchant (user_id inv) db' = Some row)
    /\ (forall m row, Buy.select_merchant m db = Some row ->
          Buy.select_merchant m db' = Some row).
Proof.
  intros w bw inv r db Hr Hmonth db'. subst db'.
  rewrite recordUsage_run, Hr.
  set (k := Confirmations.clock_month w (inv_id inv)) in *.
  set (row := mkUsage (user_id inv) k
                (gmv_of_month (user_id inv) k db + amount_usd_cents r)).
  unfold gmv_this_month, Buy.select_gmv. rewrite Hmonth.
  cbn [usage Confirmations.insert_ledger with_ledger].
  rewrite usage_after_upsert, usage_after_ensure.
  split; [| split; [| split; [| split]]].
  - rewrite (find_upserted row). reflexivity.
  - intros m Hm. rewrite (find_other_key row m k); [reflexivity |].
    unfold usage_key, row. simpl. congruence.
  - unfold usage_keys_unique. cbn [usage Confirmations.insert_ledger with_ledger].
    rewrite usage_after_upsert, usage_after_ensure. apply (up_keys row).
  - unfold Buy.select_merchant.
    cbn [merchants Confirmations.insert_ledger with_ledger Confirmations.upsert_usage].
    assert (Hm : merchants (Confirmations.upsert_usage row
                              (Confirmations.ensure_merchant (user_id inv) db))
                 = merchants (Confirmations.ensure_merchant (user_id inv) db)).
    { unfold Confirmations.upsert_usage. cbv zeta. destruct (existsb _ _); reflexivity. }
    rewrite Hm. unfold Confirmations.ensure_merchant.
    destruct (existsb (fun m => String.eqb (merchant_id m) (user_id inv)) (merchants db))
      eqn:E.
    + apply existsb_exists in E. destruct E as [x [Hx Hid]].
      destruct (find (fun m => String.eqb (merchant_id m) (user_id inv)) (merchants db))
        as [y |] eqn:F; [exists y; reflexivity |].
      exfalso. pose proof (find_none _ _ F x Hx) as C. cbv beta in C. congruence.
    + cbn [merchants with_merchants].
      induction (merchants db) as [| x l IH]; simpl in *.
      * rewrite String.eqb_refl. eexists; reflexivity.
      * apply orb_false_iff in E. destruct E as [Ex El]. rewrite Ex. apply IH. exact El.
  - intros m mrow Hsel. unfold Buy.select_merchant in *.
    cbn [merchants Confirmations.insert_ledger with_ledger].
    assert (Hm : merchants (Confirmations.upsert_usage row
                              (Confirmations.ensure_merchant (user_id inv) db))
                 = merchants (Confirmations.ensure_merchant (user_id inv) db)).
    { unfold Confirmations.upsert_usage. cbv zeta. destruct (existsb _ _); reflexivity. }
    rewrite Hm. unfold Confirmations.ensure_merchant.
    destruct (existsb _ (merchants db)); [exact Hsel |].
    cbn [merchants with_merchants].
    induction (merchants db) as [| x l IH]; simpl in *; [discriminate Hsel |].
    destruct (String.eqb (merchant_id x) m); [exact Hsel | apply IH; exact Hsel].
Qed.

Lemma recorded_usage_is_what_entitlement_reads_witness :
  ledger_entry Scenario.node_at_100 (Scenario.paid_evm "inv-usdt" "USDT" "0xbbb")
  = Some (mkLedger "m-1" "inv-usdt" "USDT" (1000 # 1) 100000)
  /\ gmv_this_month Scenario.shop "m-1"
       (snd (run (Confirmations.recordUsage Scenario.node_at_100
                    (Scenario.paid_evm "inv-usdt" "USDT" "0xbbb"))
                 (Scenario.db_basic 950000)))
     = 1050000%Z.
Proof.
  split; [reflexivity |].
  exact (proj1 (recorded_usage_is_what_entitlement_reads Scenario.node_at_100
                  Scenario.shop (Scenario.paid_evm "inv-usdt" "USDT" "0xbbb") _
                  (Scenario.db_basic 950000) eq_refl eq_refl)).
Defined.

(** ** The books *)

Lemma books_follow_refl db : usage_keys_unique db -> books_follow db db.
Proof. intro N. split; [exact N | intro m; lia]. Qed.

Lemma books_follow_trans a b c : books_follow a b -> books_follow b c -> books_follow a c.
Proof.
  intros [_ H1] [N2 H2]. split; [exact N2 |].
  intro m. specialize (H1 m). specialize (H2 m). lia.
Qed.

(** Only the usage and ledger tables count. *)
Lemma books_follow_tables a a' b b' :
  usage a' = usage a -> ledger a' = ledger a ->
  usage b' = usage b -> ledger b' = ledger b ->
  books_follow a b -> books_follow a' b'.
Proof.
  unfold books_follow, usage_keys_unique, merchant_gmv, merchant_ledger.
  intros -> -> -> ->. auto.
Qed.

Lemma recordUsage_books w inv db :
  usage_keys_unique db ->
  books_follow db (snd (run (Confirmations.recordUsage w inv) db)).
Proof.
  intro N. rewrite recordUsage_run.
  destruct (ledger_entry w inv) as [r |] eqn:Hr; [| apply books_follow_refl; exact N].
  set (k := Confirmations.clock_month w (inv_id inv)).
  set (row := mkUsage (user_id inv) k
                (gmv_of_month (user_id inv) k db + amount_usd_cents r)).
  unfold books_follow, usage_keys_unique, merchant_gmv, merchant_ledger.
  cbn [usage ledger Confirmations.insert_ledger with_ledger].
  assert (Hl : ledger (Confirmations.upsert_usage row
                         (Confirmations.ensure_merchant (user_id inv) db)) = ledger db).
  { unfold Confirmations.upsert_usage, Confirmations.ensure_merchant. cbv zeta.
    destruct (existsb _ (merchants db)); destruct (existsb _ _); reflexivity. }
  rewrite Hl, usage_after_upsert, usage_after_ensure.
  split; [apply (up_keys row); exact N |].
  intro m. rewrite (up_sum row m _ N).
  rewrite filter_app, map_app, sumZ_app. cbn [filter].
  rewrite (ledger_entry_merchant w inv r Hr).
  change (usage_merchant_id row) with (user_id inv).
  change (gmv_cents row)
    with (gmv_of_month (user_id inv) k db + amount_usd_cents r)%Z.
  unfold gmv_of_month, Confirmations.select_usage.
  change (month row) with k.
  destruct (String.eqb (user_id inv) m); cbn [map]; rewrite ?sumZ_cons;
    change (sumZ []) with 0%Z; lia.
Qed.

Lemma visit_books w tip j db :
  usage_keys_unique db ->
  books_follow db (snd (run (Confirmations.visit w tip j) db)).
Proof.
  intro N.
  assert (Rec : forall d,
            usage d = usage db -> ledger d = ledger db ->
            books_follow db
              (snd (run (bind (Confirmations.recordUsage w j) (fun _ => Ret true)) d))).
  { intros d Hu Hl. rewrite run_bind.
    assert (Nd : usage_keys_unique d) by (unfold usage_keys_unique; rewrite Hu; exact N).
    pose proof (recordUsage_books w j d Nd) as B.
    destruct (run (Confirmations.recordUsage w j) d) as [[] d1]. cbn [snd] in *.
    apply (books_follow_tables d db d1 d1); auto. }
  unfold Confirmations.visit.
  destruct (col_eq (network j) "solana").
  - destruct (Confirmations.getSignatureStatuses w _) as [| [|]];
      try (apply books_follow_refl; exact N).
    rewrite run_exec. apply Rec; reflexivity.
  - destruct (Confirmations.is_evm (network j)); [| apply books_follow_refl; exact N].
    destruct (negb (Confirmations.RPC_URL w)); [apply books_follow_refl; exact N |].
    destruct (Confirmations.eth_getTransactionReceipt w _) as [| [txBlock |]];
      try (apply books_follow_refl; exact N).
    destruct (Z.max 0 (tip - txBlock + 1) >=? withDefault (confirmations_required j) 1)%Z.
    + rewrite run_exec, run_exec. apply Rec; reflexivity.
    + rewrite run_exec. cbn [run snd].
      apply (books_follow_tables db db db
               (Confirmations.update_payment_confirmations (inv_id j)
                  (Z.max 0 (tip - txBlock + 1)) db)); try reflexivity.
      apply books_follow_refl. exact N.
Qed.

Lemma sweep_books w tip batch :
  forall db, usage_keys_unique db ->
    books_follow db (snd (run (Confirmations.sweep w tip batch) db)).
Proof.
  induction batch as [| j rest IH]; intros db N.
  - apply books_follow_refl. exact N.
  - simpl Confirmations.sweep. rewrite run_bind.
    pose proof (visit_books w tip j db N) as B1.
    destruct (run (Confirmations.visit w tip j) db) as [goes_on db1]. cbn [snd] in B1.
    destruct goes_on; [| exact B1].
    eapply books_follow_trans; [exact B1 |]. apply IH. apply B1.
Qed.

(** X12.  A sweep keeps the books: if the key (merchant, month) of the
    usage table is unique before, it is unique after, and for every
    merchant the usage summed over its months has risen by exactly what the
    sweep added to the merchant's ledger in USD cents - also when the sweep
    is cut short by an exception. *)
Theorem sweep_keeps_usage_in_step_with_ledger :
  forall (w : Confirmations.world) (db : DB),
    usage_keys_unique db ->
    books_follow db (snd (run (Confirmations.serve w) db)).
Proof.
  intros w db N. unfold Confirmations.serve. rewrite run_query.
  destruct (Confirmations.select_paid db) as [| j0 rest];
    [apply books_follow_refl; exact N |].
  destruct (if Confirmations.RPC_URL w then Confirmations.eth_blockNumber w
            else Confirmations.Answer 0%Z) as [| tip];
    [apply books_follow_refl; exact N |].
  rewrite run_bind.
  pose proof (sweep_books w tip (j0 :: rest) db N) as B.
  destruct (run (Confirmations.sweep w tip (j0 :: rest)) db) as [c db1]. exact B.
Qed.

Lemma sweep_keeps_usage_in_step_with_ledger_witness :
  usage_keys_unique Scenario.db_paid_usdt
  /\ books_follow Scenario.db_paid_usdt
       (snd (run (Confirmations.serve Scenario.node_at_100) Scenario.db_paid_usdt))
  /\ merchant_ledger "m-1"
       (snd (run (Confirmations.serve Scenario.node_at_100) Scenario.db_paid_usdt))
     = 100000%Z.
Proof.
  assert (N : usage_keys_unique Scenario.db_paid_usdt) by constructor.
  split; [exact N |]. split; [| reflexivity].
  apply (sweep_keeps_usage_in_step_with_ledger Scenario.node_at_100
           Scenario.db_paid_usdt N).
Defined.

(** ** The sweep before usage recording *)

Lemma visit_agree w tip j d d' :
  invoices d = invoices d' -> payments d = payments d' ->
  let o := run (ConfirmationsBare.visit w tip j) d in
  let n := run (Confirmations.visit w tip j) d' in
  fst o = fst n
  /\ invoices (snd o) = invoices (snd n)
  /\ payments (snd o) = payments (snd n)
  /\ merchants (snd o) = merchants d
  /\ usage (snd o) = usage d
  /\ ledger (snd o) = ledger d.
Proof.
  intros Hi Hp. cbv zeta.
  unfold ConfirmationsBare.visit, Confirmations.visit.
  destruct (col_eq (network j) "solana").
  - destruct (Confirmations.getSignatureStatuses w _) as [| [|]];
      try (cbn [run fst snd]; auto 10).
    rewrite !run_exec, run_bind.
    pose proof (recordUsage_outcome w j
                  (update_invoices (Confirmations.by_id j)
                     (set_confirmed (Confirmations.clock w (inv_id j))) d')) as [Ri [Rp _]].
    destruct (run (Confirmations.recordUsage w j) _) as [[] d1].
    cbn [run fst snd] in *. rewrite Ri, Rp. cbn [invoices payments update_invoices with_invoices].
    rewrite Hi, Hp. auto 10.
  - destruct (Confirmations.is_evm (network j)); [| cbn [run fst snd]; auto 10].
    destruct (negb (Confirmations.RPC_URL w)); [cbn [run fst snd]; auto 10 |].
    destruct (Confirmations.eth_getTransactionReceipt w _) as [| [txBlock |]];
      try (cbn [run fst snd]; auto 10).
    destruct (Z.max 0 (tip - txBlock + 1) >=? withDefault (confirmations_required j) 1)%Z.
    + rewrite !run_exec, run_bind.
      pose proof (recordUsage_outcome w j
                    (Confirmations.update_payment_confirmations (inv_id j)
                       (Z.max 0 (tip - txBlock + 1))
                       (update_invoices (Confirmations.by_id j)
                          (set_confirmed (Confirmations.clock w (inv_id j))) d')))
        as [Ri [Rp _]].
      destruct (run (Confirmations.recordUsage w j) _) as [[] d1].
      cbn [run fst snd] in *. rewrite Ri, Rp.
      cbn [invoices payments update_invoices with_invoices
           Confirmations.update_payment_confirmations with_payments].
      rewrite Hi, Hp. auto 10.
    + rewrite !run_exec. cbn [run fst snd].
      cbn [invoices payments Confirmations.update_payment_confirmations with_payments].
      rewrite Hi, Hp. auto 10.
Qed.

Lemma sweep_agree w tip batch :
  forall d d',
    invoices d = invoices d' -> payments d = payments d' ->
    let o := run (ConfirmationsBare.sweep w tip batch) d in
    let n := run (Confirmations.sweep w tip batch) d' in
    fst o = fst n
    /\ invoices (snd o) = invoices (snd n)
    /\ payments (snd o) = payments (snd n)
    /\ merchants (snd o) = merchants d
    /\ usage (snd o) = usage d
    /\ ledger (snd o) = ledger d.
Proof.
  induction batch as [| j rest IH]; intros d d' Hi Hp; cbv zeta.
  - cbn [ConfirmationsBare.sweep Confirmations.sweep run fst snd]. auto 10.
  - simpl ConfirmationsBare.sweep. simpl Confirmations.sweep. rewrite !run_bind.
    destruct (visit_agree w tip j d d' Hi Hp) as [Hf [Hi1 [Hp1 [Hm [Hu Hl]]]]].
    destruct (run (ConfirmationsBare.visit w tip j) d) as [go d1].
    destruct (run (Confirmations.visit w tip j) d') as [go' d1'].
    cbn [fst snd] in *. subst go'.
    destruct go.
    + destruct (IH d1 d1' Hi1 Hp1) as [Hf2 [Hi2 [Hp2 [Hm2 [Hu2 Hl2]]]]].
      repeat split; congruence.
    + cbn [run fst snd]. auto 10.
Qed.

(** X13.  The earlier version of the sweep, which has no usage recording,
    and the later one answer alike and leave [invoices] and [payments] in
    the same state, whatever the store and the world; the earlier one
    leaves [merchants], the monthly usage and the ledger untouched.  Usage
    recording is all that the later version adds. *)
Theorem usage_recording_is_the_only_difference :
  forall (w : Confirmations.world) (db : DB),
    let o := run (ConfirmationsBare.serve w) db in
    let n := run (Confirmations.serve w) db in
    fst o = fst n
    /\ invoices (snd o) = invoices (snd n)
    /\ payments (snd o) = payments (snd n)
    /\ merchants (snd o) = merchants db
    /\ usage (snd o) = usage db
    /\ ledger (snd o) = ledger db.
Proof.
  intros w db. cbv zeta.
  unfold ConfirmationsBare.serve, Confirmations.serve. rewrite !run_query.
  destruct (Confirmations.select_paid db) as [| j0 rest];
    [cbn [run fst snd]; auto 10 |].
  destruct (if Confirmations.RPC_URL w then Confirmations.eth_blockNumber w
            else Confirmations.Answer 0%Z) as [| tip];
    [cbn [run fst snd]; auto 10 |].
  rewrite !run_bind.
  destruct (sweep_agree w tip (j0 :: rest) db db eq_refl eq_refl)
    as [Hf [Hi [Hp [Hm [Hu Hl]]]]].
  destruct (run (ConfirmationsBare.sweep w tip (j0 :: rest)) db) as [c d1].
  destruct (run (Confirmations.sweep w tip (j0 :: rest)) db) as [c' d1'].
  cbn [run fst snd] in *. subst c'. auto 10.
Qed.

(** ** Which invoice an event pays *)






(** ** The public read, whatever the request *)

(** X15.  The public invoice endpoint never writes.  A token that is empty
    or not a uuid is answered 400 before any store call; a well-formed
    token that no invoice bears is answered 404, and one that several
    invoices bear (the column has no unique constraint) 500; any method
    other than GET, POST and OPTIONS is answered 405. *)
Theorem public_read_never_writes :
  forall (req : InvoicePublic.request) (db : DB),
    let out := run (InvoicePublic.serve req) db in
    snd out = db
    /\ (InvoicePublic.method req = "GET" \/ InvoicePublic.method req = "POST" ->
        (Format.isUuid (InvoicePublic.token req) = false ->
           fst out = InvoicePublic.Error 400 "Invalid token"
           /\ calls (InvoicePublic.serve req) db = 0%nat)
        /\ (Format.isUuid (InvoicePublic.token req) = true ->
            SolanaReceipt.select_by_token (InvoicePublic.token req) db = NoRow ->
            fst out = InvoicePublic.Error 404 "Not found")
        /\ (Format.isUuid (InvoicePublic.token req) = true ->
            SolanaReceipt.select_by_token (InvoicePublic.token req) db = ManyRows ->
            exists msg, fst out = InvoicePublic.Error 500 msg))
    /\ (InvoicePublic.method req <> "GET" -> InvoicePublic.method req <> "POST" ->
        InvoicePublic.method req <> "OPTIONS" ->
        fst out = InvoicePublic.Error 405 "Method not allowed").
Proof.
  intros req db. cbv zeta. split; [| split].
  - unfold InvoicePublic.serve.
    destruct (String.eqb (InvoicePublic.method req) "OPTIONS"); [reflexivity |].
    destruct (negb _); [reflexivity |].
    destruct (negb (nonempty (InvoicePublic.token req))
              || negb (Format.isUuid (InvoicePublic.token req))); [reflexivity |].
    rewrite run_query.
    destruct (SolanaReceipt.select_by_token (InvoicePublic.token req) db); reflexivity.
  - intro Hm.
    assert (Ho : String.eqb (InvoicePublic.method req) "OPTIONS" = false).
    { destruct Hm as [E | E]; rewrite E; reflexivity. }
    assert (Hgp : String.eqb (InvoicePublic.method req) "GET"
                  || String.eqb (InvoicePublic.method req) "POST" = true).
    { destruct Hm as [E | E]; rewrite E; reflexivity. }
    unfold InvoicePublic.serve. rewrite Ho, Hgp. simpl negb. cbv iota.
    split; [| split].
    + intro Hu. rewrite Hu. simpl negb. rewrite orb_true_r. split; reflexivity.
    + intros Hu Hsel.
      assert (Hne : nonempty (InvoicePublic.token req) = true).
      { destruct (InvoicePublic.token req); [discriminate Hu | reflexivity]. }
      rewrite Hu, Hne. simpl. rewrite Hsel. reflexivity.
    + intros Hu Hsel.
      assert (Hne : nonempty (InvoicePublic.token req) = true).
      { destruct (InvoicePublic.token req); [discriminate Hu | reflexivity]. }
      rewrite Hu, Hne. simpl. rewrite Hsel. eexists. reflexivity.
  - intros Ng Np No.
    apply String.eqb_neq in Ng. apply String.eqb_neq in Np. apply String.eqb_neq in No.
    unfold InvoicePublic.serve. rewrite No, Ng, Np. reflexivity.
Qed.

Lemma public_read_never_writes_witness :
  run (InvoicePublic.serve (InvoicePublic.mkRequest "GET" "not-a-token")) Scenario.db_three
  = (InvoicePublic.Error 400 "Invalid token", Scenario.db_three).
Proof.
  destruct (public_read_never_writes (InvoicePublic.mkRequest "GET" "not-a-token")
              Scenario.db_three) as [Hdb [H _]].
  destruct (H (or_introl eq_refl)) as [H400 _].
  destruct (H400 eq_refl) as [Hr _].
  rewrite (surjective_pairing (run _ _)), Hdb, Hr. reflexivity.
Defined.

(** ** What issuance writes *)






(** ** Amounts at the edge of the rounding *)






(** ** The earlier handler and its fee *)




(** ** Plans from Stripe *)

(** X19.  The plan tier that a subscription event writes is [basic_50],
    [pro_100], [past_due] or [canceled], or the column is left alone; it is
    never [trial].  The status decides first: [past_due] and [unpaid] give
    [past_due], [canceled] and [incomplete_expired] give [canceled],
    whatever the price.  Otherwise the price decides, the Pro price or
    product winning over the Basic one; and a subscription that is
    [trialing] or [active] on a price that matches neither is written as
    [basic_50]. *)
Theorem subscription_event_tier :
  forall (e : BillingWebhook.env) (sub : BillingWebhook.subscription),
    let t := BillingWebhook.subscription_tier e sub in
    let st := BillingWebhook.str (BillingWebhook.sub_status sub) in
    let priced :=
      BillingWebhook.priceToTier e
        (BillingWebhook.truthy (BillingWebhook.sub_price_id sub))
        (match BillingWebhook.sub_product sub with
         | BillingWebhook.ProductId s => Some s
         | BillingWebhook.ProductObject o => BillingWebhook.truthy o
         end) in
    (t = None \/ t = Some "basic_50" \/ t = Some "pro_100"
     \/ t = Some "past_due" \/ t = Some "canceled")
    /\ (st = "past_due" \/ st = "unpaid" -> t = Some "past_due")
    /\ (st = "canceled" \/ st = "incomplete_expired" -> t = Some "canceled")
    /\ (st = "trialing" \/ st = "active" -> t = Some (withDefault priced "basic_50"))
    /\ (st <> "past_due" -> st <> "unpaid" -> st <> "canceled" ->
        st <> "incomplete_expired" -> st <> "trialing" -> st <> "active" -> t = priced)
    /\ (priced = Some "pro_100"
        <-> BillingWebhook.tierMatchesEnv (BillingWebhook.PRICE_PRO_100 e)
              (BillingWebhook.truthy (BillingWebhook.sub_price_id sub))
              (match BillingWebhook.sub_product sub with
               | BillingWebhook.ProductId s => Some s
               | BillingWebhook.ProductObject o => BillingWebhook.truthy o
               end) = true).
Proof.
  intros e sub. cbv zeta. unfold BillingWebhook.subscription_tier.
  set (st := BillingWebhook.str (BillingWebhook.sub_status sub)).
  set (priced := BillingWebhook.priceToTier e _ _).
  assert (Hp : priced = None \/ priced = Some "basic_50" \/ priced = Some "pro_100").
  { unfold priced, BillingWebhook.priceToTier.
    destruct (BillingWebhook.tierMatchesEnv (BillingWebhook.PRICE_PRO_100 e) _ _); [auto |].
    destruct (BillingWebhook.tierMatchesEnv (BillingWebhook.PRICE_BASIC_50 e) _ _); auto. }
  split; [| split; [| split; [| split; [| split]]]].
  - destruct (String.eqb st "canceled" || String.eqb st "incomplete_expired"); [auto 6 |].
    destruct (String.eqb st "past_due" || String.eqb st "unpaid"); [auto 6 |].
    destruct (String.eqb st "active"), (String.eqb st "trialing");
      destruct Hp as [-> | [-> | ->]]; simpl; auto 6.
  - intros [-> | ->]; reflexivity.
  - intros [-> | ->]; reflexivity.
  - intros [-> | ->]; simpl; destruct Hp as [-> | [-> | ->]]; reflexivity.
  - intros N1 N2 N3 N4 N5 N6.
    apply String.eqb_neq in N1, N2, N3, N4, N5, N6.
    rewrite N1, N2, N3, N4, N5, N6. reflexivity.
  - unfold priced, BillingWebhook.priceToTier.
    destruct (BillingWebhook.tierMatchesEnv (BillingWebhook.PRICE_PRO_100 e) _ _).
    + split; reflexivity.
    + destruct (BillingWebhook.tierMatchesEnv (BillingWebhook.PRICE_BASIC_50 e) _ _);
        split; intro H; discriminate H.
Qed.

Lemma subscription_event_tier_witness :
  BillingWebhook.subscription_tier Scenario.stripe_env (Scenario.sub_of "unpaid")
  = Some "past_due"
  /\ BillingWebhook.subscription_tier Scenario.stripe_env (Scenario.sub_of "active")
     = Some "basic_50".
Proof.
  split.
  - apply (subscription_event_tier Scenario.stripe_env (Scenario.sub_of "unpaid")).
    right. reflexivity.
  - apply (proj1 (proj2 (proj2 (proj2
             (subscription_event_tier Scenario.stripe_env (Scenario.sub_of "active")))))).
    right. reflexivity.
Defined.

(** ** The merchants table under Stripe events *)

Lemma upsert_ids p rows :
  map BillingWebhook.id (BillingWebhook.upsert p rows) = map BillingWebhook.id rows
  \/ (~ In (BillingWebhook.set_id p) (map BillingWebhook.id rows)
      /\ BillingWebhook.upsert p rows = (rows ++ [BillingWebhook.inserted p])%list).
Proof.
  unfold BillingWebhook.upsert.
  destruct (existsb (fun r => String.eqb (BillingWebhook.id r) (BillingWebhook.set_id p)) rows)
    eqn:E.
  - left. rewrite map_map. apply map_ext. intro r.
    destruct (String.eqb (BillingWebhook.id r) (BillingWebhook.set_id p)); reflexivity.
  - right. split; [| reflexivity].
    intro Hin. apply in_map_iff in Hin. destruct Hin as [r [Hr Hin]].
    pose proof (existsb_false_In _ _ r E Hin) as F. cbv beta in F.
    rewrite Hr, String.eqb_refl in F. discriminate F.
Qed.

(** What [upsertMerchantState] comes to: it throws, it leaves the table, or
    it upserts one patch that carries the plan and the trial end given. *)
Lemma upsertMerchantState_cases uuid p rows :
  BillingWebhook.upsertMerchantState uuid p rows = None
  \/ BillingWebhook.upsertMerchantState uuid p rows = Some rows
  \/ exists key cust sub trial pstart pend,
       BillingWebhook.upsertMerchantState uuid p rows
       = Some (BillingWebhook.upsert
                 (BillingWebhook.mkPatch key cust sub (BillingWebhook.planTier p)
                    trial pstart pend) rows)
       /\ BillingWebhook.column (BillingWebhook.trialEndsAt p) = Some trial.
Proof.
  unfold BillingWebhook.upsertMerchantState.
  destruct (BillingWebhook.column (BillingWebhook.trialEndsAt p)) as [trial |]; [| auto].
  destruct (BillingWebhook.column (BillingWebhook.periodStart p)) as [pstart |]; [| auto].
  destruct (BillingWebhook.column (BillingWebhook.periodEnd p)) as [pend |]; [| auto].
  destruct (BillingWebhook.truthy _) as [key |]; [| auto].
  right. right. eexists _, _, _, _, _, _. split; reflexivity.
Qed.

Lemma handle_cases e uuid ev rows :
  BillingWebhook.handle e uuid ev rows = None
  \/ BillingWebhook.handle e uuid ev rows = Some rows
  \/ exists p, BillingWebhook.handle e uuid ev rows
               = Some (BillingWebhook.upsert p rows)
               /\ (carries_no_plan ev ->
                   BillingWebhook.set_plan_tier p = None
                   /\ BillingWebhook.set_trial_ends_at p = None).
Proof.
  destruct ev as [c s m | sub | s c | s c |]; cbn [BillingWebhook.handle]; auto.
  all: match goal with
       | |- context [BillingWebhook.upsertMerchantState ?u ?p ?r] =>
           destruct (upsertMerchantState_cases u p r)
             as [H | [H | [key [cust [sb [trial [ps [pe [H Ht]]]]]]]]];
             rewrite H; auto
       end.
  all: right; right; eexists; (split; [reflexivity |]); cbn [carries_no_plan].
  - intros _. cbn in Ht. injection Ht as <-. split; reflexivity.
  - intros [].
  - intros _. cbn in Ht. injection Ht as <-. split; reflexivity.
  - intros [].
Qed.

(** X20.  The Stripe webhook keeps the primary key of [merchants]: a
    delivery changes the table by rewriting rows in place under their ids
    or by appending one row under an id not yet present, so the ids stay
    pairwise distinct and no merchant is ever removed.  A delivery that is
    not answered 200 - wrong method, Stripe not configured, signature not
    verified, or a handler failure - leaves the table as it was. *)
Theorem stripe_webhook_keeps_merchant_ids :
  forall (e : BillingWebhook.env) (req : BillingWebhook.request)
         (rows : list BillingWebhook.merchant_row),
    merchant_ids_unique rows ->
    let out := BillingWebhook.serve e req rows in
    merchant_ids_unique (snd out)
    /\ (exists added,
          map BillingWebhook.id (snd out) = (map BillingWebhook.id rows ++ added)%list
          /\ (List.length added <= 1)%nat)
    /\ (fst out <> BillingWebhook.Received -> snd out = rows).
Proof.
  intros e req rows N. cbv zeta.
  assert (Same : merchant_ids_unique rows
                 /\ (exists added,
                       map BillingWebhook.id rows
                       = (map BillingWebhook.id rows ++ added)%list
                       /\ (List.length added <= 1)%nat)).
  { split; [exact N |]. exists []. split; [symmetry; apply app_nil_r | simpl; lia]. }
  unfold BillingWebhook.serve.
  destruct (negb (String.eqb (BillingWebhook.method req) "POST"));
    [cbn [fst snd]; split; [apply Same | split; [apply Same | reflexivity]] |].
  destruct (negb (nonempty (BillingWebhook.STRIPE_SECRET_KEY e))
            || negb (nonempty (BillingWebhook.STRIPE_WEBHOOK_SECRET e)));
    [cbn [fst snd]; split; [apply Same | split; [apply Same | reflexivity]] |].
  destruct (BillingWebhook.verified req) as [ev |];
    [| cbn [fst snd]; split; [apply Same | split; [apply Same | reflexivity]]].
  destruct (handle_cases e (BillingWebhook.randomUUID req) ev rows)
    as [H | [H | [p [H _]]]]; rewrite H; cbn [fst snd].
  - split; [apply Same | split; [apply Same | reflexivity]].
  - split; [apply Same | split; [apply Same | intro C; contradiction]].
  - split; [| split; [| intro C; contradiction]].
    + unfold merchant_ids_unique.
      destruct (upsert_ids p rows) as [E | [Hnew E]]; rewrite E; [exact N |].
      rewrite map_app. apply NoDup_app.
      * exact N.
      * constructor; [intros [] | constructor].
      * intros k Hk [<- | []]. apply Hnew. exact Hk.
    + destruct (upsert_ids p rows) as [E | [_ E]]; rewrite E.
      * exists []. split; [symmetry; apply app_nil_r | simpl; lia].
      * exists [BillingWebhook.id (BillingWebhook.inserted p)].
        split; [apply map_app | simpl; lia].
Qed.

Lemma stripe_webhook_keeps_merchant_ids_witness :
  merchant_ids_unique Scenario.merchants_basic
  /\ merchant_ids_unique
       (snd (BillingWebhook.serve Scenario.stripe_env
               (Scenario.stripe_delivery
                  (BillingWebhook.invoice_payment_failed (Some "sub_9") (Some "cus_9")))
               Scenario.merchants_basic)).
Proof.
  assert (N : merchant_ids_unique Scenario.merchants_basic).
  { unfold merchant_ids_unique. simpl. constructor; [intros [] | constructor]. }
  split; [exact N |].
  apply (stripe_webhook_keeps_merchant_ids Scenario.stripe_env _ _ N).
Defined.

Lemma view_after_planless_upsert p rows :
  BillingWebhook.set_plan_tier p = None ->
  BillingWebhook.set_trial_ends_at p = None ->
  exists added,
    entitlement_view (BillingWebhook.upsert p rows) = (entitlement_view rows ++ added)%list
    /\ forall x, In x added -> plan_tier x = "trial" /\ trial_ends_at x = None.
Proof.
  intros Hp Ht. unfold BillingWebhook.upsert, entitlement_view.
  destruct (existsb _ rows).
  - exists []. split; [| intros x []]. rewrite app_nil_r, map_map. apply map_ext.
    intro r. destruct (String.eqb (BillingWebhook.id r) (BillingWebhook.set_id p));
      [| reflexivity].
    unfold BillingWebhook.merge. cbn. rewrite Hp, Ht. reflexivity.
  - eexists. rewrite map_app. split; [reflexivity |].
    intros x [<- | []]. unfold BillingWebhook.inserted. cbn. rewrite Hp, Ht. auto.
Qed.

(** X21.  A completed checkout and a paid Stripe invoice carry no plan: the
    delivery leaves the plan tier and the trial end of every existing
    merchant as they were - a merchant that is [past_due] stays so when its
    invoice is paid, until a subscription event arrives - and a merchant
    row such a delivery creates starts on the default tier [trial] with no
    trial end. *)
Theorem planless_events_keep_the_plan :
  forall (e : BillingWebhook.env) (req : BillingWebhook.request) (ev : BillingWebhook.event)
         (rows : list BillingWebhook.merchant_row),
    BillingWebhook.verified req = Some ev ->
    carries_no_plan ev ->
    exists added,
      entitlement_view (snd (BillingWebhook.serve e req rows))
      = (entitlement_view rows ++ added)%list
      /\ forall x, In x added -> plan_tier x = "trial" /\ trial_ends_at x = None.
Proof.
  intros e req ev rows Hev Hno.
  assert (Same : exists added,
             entitlement_view rows = (entitlement_view rows ++ added)%list
             /\ forall x, In x added -> plan_tier x = "trial" /\ trial_ends_at x = None).
  { exists []. split; [symmetry; apply app_nil_r | intros x []]. }
  unfold BillingWebhook.serve. rewrite Hev.
  destruct (negb (String.eqb (BillingWebhook.method req) "POST")); [exact Same |].
  destruct (negb (nonempty (BillingWebhook.STRIPE_SECRET_KEY e))
            || negb (nonempty (BillingWebhook.STRIPE_WEBHOOK_SECRET e))); [exact Same |].
  destruct (handle_cases e (BillingWebhook.randomUUID req) ev rows)
    as [H | [H | [p [H Hp]]]]; rewrite H; cbn [snd]; try exact Same.
  destruct (Hp Hno) as [Hplan Htrial].
  exact (view_after_planless_upsert p rows Hplan Htrial).
Qed.

Lemma planless_events_keep_the_plan_witness :
  entitlement_view
    (snd (BillingWebhook.serve Scenario.stripe_env
            (Scenario.stripe_delivery (BillingWebhook.invoice_paid (Some "sub_1") (Some "cus_1")))
            (snd (BillingWebhook.serve Scenario.stripe_env
                    (Scenario.stripe_delivery
                       (BillingWebhook.invoice_payment_failed (Some "sub_1") (Some "cus_1")))
                    Scenario.merchants_basic))))
  = [mkMerchant "m-1" "past_due" (Some 900%Z)].
Proof.
  destruct (planless_events_keep_the_plan Scenario.stripe_env
              (Scenario.stripe_delivery (BillingWebhook.invoice_paid (Some "sub_1") (Some "cus_1")))
              (BillingWebhook.invoice_paid (Some "sub_1") (Some "cus_1"))
              (snd (BillingWebhook.serve Scenario.stripe_env
                      (Scenario.stripe_delivery
                         (BillingWebhook.invoice_payment_failed (Some "sub_1") (Some "cus_1")))
                      Scenario.merchants_basic))
              eq_refl I) as [added [E _]].
  reflexivity.
Defined.

(** ** From a failed payment to a refused invoice *)

Lemma find_merged p rows r :
  merchant_ids_unique rows -> In r rows ->
  BillingWebhook.set_id p = BillingWebhook.id r ->
  find (fun m => String.eqb (merchant_id m) (BillingWebhook.id r))
       (entitlement_view
          (map (fun x => if String.eqb (BillingWebhook.id x) (BillingWebhook.set_id p)
                         then BillingWebhook.merge p x else x) rows))
  = Some (mkMerchant (BillingWebhook.id r)
            (withDefault (BillingWebhook.set_plan_tier p) (BillingWebhook.plan_tier r))
            (orElse (BillingWebhook.set_trial_ends_at p) (BillingWebhook.trial_ends_at r))).
Proof.
  unfold merchant_ids_unique, entitlement_view. intros N Hin Hkey. rewrite Hkey.
  induction rows as [| x l IH]; [contradiction |].
  inversion N as [| y ys Hnot Hnd]; subst. cbn [map find].
  destruct Hin as [-> | Hin].
  - rewrite String.eqb_refl. cbn [BillingWebhook.merge BillingWebhook.id merchant_id].
    rewrite String.eqb_refl. reflexivity.
  - assert (Hne : String.eqb (BillingWebhook.id x) (BillingWebhook.id r) = false).
    { apply String.eqb_neq. intro E. apply Hnot. rewrite E. apply in_map. exact Hin. }
    rewrite Hne. cbn [merchant_id]. rewrite Hne. apply IH; assumption.
Qed.

(** X22.  A failed Stripe payment closes the gate.  When the webhook has
    handled [invoice.payment_failed] for a customer that is linked to
    exactly one merchant, that merchant's plan tier is [past_due]; and the
    entitlement check of [buy], reading the table so left, refuses the
    merchant with 402 and code [entitlement_blocked] - provided
    subscriptions are on and the merchant has no trial still running. *)
Theorem failed_payment_blocks_issuance :
  forall (e : BillingWebhook.env) (req : BillingWebhook.request)
         (sub : option string) (c : string)
         (rows : list BillingWebhook.merchant_row) (r : BillingWebhook.merchant_row)
         (w : Buy.world) (db : DB),
    BillingWebhook.method req = "POST" ->
    nonempty (BillingWebhook.STRIPE_SECRET_KEY e) = true ->
    nonempty (BillingWebhook.STRIPE_WEBHOOK_SECRET e) = true ->
    BillingWebhook.verified req = Some (BillingWebhook.invoice_payment_failed sub (Some c)) ->
    nonempty c = true ->
    merchant_ids_unique rows ->
    BillingWebhook.select_by_customer c rows = OneRow r ->
    nonempty (BillingWebhook.id r) = true ->
    merchants db = entitlement_view (snd (BillingWebhook.serve e req rows)) ->
    subscriptions_on w = true ->
    (forall t, BillingWebhook.trial_ends_at r = Some t -> (t <= Buy.now w)%Z) ->
    fst (BillingWebhook.serve e req rows) = BillingWebhook.Received
    /\ Buy.select_merchant (BillingWebhook.id r) db
       = Some (mkMerchant (BillingWebhook.id r) "past_due" (BillingWebhook.trial_ends_at r))
    /\ run (Buy.assertMerchantEntitled w (BillingWebhook.id r)) db
       = (Some (Buy.Denied "entitlement_blocked"), db).
Proof.
  intros e req sub c rows r w db Hpost Hkey Hwh Hev Hc N Hsel Hid Hdb Hon Htrial.
  assert (Hin : In r rows).
  { unfold BillingWebhook.select_by_customer in Hsel. apply maybeSingle_OneRow in Hsel.
    assert (I : In r (filter (fun x => BillingWebhook.equals
                                         (BillingWebhook.stripe_customer_id x) c) rows)).
    { rewrite Hsel. left. reflexivity. }
    apply filter_In in I. apply I. }
  assert (Hserve : BillingWebhook.serve e req rows
                   = (BillingWebhook.Received,
                      map (fun x => if String.eqb (BillingWebhook.id x) (BillingWebhook.id r)
                                    then BillingWebhook.merge
                                           (BillingWebhook.mkPatch (BillingWebhook.id r)
                                              (Some c)
                                              (BillingWebhook.truthy
                                                 (Some (BillingWebhook.str sub)))
                                              (Some "past_due") None None None) x
                                    else x) rows)).
  { unfold BillingWebhook.serve. rewrite Hpost, Hkey, Hwh, Hev. simpl negb. simpl orb.
    cbv iota. cbn [BillingWebhook.handle].
    unfold BillingWebhook.upsertMerchantState.
    cbn [BillingWebhook.merchantId BillingWebhook.stripeCustomerId
         BillingWebhook.stripeSubscriptionId BillingWebhook.planTier
         BillingWebhook.trialEndsAt BillingWebhook.periodStart BillingWebhook.periodEnd
         BillingWebhook.column].
    assert (Hstr : BillingWebhook.truthy (Some (BillingWebhook.str (Some c))) = Some c).
    { unfold BillingWebhook.str, BillingWebhook.truthy. rewrite Hc. cbn [withDefault].
      rewrite Hc. reflexivity. }
    rewrite Hstr. cbn [BillingWebhook.truthy]. rewrite Hsel.
    cbn [BillingWebhook.truthy]. rewrite Hid. cbn [BillingWebhook.truthy]. rewrite Hid.
    unfold BillingWebhook.upsert. cbn [BillingWebhook.set_id].
    assert (Hex : existsb (fun x => String.eqb (BillingWebhook.id x) (BillingWebhook.id r))
                    rows = true).
    { apply existsb_exists. exists r. split; [exact Hin | apply String.eqb_refl]. }
    rewrite Hex. reflexivity. }
  rewrite Hserve in Hdb. cbn [snd] in Hdb. rewrite Hserve. cbn [fst].
  assert (Hfound : Buy.select_merchant (BillingWebhook.id r) db
                   = Some (mkMerchant (BillingWebhook.id r) "past_due"
                             (BillingWebhook.trial_ends_at r))).
  { unfold Buy.select_merchant. rewrite Hdb.
    apply (find_merged
             (BillingWebhook.mkPatch (BillingWebhook.id r) (Some c)
                (BillingWebhook.truthy (Some (BillingWebhook.str sub)))
                (Some "past_due") None None None) rows r N Hin eq_refl). }
  split; [reflexivity |]. split; [exact Hfound |].
  unfold Buy.assertMerchantEntitled. unfold subscriptions_on in Hon. rewrite Hon, Hid.
  simpl negb. cbv iota. rewrite run_query, Hfound. cbn [trial_ends_at plan_tier nonempty].
  assert (Hnot : match BillingWebhook.trial_ends_at r with
                 | Some t => (Buy.now w <? t)%Z
                 | None => false
                 end = false).
  { destruct (BillingWebhook.trial_ends_at r) as [t |]; [| reflexivity].
    apply Z.ltb_ge. apply Htrial. reflexivity. }
  rewrite Hnot. reflexivity.
Qed.

Lemma failed_payment_blocks_issuance_witness :
  run (Buy.assertMerchantEntitled Scenario.shop "m-1") Scenario.db_after_failure
  = (Some (Buy.Denied "entitlement_blocked"), Scenario.db_after_failure).
Proof.
  refine (proj2 (proj2
    (failed_payment_blocks_issuance Scenario.stripe_env
       (Scenario.stripe_delivery
          (BillingWebhook.invoice_payment_failed (Some "sub_1") (Some "cus_1")))
       (Some "sub_1") "cus_1" Scenario.merchants_basic
       (BillingWebhook.mkRow "m-1" (Some "cus_1") (Some "sub_1") "basic_50" (Some 900%Z)
          None None)
       Scenario.shop Scenario.db_after_failure
       eq_refl eq_refl eq_refl eq_refl eq_refl _ eq_refl eq_refl eq_refl eq_refl _))).
  - unfold merchant_ids_unique. simpl. constructor; [intros [] | constructor].
  - intros t H. injection H as <-. simpl. lia.
Defined.

(** ** Minor units *)

Lemma digit_not_dot c : is_digit c = true -> Ascii.eqb c "."%char = false.
Proof.
  destruct c as [b0 b1 b2 b3 b4 b5 b6 b7].
  destruct b0, b1, b2, b3, b4, b5, b6, b7; intro H; try reflexivity; discriminate H.
Qed.

Lemma digit_val_range c : is_digit c = true -> (0 <= digit_val c <= 9)%Z.
Proof.
  destruct c as [b0 b1 b2 b3 b4 b5 b6 b7].
  destruct b0, b1, b2, b3, b4, b5, b6, b7; intro H; try discriminate H;
    vm_compute; split; discriminate.
Qed.

Lemma until_dot_digits s : sall is_digit s = true -> SolanaPay.until_dot s = (s, None).
Proof.
  induction s as [| c r IH]; simpl; intro H; [reflexivity |].
  apply andb_true_iff in H. destruct H as [Hc Hr].
  rewrite (digit_not_dot c Hc), (IH Hr). reflexivity.
Qed.

Lemma until_dot_at_dot i f :
  sall is_digit i = true ->
  SolanaPay.until_dot (i ++ String "."%char f) = (i, Some f).
Proof.
  induction i as [| c r IH]; simpl; intro H; [reflexivity |].
  apply andb_true_iff in H. destruct H as [Hc Hr].
  rewrite (digit_not_dot c Hc), (IH Hr). reflexivity.
Qed.

Lemma digits_val_app base a b : forall acc,
  digits_val base acc (a ++ b) = digits_val base (digits_val base acc a) b.
Proof. induction a as [| c r IH]; intro acc; simpl; [reflexivity | apply IH]. Qed.

Lemma pow10_succ n : (10 ^ Z.of_nat (S n) = 10 ^ Z.of_nat n * 10)%Z.
Proof. rewrite Nat2Z.inj_succ, Z.pow_succ_r; lia. Qed.

Lemma pow10_pos n : (0 < 10 ^ Z.of_nat n)%Z.
Proof. apply Z.pow_pos_nonneg; lia. Qed.

Lemma digits_val_acc s : forall acc,
  digits_val 10 acc s = (acc * 10 ^ Z.of_nat (String.length s) + digits_val 10 0 s)%Z.
Proof.
  induction s as [| c r IH]; intro acc.
  - simpl. lia.
  - cbn [digits_val String.length]. rewrite (IH (acc * 10 + digit_val c)%Z).
    rewrite (IH (0 * 10 + digit_val c)%Z). rewrite pow10_succ. lia.
Qed.

Lemma digits_val_bound s :
  sall is_digit s = true ->
  (0 <= digits_val 10 0 s < 10 ^ Z.of_nat (String.length s))%Z.
Proof.
  induction s as [| c r IH]; intro H.
  - simpl. lia.
  - simpl in H. apply andb_true_iff in H. destruct H as [Hc Hr].
    cbn [digits_val String.length]. rewrite digits_val_acc, pow10_succ.
    pose proof (digit_val_range c Hc). specialize (IH Hr).
    pose proof (pow10_pos (String.length r)). nia.
Qed.

Lemma digits_val_zeros n : forall acc,
  digits_val 10 acc (SolanaPay.zeros n) = (acc * 10 ^ Z.of_nat n)%Z.
Proof.
  induction n as [| k IH]; intro acc.
  - simpl. lia.
  - cbn [SolanaPay.zeros digits_val]. rewrite IH, pow10_succ.
    change (digit_val "0"%char) with 0%Z. lia.
Qed.

Lemma take_zeros d : forall m, (d <= m)%nat ->
  SolanaPay.take d (SolanaPay.zeros m) = SolanaPay.zeros d.
Proof.
  induction d as [| k IH]; intros m H.
  - destruct m; reflexivity.
  - destruct m as [| m']; [lia |]. simpl. rewrite IH; [reflexivity | lia].
Qed.

Lemma sall_zeros n : sall is_digit (SolanaPay.zeros n) = true.
Proof. induction n; simpl; auto. Qed.

Lemma sall_app p a b : sall p (a ++ b) = sall p a && sall p b.
Proof.
  induction a as [| c r IH]; simpl; [reflexivity |].
  rewrite IH. apply andb_assoc.
Qed.

Lemma sall_take p d : forall s, sall p s = true -> sall p (SolanaPay.take d s) = true.
Proof.
  induction d as [| k IH]; intros s H; [destruct s; reflexivity |].
  destruct s as [| c r]; [reflexivity |].
  simpl in *. apply andb_true_iff in H. destruct H as [Hc Hr].
  rewrite Hc, (IH r Hr). reflexivity.
Qed.

(** The digits kept of a fraction are those of the fraction scaled and
    cut: nothing is rounded. *)
Lemma digits_val_take f : forall d m acc,
  sall is_digit f = true -> (d <= m)%nat ->
  digits_val 10 acc (SolanaPay.take d (f ++ SolanaPay.zeros m))
  = (digits_val 10 acc f * 10 ^ Z.of_nat d / 10 ^ Z.of_nat (String.length f))%Z.
Proof.
  induction f as [| c r IH]; intros d m acc Hf Hd.
  - cbn [append String.length digits_val]. rewrite (take_zeros d m Hd), digits_val_zeros.
    change (10 ^ Z.of_nat 0)%Z with 1%Z. rewrite Z.div_1_r. reflexivity.
  - simpl in Hf. apply andb_true_iff in Hf. destruct Hf as [Hc Hr].
    destruct d as [| k].
    + cbn [append SolanaPay.take digits_val String.length].
      change (10 ^ Z.of_nat 0)%Z with 1%Z. rewrite Z.mul_1_r.
      rewrite digits_val_acc, pow10_succ.
      pose proof (digits_val_bound r Hr) as B.
      pose proof (digit_val_range c Hc) as C.
      pose proof (pow10_pos (String.length r)) as P.
      apply Z.div_unique with
        (r := (digit_val c * 10 ^ Z.of_nat (String.length r) + digits_val 10 0 r)%Z).
      * left. nia.
      * lia.
    + cbn [append SolanaPay.take digits_val String.length].
      rewrite (IH k m _ Hr); [| lia].
      rewrite !pow10_succ, Z.mul_assoc.
      pose proof (pow10_pos (String.length r)).
      rewrite Z.div_mul_cancel_r; [reflexivity | lia | lia].
Qed.

Lemma StringToBigInt_digits s :
  all_digits s = true -> SolanaPay.StringToBigInt s = Some (digits_val 10 0 s).
Proof.
  intro H. pose proof H as Hall.
  unfold all_digits in H. apply andb_true_iff in H. destruct H as [Hn Hd].
  unfold SolanaPay.StringToBigInt. rewrite (trim_digits s Hd).
  assert (Dec : (if all_digits s then Some (1 * digits_val 10 0 s)%Z else None)
                = Some (digits_val 10 0 s)).
  { rewrite Hall. f_equal. lia. }
  destruct s as [| c r]; [discriminate Hn |].
  simpl in Hd. apply andb_true_iff in Hd. destruct Hd as [Hc Hr].
  destruct c as [b0 b1 b2 b3 b4 b5 b6 b7].
  destruct b0, b1, b2, b3, b4, b5, b6, b7; try discriminate Hc;
    try (cbv beta iota zeta; exact Dec).
  destruct r as [| x ds].
  - exact Dec.
  - simpl in Hr. apply andb_true_iff in Hr. destruct Hr as [Hx _].
    destruct x as [b0 b1 b2 b3 b4 b5 b6 b7].
    destruct b0, b1, b2, b3, b4, b5, b6, b7; try discriminate Hx;
      cbv beta iota zeta; simpl orb; cbv iota; exact Dec.
Qed.

(** X23.  [toMinorUnits] cuts, it does not round.  For an amount printed
    as the digits [i], a dot and the digits [f], the result is the integer
    part of the amount times ten to the decimals: with [A] the number whose
    digits are [i] followed by [f], it is [A * 10^decimals / 10^|f|],
    rounded down.  For an amount printed without a dot it is the amount
    times ten to the decimals. *)
Theorem toMinorUnits_truncates :
  forall (i f : string) (decimals : nat),
    all_digits i = true ->
    sall is_digit f = true ->
    SolanaPay.toMinorUnits (i ++ String "."%char f) decimals
    = Some (digits_val 10 0 (i ++ f) * 10 ^ Z.of_nat decimals
            / 10 ^ Z.of_nat (String.length f))%Z
    /\ SolanaPay.toMinorUnits i decimals
       = Some (digits_val 10 0 i * 10 ^ Z.of_nat decimals)%Z.
Proof.
  intros i f d Hi Hf.
  pose proof Hi as Hall. unfold all_digits in Hi.
  apply andb_true_iff in Hi. destruct Hi as [Hne Hdi].
  assert (Hmain : forall g,
            sall is_digit g = true ->
            SolanaPay.StringToBigInt
              ((if nonempty i then i else "0")
               ++ (if nonempty (SolanaPay.take d (g ++ SolanaPay.zeros d))
                   then SolanaPay.take d (g ++ SolanaPay.zeros d) else ""))
            = Some (digits_val 10 0 (i ++ g) * 10 ^ Z.of_nat d
                    / 10 ^ Z.of_nat (String.length g))%Z).
  { intros g Hg. rewrite Hne.
    set (frac := SolanaPay.take d (g ++ SolanaPay.zeros d)).
    assert (Hfrac : sall is_digit frac = true).
    { apply sall_take. rewrite sall_app, Hg, sall_zeros. reflexivity. }
    assert (E : (if nonempty frac then frac else "") = frac) by (destruct frac; reflexivity).
    rewrite E. rewrite StringToBigInt_digits.
    - rewrite !digits_val_app. unfold frac.
      rewrite (digits_val_take g d d _ Hg (le_n d)). reflexivity.
    - unfold all_digits. rewrite sall_app, Hdi, Hfrac.
      destruct i; [discriminate Hne | reflexivity]. }
  split.
  - unfold SolanaPay.toMinorUnits, SolanaPay.split_dot.
    rewrite (until_dot_at_dot i f Hdi), (until_dot_digits f Hf). cbn [fst].
    apply Hmain. exact Hf.
  - unfold SolanaPay.toMinorUnits, SolanaPay.split_dot.
    rewrite (until_dot_digits i Hdi).
    rewrite (Hmain "" eq_refl). rewrite append_empty.
    cbn [String.length]. change (10 ^ Z.of_nat 0)%Z with 1%Z. rewrite Z.div_1_r.
    reflexivity.
Qed.

Lemma toMinorUnits_truncates_witness :
  SolanaPay.toMinorUnits "2.5000009" 6 = Some 2500000%Z
  /\ SolanaPay.toMinorUnits "12" 9 = Some 12000000000%Z.
Proof.
  destruct (toMinorUnits_truncates "2" "5000009" 6 eq_refl eq_refl) as [H1 _].
  destruct (toMinorUnits_truncates "12" "" 9 eq_refl eq_refl) as [_ H2].
  split; [exact H1 | exact H2].
Defined.

(** ** From payment to confirmation *)

Lemma select_paid_all db :
  (List.length (awaiting_confirmation db) <= 50)%nat ->
  Confirmations.select_paid db = awaiting_confirmation db.
Proof. intro H. unfold Confirmations.select_paid. apply firstn_all2. exact H. Qed.

Lemma serve_sweeps_at w db tip inv :
  In inv (Confirmations.select_paid db) ->
  tip_of w = Confirmations.Answer tip ->
  snd (run (Confirmations.serve w) db)
  = snd (run (Confirmations.sweep w tip (Confirmations.select_paid db)) db).
Proof.
  intros Hin Htip. unfold Confirmations.serve. rewrite run_query.
  destruct (Confirmations.select_paid db) as [| x xs] eqn:E; [contradiction |].
  unfold tip_of in Htip. rewrite Htip, run_bind.
  destruct (run (Confirmations.sweep w tip (x :: xs)) db) as [c db1]. reflexivity.
Qed.

(** The sweep of a batch in which an invoice occurs once and is reached. *)
Lemma sweep_reaches_with w tip inv F G L l2 :
  visit_does w tip inv F G L ->
  (forall j, In j l2 -> inv_id j <> inv_id inv) ->
  forall l1 db,
    (forall j, In j l1 -> inv_id j <> inv_id inv) ->
    lookups_answer w l1 ->
    let db' := snd (run (Confirmations.sweep w tip (l1 ++ inv :: l2)) db) in
    invoices_of (inv_id inv) db' = F (invoices_of (inv_id inv) db)
    /\ payments_of (inv_id inv) db' = G (payments_of (inv_id inv) db)
    /\ ledger_of (inv_id inv) db' = L (ledger_of (inv_id inv) db).
Proof.
  intros Hvisit H2 l1.
  induction l1 as [| j r IH]; intros db H1 Hno; cbv zeta.
  - simpl app. simpl Confirmations.sweep. rewrite run_bind.
    destruct (Hvisit db) as [Hgo [Hi [Hp Hl]]].
    destruct (run (Confirmations.visit w tip inv) db) as [goes_on db1].
    simpl in Hgo. subst goes_on. simpl snd in Hi, Hp, Hl.
    destruct (sweep_other w tip (inv_id inv) l2 db1 H2) as [Hi' [Hp' Hl']].
    cbn [run fst snd]. rewrite Hi', Hp', Hl'. auto.
  - simpl app. simpl Confirmations.sweep. rewrite run_bind.
    pose proof (visit_goes_on w tip j db (Hno j (or_introl eq_refl))) as Hgo.
    destruct (visit_other w tip j (inv_id inv) db (H1 j (or_introl eq_refl)))
      as [Hi [Hp Hl]].
    destruct (run (Confirmations.visit w tip j) db) as [goes_on db1].
    simpl in Hgo. subst goes_on. simpl snd in Hi, Hp, Hl.
    destruct (IH db1 (fun k Hk => H1 k (or_intror Hk))
                (fun k Hk => Hno k (or_intror Hk))) as [Hi' [Hp' Hl']].
    cbn [run fst snd]. rewrite Hi', Hp', Hl', Hi, Hp, Hl. auto.
Qed.

(** What a sweep does to an invoice of its batch, when the batch holds all
    that awaits confirmation and no lookup fails. *)
Lemma serve_reaches w db tip inv F G L :
  unique_ids db ->
  (List.length (awaiting_confirmation db) <= 50)%nat ->
  In inv (awaiting_confirmation db) ->
  tip_of w = Confirmations.Answer tip ->
  lookups_answer w (awaiting_confirmation db) ->
  visit_does w tip inv F G L ->
  let db' := snd (run (Confirmations.serve w) db) in
  invoices_of (inv_id inv) db' = F [inv]
  /\ payments_of (inv_id inv) db' = G (payments_of (inv_id inv) db)
  /\ ledger_of (inv_id inv) db' = L (ledger_of (inv_id inv) db).
Proof.
  intros U Hlen Hin Htip Hno Hvisit. cbv zeta.
  rewrite <- (select_paid_all db Hlen) in Hin, Hno.
  pose proof (select_paid_In db inv Hin) as [Hindb _].
  destruct (select_paid_split db inv U Hin) as [l1 [l2 [E Hother]]].
  rewrite (serve_sweeps_at w db tip inv Hin Htip), E.
  assert (Hno1 : lookups_answer w l1).
  { intros j Hj. apply Hno. rewrite E. apply in_or_app. left. exact Hj. }
  destruct (sweep_reaches_with w tip inv F G L l2 Hvisit
              (fun j Hj => Hother j (in_or_app _ _ _ (or_intror Hj)))
              l1 db
              (fun j Hj => Hother j (in_or_app _ _ _ (or_introl Hj))) Hno1)
    as [Hi [Hp Hl]].
  rewrite Hi, Hp, Hl, (invoices_of_unique db inv U Hindb). auto.
Qed.

Lemma update_confirmed_rows inv t d :
  invoices_of (inv_id inv)
    (update_invoices (Confirmations.by_id inv) (set_confirmed t) d)
  = map (set_confirmed t) (invoices_of (inv_id inv) d).
Proof.
  unfold invoices_of, update_invoices, Confirmations.by_id. simpl.
  apply (filter_map_hit (fun i => String.eqb (inv_id i) (inv_id inv))). reflexivity.
Qed.

(** The visit of a Solana invoice whose signature is finalized. *)
Lemma visit_solana w tip inv s db :
  col_eq (network inv) "solana" = true ->
  detected_tx_hash inv = Some s ->
  Confirmations.getSignatureStatuses w s = Confirmations.Answer true ->
  let id := inv_id inv in
  let out := run (Confirmations.visit w tip inv) db in
  fst out = true
  /\ invoices_of id (snd out)
     = map (set_confirmed (Confirmations.clock w id)) (invoices_of id db)
  /\ payments_of id (snd out) = payments_of id db
  /\ ledger_of id (snd out) = (ledger_of id db ++ opt_list (ledger_entry w inv))%list.
Proof.
  intros Hsol Hhash Hst id out. subst out. unfold Confirmations.visit.
  rewrite Hsol, Hhash. change (withDefault (Some s) "") with s. rewrite Hst.
  rewrite run_exec, run_bind.
  pose proof (recordUsage_outcome w inv
                (update_invoices (Confirmations.by_id inv)
                   (set_confirmed (Confirmations.clock w (inv_id inv))) db))
    as [Hi [Hp _]].
  pose proof (recordUsage_ledger w inv
                (update_invoices (Confirmations.by_id inv)
                   (set_confirmed (Confirmations.clock w (inv_id inv))) db)) as Hl.
  destruct (run (Confirmations.recordUsage w inv) _) as [[] db1].
  cbn [run fst snd]. cbn [snd] in Hi, Hp, Hl.
  split; [reflexivity |]. split; [| split].
  - unfold invoices_of at 1. rewrite Hi. apply update_confirmed_rows.
  - unfold payments_of. rewrite Hp. reflexivity.
  - unfold ledger_of. rewrite Hl. rewrite filter_app. f_equal.
    destruct (ledger_entry w inv) as [r |] eqn:E; [| reflexivity]. simpl.
    rewrite (ledger_entry_id w inv r E). fold id. rewrite String.eqb_refl. reflexivity.
Qed.



(** X25.  From receipt to confirmation.  When [solana-receipt] takes a
    valid receipt for a pending Solana invoice, the next sweep whose batch
    holds everything awaiting confirmation confirms the invoice as soon as
    the Solana node reports the signature finalized - provided the sweep gets
    that far: the tip lookup, when an RPC URL is set, and the receipt
    lookups of the EVM invoices of the batch must not fail.  The invoice
    then gains the ledger entry of usage recording, if that found a price,
    and its Payment rows, if any, are as they were. *)
Theorem solana_receipt_reaches_confirmation :
  forall (req : SolanaReceipt.request) (t s : string) (db : DB) (inv : invoice)
         (w : Confirmations.world) (tip : Z),
    unique_ids db ->
    valid_receipt req t s ->
    SolanaReceipt.select_by_token t db = OneRow inv ->
    status inv = pending ->
    col_eq (network inv) "solana" = true ->
    let db1 := snd (run (SolanaReceipt.serve req) db) in
    (List.length (awaiting_confirmation db1) <= 50)%nat ->
    lookups_answer w (awaiting_confirmation db1) ->
    tip_of w = Confirmations.Answer tip ->
    Confirmations.getSignatureStatuses w s = Confirmations.Answer true ->
    let db2 := snd (run (Confirmations.serve w) db1) in
    let paid_row := set_paid_signature s inv in
    invoices_of (inv_id inv) db2
    = [set_confirmed (Confirmations.clock w (inv_id inv)) paid_row]
    /\ payments_of (inv_id inv) db2 = payments_of (inv_id inv) db
    /\ ledger_of (inv_id inv) db2
       = (ledger_of (inv_id inv) db ++ opt_list (ledger_entry w paid_row))%list.
Proof.
  intros req t s db inv w tip U Hv Hsel Hst Hsol db1 Hlen Hno Htip Hfin db2 paid_row.
  assert (Hrun : db1 = signed t s db).
  { unfold db1. rewrite (run_valid_receipt req t s db Hv), Hsel, Hst. reflexivity. }
  destruct (select_by_token_OneRow t db inv Hsel) as [Hin _].
  assert (Htok : String.eqb (public_token inv) t = true).
  { unfold SolanaReceipt.select_by_token in Hsel. apply maybeSingle_OneRow in Hsel.
    assert (I : In inv (filter (fun i => String.eqb (public_token i) t) (invoices db))).
    { rewrite Hsel. left. reflexivity. }
    apply filter_In in I. apply I. }
  assert (U1 : unique_ids db1).
  { exact (rows_keep_ids paid_step db db1 paid_step_id (receipt_rows req db) U). }
  assert (Hrow : In paid_row (invoices db1)).
  { rewrite Hrun. apply update_invoices_In. exists inv. split; [exact Hin |].
    rewrite Htok. reflexivity. }
  assert (Hwait : In paid_row (awaiting_confirmation db1)).
  { apply filter_In. split; [exact Hrow | reflexivity]. }
  destruct (serve_reaches w db1 tip paid_row
              (map (set_confirmed (Confirmations.clock w (inv_id inv))))
              (fun l => l)
              (fun l => (l ++ opt_list (ledger_entry w paid_row))%list)
              U1 Hlen Hwait Htip Hno) as [Hi [Hp Hl]].
  { intro d. exact (visit_solana w tip paid_row s d Hsol eq_refl Hfin). }
  change (inv_id paid_row) with (inv_id inv) in Hi, Hp, Hl. fold db2 in Hi, Hp, Hl.
  split; [exact Hi |].
  assert (Hsame : payments db1 = payments db /\ ledger db1 = ledger db).
  { rewrite Hrun. split; reflexivity. }
  destruct Hsame as [Ep El].
  split.
  - rewrite Hp. unfold payments_of. rewrite Ep. reflexivity.
  - rewrite Hl. unfold ledger_of. rewrite El. reflexivity.
Qed.

Lemma solana_receipt_reaches_confirmation_witness :
  unique_ids Scenario.db_sol
  /\ valid_receipt Scenario.receiptA Scenario.token1 Scenario.sigA
  /\ (let db2 :=
        snd (run (Confirmations.serve Scenario.both_nodes)
               (snd (run (SolanaReceipt.serve Scenario.receiptA) Scenario.db_sol))) in
      map status (invoices_of "inv-2" db2) = [confirmed]
      /\ ledger_of "inv-2" db2 = [mkLedger "m-1" "inv-2" "SOL" (5 # 2) 50000]).
Proof.
  assert (U : unique_ids Scenario.db_sol).
  { unfold unique_ids. simpl. constructor; [intros [] | constructor]. }
  assert (V : valid_receipt Scenario.receiptA Scenario.token1 Scenario.sigA).
  { split; [reflexivity |]. exists Scenario.token1, Scenario.sigA.
    repeat split; reflexivity. }
  split; [exact U |]. split; [exact V |].
  assert (Hno : lookups_answer Scenario.both_nodes
                  (awaiting_confirmation
                     (snd (run (SolanaReceipt.serve Scenario.receiptA) Scenario.db_sol)))).
  { intros j [<- | []] H. discriminate H. }
  destruct (solana_receipt_reaches_confirmation Scenario.receiptA Scenario.token1
              Scenario.sigA Scenario.db_sol Scenario.inv_sol Scenario.both_nodes 100%Z
              U V eq_refl eq_refl eq_refl (proj1 (Nat.leb_le 1 50) eq_refl) Hno
              eq_refl eq_refl) as [Hi [_ Hl]].
  cbv zeta. split.
  - exact (f_equal (map status) Hi).
  - exact Hl.
Defined.
